(** * Session coordination engine of the estate-search backend

    A shallow embedding of [backend/main.py] (the coordinator agent: its five
    reply handlers and the REST handler [handle_chat]), of the message models
    of [backend/agents/models.py], of the geocoding worker of
    [backend/agents/mapbox_agent.py] ([geocode_address] and its handler) and
    of the scoping worker's handler of [backend/agents/scoping_agent.py],
    followed by the properties of the coordination core and of the two
    workers.

    Modelling conventions.
    - The process-wide [sessions] dict is a [gmap string Session]; the inner
      per-session dict only ever holds the eight literal keys the coordinator
      writes, so it is a record of optional fields ([None] = key absent).
    - Untyped Python values (the raw search hits, the response payload) are
      [Value]s; Python dicts with string keys are [gmap string Value].
    - Python [int] is [Z], [float] is a binary64 float, [str] is [string]
      (a byte string: code points outside ASCII are their UTF-8 bytes).
    - A reply handler returns the new store and the list of messages it sent
      ([ctx.send]), in order.  The agent takes one message at a time from its
      queue, so a handler runs to its end before the next one starts.
    - [handle_chat] runs in a task of its own and suspends at each of its
      [await]s: once in [ctx.send] and then in every [asyncio.sleep].  What
      the coordinator's handlers process during the k-th suspension is the
      k-th batch of the run's [inbox]; a batch may be empty, and a run whose
      inbox is used up sees no further reply.  One [handle_chat] call is
      followed at a time; it sees the store between two handler runs.
    - A worker's handler takes the outcome of its call to the outside (the
      HTTP exchange with the geocoding API, the language model's answer) as
      an argument, and returns the reply it sends, if it gets that far. *)

From Stdlib Require Import ZArith NArith PrimFloat FloatOps SpecFloat.
From Stdlib Require Import String Ascii List Lia DecimalString DecimalNat.
From stdpp Require Import gmap strings list.

Open Scope Z_scope.

#[local] Set Warnings "-register-all".

(** ** Python values *)

Inductive Value :=
| VNone
| VBool (b : bool)
| VInt (n : Z)
| VFloat (f : float)
| VStr (s : string)
| VList (l : list Value)
| VDict (d : gmap string Value).

(** Truth value testing ([if x:]). *)
Definition truthy (v : Value) : bool :=
  match v with
  | VNone => false
  | VBool b => b
  | VInt n => negb (Z.eqb n 0)
  | VFloat f => negb (PrimFloat.eqb f 0%float)
  | VStr s => negb (String.eqb s "")
  | VList l => match l with [] => false | _ :: _ => true end
  | VDict d => negb (bool_decide (d = ∅))
  end.

(** [d.get(k, default)] *)
Definition dict_get (d : gmap string Value) (k : string) (default : Value) : Value :=
  match d !! k with Some v => v | None => default end.

(** [k in d] *)
Definition dict_has (d : gmap string Value) (k : string) : bool :=
  bool_decide (is_Some (d !! k)).

(** [f == n] for a [float] and an [int]: the exact values are compared, so
    a float equals an int when it is that whole number. *)
Definition float_eq_int (f : float) (n : Z) : bool :=
  match Prim2SF f with
  | S754_zero _ => Z.eqb n 0
  | S754_finite sign mantissa exponent =>
      let m := if sign then Z.neg mantissa else Z.pos mantissa in
      if 0 <=? exponent then Z.eqb (m * 2 ^ exponent) n
      else Z.eqb m (n * 2 ^ (- exponent))
  | S754_infinity _ | S754_nan => false
  end.

(** [v == n] for an [int] [n]: a number equals [n] by its value ([True] is
    1 and [False] is 0), and nothing else equals an [int]. *)
Definition eq_int (v : Value) (n : Z) : bool :=
  match v with
  | VBool b => Z.eqb (if b then 1 else 0) n
  | VInt m => Z.eqb m n
  | VFloat f => float_eq_int f n
  | VNone | VStr _ | VList _ | VDict _ => false
  end.

Definition opt_value {A} (f : A -> Value) (o : option A) : Value :=
  match o with Some a => f a | None => VNone end.

(** ** Message models ([agents/models.py]) *)

Module UserRequirements.
Record t := {
  budget_min : option Z;
  budget_max : option Z;
  bedrooms : option Z;
  bathrooms : option float;
  location : string;
  additional_info : option string }.

(** [.dict()] *)
Definition dict (r : t) : gmap string Value :=
  list_to_map
    [("budget_min", opt_value VInt (budget_min r));
     ("budget_max", opt_value VInt (budget_max r));
     ("bedrooms", opt_value VInt (bedrooms r));
     ("bathrooms", opt_value VFloat (bathrooms r));
     ("location", VStr (location r));
     ("additional_info", opt_value VStr (additional_info r))].
End UserRequirements.

Module PropertyListing.
Record t := {
  address : string;
  city : string;
  price : option Z;
  bedrooms : option Z;
  bathrooms : option float;
  sqft : option Z;
  latitude : option float;
  longitude : option float;
  description : option string;
  url : option string;
  image_url : option string }.

Definition dict (p : t) : gmap string Value :=
  list_to_map
    [("address", VStr (address p));
     ("city", VStr (city p));
     ("price", opt_value VInt (price p));
     ("bedrooms", opt_value VInt (bedrooms p));
     ("bathrooms", opt_value VFloat (bathrooms p));
     ("sqft", opt_value VInt (sqft p));
     ("latitude", opt_value VFloat (latitude p));
     ("longitude", opt_value VFloat (longitude p));
     ("description", opt_value VStr (description p));
     ("url", opt_value VStr (url p));
     ("image_url", opt_value VStr (image_url p))].
End PropertyListing.

Module ScopingRequest.
Record t := { user_message : string; session_id : string }.
End ScopingRequest.

Module ScopingResponse.
Record t := {
  agent_message : string;
  is_complete : bool;
  session_id : string;
  requirements : option UserRequirements.t;
  is_general_question : bool;
  general_question : option string }.
End ScopingResponse.

Module ResearchRequest.
Record t := { requirements : UserRequirements.t; session_id : string }.
End ResearchRequest.

(** [result_images] is declared [Optional[List[dict]]]: its entries are
    plain dicts, and nothing checks that they hold the ["index"] and
    ["image_url"] the model file's comment speaks of. *)
Module ResearchResponse.
Record t := {
  properties : list PropertyListing.t;
  search_summary : string;
  total_found : Z;
  session_id : string;
  raw_search_results : option (list (gmap string Value));
  top_result_image_url : option string;
  result_images : option (list (gmap string Value)) }.
End ResearchResponse.

Module GeneralRequest.
Record t := { question : string; session_id : string }.
End GeneralRequest.

Module GeneralResponse.
Record t := { answer : string; session_id : string }.
End GeneralResponse.

Module MapboxRequest.
Record t := { address : string; session_id : string }.
End MapboxRequest.

Module MapboxResponse.
Record t := {
  address : string;
  latitude : float;
  longitude : float;
  session_id : string;
  error : option string;
  image_url : option string }.
End MapboxResponse.

Module POI.
Record t := {
  name : string;
  category : string;
  latitude : float;
  longitude : float;
  address : option string;
  distance_meters : option Z }.

Definition dict (p : t) : gmap string Value :=
  list_to_map
    [("name", VStr (name p));
     ("category", VStr (category p));
     ("latitude", VFloat (latitude p));
     ("longitude", VFloat (longitude p));
     ("address", opt_value VStr (address p));
     ("distance_meters", opt_value VInt (distance_meters p))].
End POI.

Module LocalDiscoveryRequest.
Record t := {
  latitude : float;
  longitude : float;
  session_id : string;
  listing_index : Z }.
End LocalDiscoveryRequest.

Module LocalDiscoveryResponse.
Record t := { pois : list POI.t; session_id : string; listing_index : Z }.
End LocalDiscoveryResponse.

(** REST models ([main.py]). *)
Module ChatRequest.
Record t := { message : string; session_id : string }.
End ChatRequest.

Module ChatResponse.
Record t := { status : string; data : gmap string Value }.
End ChatResponse.

(** Truthiness of an [Optional[str]] field. *)
Definition truthy_str (o : option string) : bool :=
  match o with Some s => negb (String.eqb s "") | None => false end.

(** ** Correlation tokens

    The fan-out tags the i-th geocoding request with the f-string
    [f"{session_id}__{idx}"]; the geocoding-reply handler tests
    ["__" in session_id], splits with [split("__", 1)] and converts the
    second part with [int]. *)

(** [s.removeprefix]-style test: the rest of [s] after [p] when [s] starts
    with [p]. *)
Fixpoint strip_prefix (p s : string) : option string :=
  match p with
  | EmptyString => Some s
  | String a p' =>
      match s with
      | EmptyString => None
      | String b s' => if Ascii.eqb a b then strip_prefix p' s' else None
      end
  end.

(** The parts of [s] around the first occurrence of [sep], if any. *)
Fixpoint partition_first (sep s : string) : option (string * string) :=
  match strip_prefix sep s with
  | Some rest => Some (EmptyString, rest)
  | None =>
      match s with
      | EmptyString => None
      | String c s' =>
          match partition_first sep s' with
          | Some (before, after) => Some (String c before, after)
          | None => None
          end
      end
  end.

(** [sep in s] *)
Definition py_in (sep s : string) : bool :=
  match partition_first sep s with Some _ => true | None => false end.

(** [s.split(sep, 1)]: a list of one or two strings. *)
Definition py_split1 (sep s : string) : list string :=
  match partition_first sep s with
  | Some (before, after) => [before; after]
  | None => [s]
  end.

Definition is_space (c : ascii) : bool :=
  let n := nat_of_ascii c in
  ((9 <=? n) && (n <=? 13) || (n =? 32))%nat.

Definition digit_value (c : ascii) : option Z :=
  let n := nat_of_ascii c in
  if ((48 <=? n) && (n <=? 57))%nat then Some (Z.of_nat (n - 48)) else None.

Fixpoint lstrip (s : string) : string :=
  match s with
  | String c s' => if is_space c then lstrip s' else s
  | EmptyString => EmptyString
  end.

Fixpoint rstrip (s : string) : string :=
  match s with
  | EmptyString => EmptyString
  | String c s' =>
      match rstrip s' with
      | EmptyString => if is_space c then EmptyString else String c EmptyString
      | r => String c r
      end
  end.

(** Decimal digits with single underscores between digits; [after_digit]
    tells whether the previous character was a digit. *)
Fixpoint int_digits (s : string) (acc : Z) (after_digit : bool) : option Z :=
  match s with
  | EmptyString => if after_digit then Some acc else None
  | String c s' =>
      match digit_value c with
      | Some d => int_digits s' (10 * acc + d) true
      | None =>
          if Ascii.eqb c "_" && after_digit then int_digits s' acc false
          else None
      end
  end.

(** White space above ASCII, as [str.isspace] has it. *)
Definition unicode_space (cp : N) : bool :=
  (existsb (N.eqb cp) [0x85; 0xa0; 0x1680; 0x2028; 0x2029; 0x202f; 0x205f; 0x3000]
   || (0x2000 <=? cp) && (cp <=? 0x200a))%N.

(** The decimal digits above ASCII (category Nd of the Unicode Character
    Database, version 14.0, the one of CPython 3.11): each entry is the
    digit zero of a script, followed by its digits one to nine. *)
Definition decimal_runs : list N :=
  [0x660; 0x6f0; 0x7c0; 0x966; 0x9e6; 0xa66; 0xae6; 0xb66; 0xbe6; 0xc66;
   0xce6; 0xd66; 0xde6; 0xe50; 0xed0; 0xf20; 0x1040; 0x1090; 0x17e0; 0x1810;
   0x1946; 0x19d0; 0x1a80; 0x1a90; 0x1b50; 0x1bb0; 0x1c40; 0x1c50; 0xa620;
   0xa8d0; 0xa900; 0xa9d0; 0xa9f0; 0xaa50; 0xabf0; 0xff10; 0x104a0; 0x10d30;
   0x11066; 0x110f0; 0x11136; 0x111d0; 0x112f0; 0x11450; 0x114d0; 0x11650;
   0x116c0; 0x11730; 0x118e0; 0x11950; 0x11c50; 0x11d50; 0x11da0; 0x16a60;
   0x16ac0; 0x16b50; 0x1d7ce; 0x1d7d8; 0x1d7e2; 0x1d7ec; 0x1d7f6; 0x1e140;
   0x1e2f0; 0x1e950; 0x1fbf0]%N.

(** [unicodedata.decimal] above ASCII. *)
Definition unicode_decimal (cp : N) : option N :=
  (fun zero => (cp - zero)%N)
    <$> List.find (fun zero => (zero <=? cp) && (cp <? zero + 10))%N decimal_runs.

(** What [int] reads a character from 127 on as: a blank for white space,
    the ASCII digit for a decimal digit, and ["?"] for everything else. *)
Definition to_ascii (cp : N) : ascii :=
  if unicode_space cp then " "%char
  else match unicode_decimal cp with
       | Some d => ascii_of_N (48 + d)
       | None => "?"%char
       end.

(** A [str] is held as its UTF-8 bytes.  The state of the decoder: how many
    continuation bytes the current character still takes, the bits read so
    far, and the least code point that takes that many bytes. *)
Record Utf8 := { pending : nat; bits : N; least : N }.

Definition utf8_start : Utf8 := {| pending := 0; bits := 0; least := 0 |}.

(** The first byte of a character: a character below 127 stays as it is. *)
Definition first_byte (c : ascii) : string * Utf8 :=
  let n := N_of_ascii c in
  if (n <? 128)%N then
    (String (if (n <? 127)%N then c else to_ascii n) "", utf8_start)
  else if (192 <=? n)%N && (n <? 224)%N then
    ("", {| pending := 1; bits := n - 192; least := 0x80 |})
  else if (224 <=? n)%N && (n <? 240)%N then
    ("", {| pending := 2; bits := n - 224; least := 0x800 |})
  else if (240 <=? n)%N && (n <? 248)%N then
    ("", {| pending := 3; bits := n - 240; least := 0x10000 |})
  else ("?", utf8_start).

(** One more byte: what is written for it and the next state.  Bytes that
    are not the UTF-8 of any [str] are written as ["?"]. *)
Definition next_byte (st : Utf8) (c : ascii) : string * Utf8 :=
  let n := N_of_ascii c in
  match pending st with
  | O => first_byte c
  | S k =>
      if (128 <=? n)%N && (n <? 192)%N then
        let cp := (bits st * 64 + (n - 128))%N in
        match k with
        | O => (String (if (least st <=? cp)%N then to_ascii cp else "?"%char) "",
                utf8_start)
        | S _ => ("", {| pending := k; bits := cp; least := least st |})
        end
      else let '(out, st') := first_byte c in ("?" +:+ out, st')
  end.

(** The string [int] parses in place of its argument: every character
    above ASCII replaced as [to_ascii] tells. *)
Fixpoint ascii_from (st : Utf8) (s : string) : string :=
  match s with
  | EmptyString => match pending st with O => "" | S _ => "?" end
  | String c s' => let '(out, st') := next_byte st c in out +:+ ascii_from st' s'
  end.

(** [int(s)] for a string argument, base 10.  The interpreter first
    replaces the characters above ASCII (white space by a blank, a decimal
    digit of any script by its ASCII digit, anything else by a character
    that is no part of a number), then reads surrounding C white space, an
    optional sign, and digits with optional single underscores between
    them.  [None] is [ValueError].  (The interpreter's configurable bound on
    the number of digits is not modelled: a token is read whatever its
    length.) *)
Definition py_int (s : string) : option Z :=
  match rstrip (lstrip (ascii_from utf8_start s)) with
  | String "+" r => int_digits r 0 false
  | String "-" r => Z.opp <$> int_digits r 0 false
  | r => int_digits r 0 false
  end.

(** [str(n)] for a non-negative [int]. *)
Definition py_str_nat (n : nat) : string :=
  NilEmpty.string_of_uint (Nat.to_uint n).

(** [f"{session_id}__{idx}"] *)
Definition composite_id (session_id : string) (idx : nat) : string :=
  session_id +:+ "__" +:+ py_str_nat idx.

(** What the head of [handle_mapbox] makes of a reply's [session_id]. *)
Inductive Token :=
| Plain                                   (* no "__": legacy single result *)
| Composite (base : string) (idx : Z)
| Malformed.                              (* int() raises ValueError *)

Definition parse_session_id (session_id : string) : Token :=
  if py_in "__" session_id then
    match py_split1 "__" session_id with
    | [base_session_id; idx_str] =>
        match py_int idx_str with
        | Some idx => Composite base_session_id idx
        | None => Malformed
        end
    | _ => Malformed
    end
  else Plain.

(** ** Session store ([sessions = {}] of [main.py]) *)

(** One element of [sessions[sid]["geocoded_results"]]. *)
Module GeocodedResult.
Record t := { index : Z; latitude : float; longitude : float; address : string }.
End GeocodedResult.

(** One element of [sessions[sid]["poi_results"]]; [pois] holds the
    [poi.dict()] of every point of interest of the reply. *)
Module PoiResult.
Record t := { listing_index : Z; pois : list (gmap string Value) }.
End PoiResult.

Record Session := {
  scoping : option ScopingResponse.t;
  research : option ResearchResponse.t;
  geocoded_results : option (list GeocodedResult.t);
  geocoding_count : option Z;
  poi_results : option (list PoiResult.t);
  poi_count : option Z;
  general : option GeneralResponse.t;
  mapbox : option MapboxResponse.t }.

(** [{}] *)
Definition empty_session : Session :=
  {| scoping := None; research := None; geocoded_results := None;
     geocoding_count := None; poi_results := None; poi_count := None;
     general := None; mapbox := None |}.

Definition set_scoping (v : option ScopingResponse.t) (s : Session) : Session :=
  {| scoping := v; research := research s; geocoded_results := geocoded_results s;
     geocoding_count := geocoding_count s; poi_results := poi_results s;
     poi_count := poi_count s; general := general s; mapbox := mapbox s |}.

Definition set_research (v : option ResearchResponse.t) (s : Session) : Session :=
  {| scoping := scoping s; research := v; geocoded_results := geocoded_results s;
     geocoding_count := geocoding_count s; poi_results := poi_results s;
     poi_count := poi_count s; general := general s; mapbox := mapbox s |}.

Definition set_geocoded_results (v : option (list GeocodedResult.t)) (s : Session) : Session :=
  {| scoping := scoping s; research := research s; geocoded_results := v;
     geocoding_count := geocoding_count s; poi_results := poi_results s;
     poi_count := poi_count s; general := general s; mapbox := mapbox s |}.

Definition set_geocoding_count (v : option Z) (s : Session) : Session :=
  {| scoping := scoping s; research := research s; geocoded_results := geocoded_results s;
     geocoding_count := v; poi_results := poi_results s;
     poi_count := poi_count s; general := general s; mapbox := mapbox s |}.

Definition set_poi_results (v : option (list PoiResult.t)) (s : Session) : Session :=
  {| scoping := scoping s; research := research s; geocoded_results := geocoded_results s;
     geocoding_count := geocoding_count s; poi_results := v;
     poi_count := poi_count s; general := general s; mapbox := mapbox s |}.

Definition set_poi_count (v : option Z) (s : Session) : Session :=
  {| scoping := scoping s; research := research s; geocoded_results := geocoded_results s;
     geocoding_count := geocoding_count s; poi_results := poi_results s;
     poi_count := v; general := general s; mapbox := mapbox s |}.

Definition set_general (v : option GeneralResponse.t) (s : Session) : Session :=
  {| scoping := scoping s; research := research s; geocoded_results := geocoded_results s;
     geocoding_count := geocoding_count s; poi_results := poi_results s;
     poi_count := poi_count s; general := v; mapbox := mapbox s |}.

Definition set_mapbox (v : option MapboxResponse.t) (s : Session) : Session :=
  {| scoping := scoping s; research := research s; geocoded_results := geocoded_results s;
     geocoding_count := geocoding_count s; poi_results := poi_results s;
     poi_count := poi_count s; general := general s; mapbox := v |}.

(** [if sid not in sessions: sessions[sid] = {}] *)
Definition ensure (sid : string) (sessions : gmap string Session) : gmap string Session :=
  match sessions !! sid with
  | Some _ => sessions
  | None => <[sid := empty_session]> sessions
  end.

(** [sessions[sid]] once the key is known to be there. *)
Definition session (sessions : gmap string Session) (sid : string) : Session :=
  default empty_session (sessions !! sid).

(** An in-place update of [sessions[sid]]. *)
Definition modify (sid : string) (f : Session -> Session)
    (sessions : gmap string Session) : gmap string Session :=
  <[sid := f (session sessions sid)]> sessions.

(** [sessions[sid].get("geocoding_count", 0)] and its POI sibling. *)
Definition get_geocoding_count (s : Session) : Z := default 0 (geocoding_count s).
Definition get_poi_count (s : Session) : Z := default 0 (poi_count s).

(** [sessions[sid].get("geocoded_results", [])] and its POI sibling. *)
Definition get_geocoded_results (s : Session) : list GeocodedResult.t :=
  default [] (geocoded_results s).
Definition get_poi_results (s : Session) : list PoiResult.t :=
  default [] (poi_results s).

(** [next((g for g in geocoded_results if g["index"] == idx), None)] and its
    POI sibling of the merge loop: the entries are the coordinator's own. *)
Definition find_geocoded (idx : Z) (l : list GeocodedResult.t) : option GeocodedResult.t :=
  List.find (fun g => Z.eqb (GeocodedResult.index g) idx) l.

Definition find_poi (idx : Z) (l : list PoiResult.t) : option PoiResult.t :=
  List.find (fun p => Z.eqb (PoiResult.listing_index p) idx) l.

(** ** Messages on the wire *)

(** What the coordinator sends ([ctx.send]); the constructor names the
    destination worker. *)
Inductive Outgoing :=
| ToScoping (m : ScopingRequest.t)
| ToResearch (m : ResearchRequest.t)
| ToGeneral (m : GeneralRequest.t)
| ToMapbox (m : MapboxRequest.t)
| ToLocalDiscovery (m : LocalDiscoveryRequest.t).

(** What the coordinator receives ([on_message]). *)
Inductive Incoming :=
| FromScoping (m : ScopingResponse.t)
| FromResearch (m : ResearchResponse.t)
| FromMapbox (m : MapboxResponse.t)
| FromLocalDiscovery (m : LocalDiscoveryResponse.t)
| FromGeneral (m : GeneralResponse.t).

(** ** The geocoding worker's reply ([agents/mapbox_agent.py]) *)

(** The dict [geocode_address] returns. *)
Inductive GeocodeResult :=
| GeocodeError (error : string)
| GeocodeFound (latitude longitude : float) (full_address : string).

(** The one [MapboxResponse] that [handle_geocode_request] sends back. *)
Definition handle_geocode_request (msg : MapboxRequest.t) (result : GeocodeResult)
    : MapboxResponse.t :=
  match result with
  | GeocodeError e =>
      {| MapboxResponse.address := MapboxRequest.address msg;
         MapboxResponse.latitude := 0%float;
         MapboxResponse.longitude := 0%float;
         MapboxResponse.session_id := MapboxRequest.session_id msg;
         MapboxResponse.error := Some e;
         MapboxResponse.image_url := None |}
  | GeocodeFound lat lon full_address =>
      {| MapboxResponse.address := full_address;
         MapboxResponse.latitude := lat;
         MapboxResponse.longitude := lon;
         MapboxResponse.session_id := MapboxRequest.session_id msg;
         MapboxResponse.error := None;
         MapboxResponse.image_url := None |}
  end.

(** ** Reply handlers of the coordinator *)

Definition handle_scoping (msg : ScopingResponse.t) (sessions : gmap string Session)
    : gmap string Session * list Outgoing :=
  let sid := ScopingResponse.session_id msg in
  let sessions := ensure sid sessions in
  let sessions := modify sid (set_scoping (Some msg)) sessions in
  if ScopingResponse.is_general_question msg && truthy_str (ScopingResponse.general_question msg)
  then
    (sessions,
     [ToGeneral {| GeneralRequest.question := default "" (ScopingResponse.general_question msg);
                   GeneralRequest.session_id := sid |}])
  else
    match ScopingResponse.is_complete msg, ScopingResponse.requirements msg with
    | true, Some requirements =>
        (sessions,
         [ToResearch {| ResearchRequest.requirements := requirements;
                        ResearchRequest.session_id := sid |}])
    | _, _ => (sessions, [])
    end.

Definition handle_general (msg : GeneralResponse.t) (sessions : gmap string Session)
    : gmap string Session * list Outgoing :=
  let sid := GeneralResponse.session_id msg in
  let sessions := ensure sid sessions in
  (modify sid (set_general (Some msg)) sessions, []).

Definition handle_local_discovery (msg : LocalDiscoveryResponse.t)
    (sessions : gmap string Session) : gmap string Session * list Outgoing :=
  let sid := LocalDiscoveryResponse.session_id msg in
  let sessions := ensure sid sessions in
  let sessions :=
    match poi_results (session sessions sid) with
    | None => modify sid (set_poi_results (Some [])) sessions
    | Some _ => sessions
    end in
  let sessions :=
    modify sid (fun s =>
      set_poi_results
        (Some (get_poi_results s ++
               [{| PoiResult.listing_index := LocalDiscoveryResponse.listing_index msg;
                   PoiResult.pois := POI.dict <$> LocalDiscoveryResponse.pois msg |}])) s)
      sessions in
  (modify sid (fun s => set_poi_count (Some (get_poi_count s + 1)) s) sessions, []).

Definition handle_mapbox (msg : MapboxResponse.t) (sessions : gmap string Session)
    : gmap string Session * list Outgoing :=
  match parse_session_id (MapboxResponse.session_id msg) with
  | Composite base_session_id idx =>
      let sessions := ensure base_session_id sessions in
      let sessions :=
        match geocoded_results (session sessions base_session_id) with
        | None => modify base_session_id (set_geocoded_results (Some [])) sessions
        | Some _ => sessions
        end in
      let '(sessions, sent) :=
        if negb (truthy_str (MapboxResponse.error msg)) then
          (modify base_session_id (fun s =>
             set_geocoded_results
               (Some (get_geocoded_results s ++
                      [{| GeocodedResult.index := idx;
                          GeocodedResult.latitude := MapboxResponse.latitude msg;
                          GeocodedResult.longitude := MapboxResponse.longitude msg;
                          GeocodedResult.address := MapboxResponse.address msg |}])) s)
             sessions,
           [ToLocalDiscovery
              {| LocalDiscoveryRequest.latitude := MapboxResponse.latitude msg;
                 LocalDiscoveryRequest.longitude := MapboxResponse.longitude msg;
                 LocalDiscoveryRequest.session_id := base_session_id;
                 LocalDiscoveryRequest.listing_index := idx |}])
        else (sessions, []) in
      (modify base_session_id
         (fun s => set_geocoding_count (Some (get_geocoding_count s + 1)) s) sessions,
       sent)
  | Malformed =>
      (* int(idx_str) raises before anything is written *)
      (sessions, [])
  | Plain =>
      let sid := MapboxResponse.session_id msg in
      let sessions := ensure sid sessions in
      (modify sid (set_mapbox (Some msg)) sessions, [])
  end.

(** ** Exceptions of [handle_chat]

    The body of [handle_chat] runs inside [try: ... except Exception], which
    answers [status="error"] with [str(e)] as the message. *)
Inductive Exn :=
| KeyError (key : string)
    (* a subscript on a dict that lacks the key: sessions[sid]["scoping"],
       img["index"] and image_data["image_url"] in the merge,
       enhanced_results[0]["longitude"] *)
| NoneNotSubscriptable
    (* research_msg.raw_search_results[:5] when raw_search_results is None *)
| TitleNotSubscriptable (title : Value).
    (* result.get('title', 'No title')[:50] in the summary log line *)

(** Whether [v[:50]] evaluates: strings and lists can be sliced. *)
Definition sliceable (v : Value) : bool :=
  match v with
  | VStr _ | VList _ => true
  | _ => false
  end.

(** [next((img for img in result_images if img["index"] == idx), None)]:
    the entries come from the research worker as plain dicts, and the
    generator subscripts each entry it gets to; it stops at the first
    match. *)
Fixpoint find_image (idx : Z) (result_images : list (gmap string Value))
    : Exn + option (gmap string Value) :=
  match result_images with
  | [] => inr None
  | img :: rest =>
      match img !! "index" with
      | None => inl (KeyError "index")
      | Some index => if eq_int index idx then inr (Some img) else find_image idx rest
      end
  end.

(** The state of one [handle_chat] call: the store, everything the
    coordinator has sent so far, and the batches of replies its handlers
    will process during the coming suspensions. *)
Record Run := {
  sessions : gmap string Session;
  outbox : list Outgoing;
  inbox : list (list Incoming) }.

Definition with_sessions (f : gmap string Session -> gmap string Session) (r : Run) : Run :=
  {| sessions := f (sessions r); outbox := outbox r; inbox := inbox r |}.

(** [ctx.send(...)] from [handle_chat]: the message is on its way. *)
Definition send (m : Outgoing) (r : Run) : Run :=
  {| sessions := sessions r; outbox := outbox r ++ [m]; inbox := inbox r |}.

Section Coordinator.

(** Behaviour of the libraries the coordinator runs on, kept abstract:
    - [str_field v] is what the message base class makes of an arbitrary
      value passed for a field declared [str] ([None]: it raises a
      validation error);
    - [str_exn e] is the interpreter's [str(e)]. *)
Variable str_field : Value -> option string.
Variable str_exn : Exn -> string.

(** The loop of [handle_research]: [enumerate(results_to_geocode)] from
    index [idx] on.  A validation error ends the handler; what was sent
    before stays sent. *)
Fixpoint geocode_requests (session_id : string) (idx : nat)
    (results_to_geocode : list (gmap string Value)) : list Outgoing :=
  match results_to_geocode with
  | [] => []
  | result :: rest =>
      let address := dict_get result "title" (VStr "") in
      if truthy address then
        match str_field address with
        | Some a =>
            ToMapbox {| MapboxRequest.address := a;
                        MapboxRequest.session_id := composite_id session_id idx |}
              :: geocode_requests session_id (S idx) rest
        | None => []
        end
      else geocode_requests session_id (S idx) rest
  end.

Definition handle_research (msg : ResearchResponse.t) (sessions : gmap string Session)
    : gmap string Session * list Outgoing :=
  let sid := ResearchResponse.session_id msg in
  let sessions := ensure sid sessions in
  let sessions := modify sid (set_research (Some msg)) sessions in
  let sessions := modify sid (set_geocoded_results (Some [])) sessions in
  let sessions := modify sid (set_geocoding_count (Some 0)) sessions in
  let sessions := modify sid (set_poi_results (Some [])) sessions in
  let sessions := modify sid (set_poi_count (Some 0)) sessions in
  match ResearchResponse.raw_search_results msg with
  | Some ((_ :: _) as raw_search_results) =>
      let results_to_geocode := take 5 raw_search_results in
      (sessions, geocode_requests sid 0 results_to_geocode)
  | _ => (sessions, [])
  end.

(** The agent's dispatch on the model of the incoming message. *)
Definition dispatch (m : Incoming) (sessions : gmap string Session)
    : gmap string Session * list Outgoing :=
  match m with
  | FromScoping msg => handle_scoping msg sessions
  | FromResearch msg => handle_research msg sessions
  | FromMapbox msg => handle_mapbox msg sessions
  | FromLocalDiscovery msg => handle_local_discovery msg sessions
  | FromGeneral msg => handle_general msg sessions
  end.

(** The handlers run on a batch of replies, one after the other. *)
Fixpoint deliver (batch : list Incoming) (sessions : gmap string Session)
    : gmap string Session * list Outgoing :=
  match batch with
  | [] => (sessions, [])
  | m :: rest =>
      let '(sessions1, sent1) := dispatch m sessions in
      let '(sessions2, sent2) := deliver rest sessions1 in
      (sessions2, sent1 ++ sent2)
  end.

(** A suspension of [handle_chat] ([await asyncio.sleep(0.5)], or the
    [await] of its [ctx.send]): the next batch of the inbox is processed. *)
Definition sleep (r : Run) : Run :=
  match inbox r with
  | [] => r
  | batch :: rest =>
      let '(sessions', sent) := deliver batch (sessions r) in
      {| sessions := sessions'; outbox := outbox r ++ sent; inbox := rest |}
  end.

(** [for _ in range(n): if ready: break; await asyncio.sleep(0.5)].  The
    flag tells whether the loop ended in [break] (so [false] is the [else]
    branch of the [for]). *)
Fixpoint poll (n : nat) (ready : Run -> bool) (r : Run) : bool * Run :=
  match n with
  | O => (false, r)
  | S n' => if ready r then (true, r) else poll n' ready (sleep r)
  end.

Definition has_scoping (sid : string) (r : Run) : bool :=
  bool_decide (is_Some (scoping (session (sessions r) sid))).
Definition has_general (sid : string) (r : Run) : bool :=
  bool_decide (is_Some (general (session (sessions r) sid))).
Definition has_research (sid : string) (r : Run) : bool :=
  bool_decide (is_Some (research (session (sessions r) sid))).

(** [min(len(research_msg.raw_search_results), 5)] *)
Definition results_count (raw_search_results : list (gmap string Value)) : Z :=
  Z.min (Z.of_nat (length raw_search_results)) 5.

Definition geocoding_done (sid : string) (results_count : Z) (r : Run) : bool :=
  Z.leb results_count (get_geocoding_count (session (sessions r) sid)).
Definition poi_done (sid : string) (results_count : Z) (r : Run) : bool :=
  Z.leb results_count (get_poi_count (session (sessions r) sid)).

(** One turn of the merge loop: [enhanced_result] for the hit at [idx], or
    the exception of its image lookup. *)
Definition enhance (geocoded_results : list GeocodedResult.t)
    (result_images : list (gmap string Value)) (poi_results : list PoiResult.t)
    (idx : nat) (result : gmap string Value) : Exn + gmap string Value :=
  let enhanced_result := result in
  let enhanced_result :=
    match find_geocoded (Z.of_nat idx) geocoded_results with
    | Some geocoded =>
        <["address" := VStr (GeocodedResult.address geocoded)]>
          (<["longitude" := VFloat (GeocodedResult.longitude geocoded)]>
             (<["latitude" := VFloat (GeocodedResult.latitude geocoded)]> enhanced_result))
    | None => enhanced_result
    end in
  match find_image (Z.of_nat idx) result_images with
  | inl e => inl e
  | inr image_data =>
      match
        match image_data with
        | Some image_data =>
            if truthy (VDict image_data) then
              match image_data !! "image_url" with
              | Some image_url => inr (<["image_url" := image_url]> enhanced_result)
              | None => inl (KeyError "image_url")
              end
            else inr enhanced_result
        | None => inr enhanced_result
        end
      with
      | inl e => inl e
      | inr enhanced_result =>
          inr match find_poi (Z.of_nat idx) poi_results with
              | Some poi_data =>
                  <["pois" := VList (VDict <$> PoiResult.pois poi_data)]> enhanced_result
              | None => <["pois" := VList []]> enhanced_result
              end
      end
  end.

(** The merge loop, [enumerate] counting from [idx]: the first turn that
    raises ends it. *)
Fixpoint enhance_results (geocoded_results : list GeocodedResult.t)
    (result_images : list (gmap string Value)) (poi_results : list PoiResult.t)
    (idx : nat) (results : list (gmap string Value))
    : Exn + list (gmap string Value) :=
  match results with
  | [] => inr []
  | result :: rest =>
      match enhance geocoded_results result_images poi_results idx result with
      | inl e => inl e
      | inr enhanced_result =>
          match enhance_results geocoded_results result_images poi_results (S idx) rest with
          | inl e => inl e
          | inr enhanced_results => inr (enhanced_result :: enhanced_results)
          end
      end
  end.

(** The summary log loop slices every title; the first value that cannot be
    sliced raises. *)
Fixpoint log_results (enhanced_results : list (gmap string Value)) : option Exn :=
  match enhanced_results with
  | [] => None
  | result :: rest =>
      let title := dict_get result "title" (VStr "No title") in
      if sliceable title then log_results rest else Some (TitleNotSubscriptable title)
  end.

(** [top_result_coords] *)
Definition top_result_coordinates (enhanced_results : list (gmap string Value))
    : Exn + Value :=
  match enhanced_results with
  | first :: _ =>
      if dict_has first "latitude" then
        match first !! "latitude", first !! "longitude" with
        | Some lat, Some lon =>
            inr (VDict (list_to_map
              [("latitude", lat);
               ("longitude", lon);
               ("address", dict_get first "address" (dict_get first "title" (VStr "")));
               ("image_url", dict_get first "image_url" VNone)]))
        | None, _ => inl (KeyError "latitude")
        | _, None => inl (KeyError "longitude")
        end
      else inr VNone
  | [] => inr VNone
  end.

(** The merge of [handle_chat], from [enhanced_results = []] to the
    response payload's two merged entries. *)
Definition merge (research_msg : ResearchResponse.t) (s : Session)
    : Exn + (list (gmap string Value) * Value) :=
  let geocoded_results := get_geocoded_results s in
  let result_images := default [] (ResearchResponse.result_images research_msg) in
  let poi_results := get_poi_results s in
  match ResearchResponse.raw_search_results research_msg with
  | None => inl NoneNotSubscriptable
  | Some raw_search_results =>
      match enhance_results geocoded_results result_images poi_results 0
              (take 5 raw_search_results) with
      | inl e => inl e
      | inr enhanced_results =>
          match log_results enhanced_results with
          | Some e => inl e
          | None =>
              match top_result_coordinates enhanced_results with
              | inl e => inl e
              | inr top_result_coords => inr (enhanced_results, top_result_coords)
              end
          end
      end
  end.

Definition error_response (message : string) : ChatResponse.t :=
  {| ChatResponse.status := "error";
     ChatResponse.data := {[ "message" := VStr message ]} |}.

Definition conversation_response (requirements : gmap string Value) (summary : string)
    : ChatResponse.t :=
  {| ChatResponse.status := "success";
     ChatResponse.data :=
       list_to_map
         [("requirements", VDict requirements);
          ("properties", VList []);
          ("search_summary", VStr summary);
          ("total_found", VInt 0)] |}.

Definition search_response (requirements : UserRequirements.t)
    (research_msg : ResearchResponse.t) (top_result_coords : Value)
    (enhanced_results : list (gmap string Value)) : ChatResponse.t :=
  {| ChatResponse.status := "success";
     ChatResponse.data :=
       list_to_map
         [("requirements", VDict (UserRequirements.dict requirements));
          ("properties",
           VList ((fun p => VDict (PropertyListing.dict p))
                    <$> ResearchResponse.properties research_msg));
          ("search_summary", VStr (ResearchResponse.search_summary research_msg));
          ("total_found", VInt (ResearchResponse.total_found research_msg));
          ("top_result_coordinates", top_result_coords);
          ("raw_search_results", VList (VDict <$> enhanced_results))] |}.

(** The start of [handle_chat]: the session is created if needed, the old
    [scoping] and [research] entries are popped, and the message goes to the
    scoping agent. *)
Definition begin_chat (req : ChatRequest.t) (r : Run) : Run :=
  let sid := ChatRequest.session_id req in
  let r := with_sessions (ensure sid) r in
  let r := with_sessions (modify sid (set_scoping None)) r in
  let r := with_sessions (modify sid (set_research None)) r in
  send (ToScoping {| ScopingRequest.user_message := ChatRequest.message req;
                     ScopingRequest.session_id := sid |}) r.

(** The general-question branch: [Some] response when it returns. *)
Definition general_stage (sid : string) (scoping_msg : ScopingResponse.t) (r : Run)
    : option ChatResponse.t * Run :=
  if ScopingResponse.is_general_question scoping_msg then
    let r := snd (poll 60 (has_general sid) r) in
    match general (session (sessions r) sid) with
    | Some general_msg =>
        (Some (conversation_response ∅ (GeneralResponse.answer general_msg)), r)
    | None => (None, r)
    end
  else (None, r).

(** The two fan-out waits. *)
Definition await_fanout (sid : string) (research_msg : ResearchResponse.t) (r : Run) : Run :=
  match ResearchResponse.raw_search_results research_msg with
  | Some ((_ :: _) as raw_search_results) =>
      let results_count := results_count raw_search_results in
      let r := snd (poll 30 (geocoding_done sid results_count) r) in
      snd (poll 40 (poi_done sid results_count) r)
  | _ => r
  end.

(** The wait for the research reply. *)
Definition await_research (sid : string) (r : Run) : Run :=
  snd (poll 60 (has_research sid) r).

(** The property-search branch: [Some] response when it returns. *)
Definition research_stage (sid : string) (scoping_msg : ScopingResponse.t) (r : Run)
    : option ChatResponse.t * Run :=
  match ScopingResponse.is_complete scoping_msg, ScopingResponse.requirements scoping_msg with
  | true, Some requirements =>
      let r := await_research sid r in
      match research (session (sessions r) sid) with
      | Some research_msg =>
          let r := await_fanout sid research_msg r in
          match merge research_msg (session (sessions r) sid) with
          | inl e => (Some (error_response (str_exn e)), r)
          | inr (enhanced_results, top_result_coords) =>
              (Some (search_response requirements research_msg
                       top_result_coords enhanced_results), r)
          end
      | None => (None, r)
      end
  | _, _ => (None, r)
  end.

(** What is left when neither branch returned. *)
Definition fallback_response (scoping_msg : ScopingResponse.t) : ChatResponse.t :=
  match ScopingResponse.is_complete scoping_msg, ScopingResponse.requirements scoping_msg with
  | true, Some _ => error_response "Research agent did not respond in time"
  | _, Some requirements =>
      conversation_response (UserRequirements.dict requirements)
        (ScopingResponse.agent_message scoping_msg)
  | _, None => conversation_response ∅ (ScopingResponse.agent_message scoping_msg)
  end.

(** The first wait of [handle_chat], from its first line on.  The call
    suspends a first time in [await ctx.send(...)], then up to sixty times
    in the wait loop. *)
Definition await_scoping (req : ChatRequest.t) (r : Run) : bool * Run :=
  poll 60 (has_scoping (ChatRequest.session_id req)) (sleep (begin_chat req r)).

(** [POST /api/chat] *)
Definition handle_chat (req : ChatRequest.t) (r : Run) : ChatResponse.t * Run :=
  let sid := ChatRequest.session_id req in
  match await_scoping req r with
  | (false, r) => (error_response "Timeout waiting for scoping agent", r)
  | (true, r) =>
      match scoping (session (sessions r) sid) with
      | None => (error_response (str_exn (KeyError "scoping")), r)
      | Some scoping_msg =>
          match general_stage sid scoping_msg r with
          | (Some response, r) => (response, r)
          | (None, r) =>
              match research_stage sid scoping_msg r with
              | (Some response, r) => (response, r)
              | (None, r) => (fallback_response scoping_msg, r)
              end
          end
      end
  end.

(** What the handlers send in reaction to one reply (it does not depend on
    the store), and [k] suspensions in a row. *)
Definition reaction (m : Incoming) : list Outgoing := snd (dispatch m ∅).

Fixpoint sleepn (k : nat) (r : Run) : Run :=
  match k with
  | O => r
  | S k' => sleepn k' (sleep r)
  end.

End Coordinator.

(** ** Untyped values in the workers

    The workers walk through decoded JSON (the geocoding API's answer, the
    language model's output) with subscripts, [.get] and [len]; on a value
    of the wrong kind each of these raises. *)

Inductive Raised :=
| LibraryError (message : string)
    (* raised inside a library call: the HTTP client, the LLM client, a
       model's validation *)
| NoGet (v : Value)
    (* AttributeError: v.get(...) on a value that is no dict *)
| NoLen (v : Value)
    (* TypeError: len(v) *)
| NoItem (v : Value) (key : Value).
    (* KeyError, IndexError or TypeError: v[key] *)

(** [v[k]] for a string [k].  Only a dict has string keys. *)
Definition getitem_str (v : Value) (k : string) : Raised + Value :=
  match v with
  | VDict d => match d !! k with Some x => inr x | None => inl (NoItem v (VStr k)) end
  | _ => inl (NoItem v (VStr k))
  end.

(** [v.get(k, default)] *)
Definition py_get (v : Value) (k : string) (default : Value) : Raised + Value :=
  match v with
  | VDict d => inr (dict_get d k default)
  | _ => inl (NoGet v)
  end.

(** [len(v) > 0] for a [v] that passed [if v]: the numbers and [True] have
    no length. *)
Definition len_positive (v : Value) : Raised + bool :=
  match v with
  | VStr s => inr (negb (String.eqb s ""))
  | VList l => inr (match l with [] => false | _ :: _ => true end)
  | VDict d => inr (negb (bool_decide (d = ∅)))
  | _ => inl (NoLen v)
  end.

(** [str(n)] for an [int]. *)
Definition py_str_int (n : Z) : string :=
  if n <? 0 then "-" +:+ py_str_nat (Z.to_nat (- n)) else py_str_nat (Z.to_nat n).

(** ** The geocoding worker, from the HTTP exchange on
    ([agents/mapbox_agent.py]) *)

Module MapboxAgent.

(** The exchange with the geocoding API as [geocode_address] meets it: the
    request raised, or a response came, whose body is read as text when the
    status is not 200 and decoded as JSON when it is; either read can
    raise. *)
Inductive Exchange :=
| Failed (e : Raised)
| Answered (status : Z) (text : Raised + string) (json : Raised + Value).

(** The dict [geocode_address] returns: [{"error": ...}] or
    [{"latitude": ..., "longitude": ..., "full_address": ...}]. *)
Inductive Geocoded :=
| Error (error : string)
| Found (latitude longitude full_address : Value).

Section Worker.

(** Kept abstract:
    - [str_raised e] is [str(e)];
    - [str_item s n] is [s[n]] for a [str] ([None]: IndexError);
    - [str_field] and [float_field] are what the message base class makes
      of a value passed for a [str] or a [float] field ([None]: it raises
      a validation error). *)
Variable str_raised : Raised -> string.
Variable str_item : string -> nat -> option string.
Variable str_field : Value -> option string.
Variable float_field : Value -> option float.

(** [v[n]] for the literal indices 0 and 1.  A decoded JSON object has
    string keys only, so an integer is never one of its keys. *)
Definition getitem_nat (v : Value) (n : nat) : Raised + Value :=
  match v with
  | VList l =>
      match l !! n with Some x => inr x | None => inl (NoItem v (VInt (Z.of_nat n))) end
  | VStr s =>
      match str_item s n with
      | Some c => inr (VStr c)
      | None => inl (NoItem v (VInt (Z.of_nat n)))
      end
  | _ => inl (NoItem v (VInt (Z.of_nat n)))
  end.

(** [except Exception as e: return {"error": f"Geocoding failed: {str(e)}"}] *)
Definition failed (e : Raised) : Geocoded :=
  Error ("Geocoding failed: " +:+ str_raised e).

(** The body of the [try] once the JSON is decoded, from
    [if data.get("features") and len(data["features"]) > 0] on. *)
Definition read_features (address : string) (data : Value) : Raised + Geocoded :=
  match py_get data "features" VNone with
  | inl e => inl e
  | inr features =>
      match (if truthy features then len_positive features else inr false) with
      | inl e => inl e
      | inr false => inr (Error "No coordinates found for address")
      | inr true =>
          match getitem_nat features 0 with
          | inl e => inl e
          | inr feature =>
              match getitem_str feature "geometry" with
              | inl e => inl e
              | inr geometry =>
                  match getitem_str geometry "coordinates" with
                  | inl e => inl e
                  | inr coords =>
                      match getitem_nat coords 1 with
                      | inl e => inl e
                      | inr latitude =>
                          match getitem_nat coords 0 with
                          | inl e => inl e
                          | inr longitude =>
                              match getitem_str feature "properties" with
                              | inl e => inl e
                              | inr properties =>
                                  match py_get properties "full_address" (VStr address) with
                                  | inl e => inl e
                                  | inr full_address =>
                                      inr (Found latitude longitude full_address)
                                  end
                              end
                          end
                      end
                  end
              end
          end
      end
  end.

Definition geocode_address (MAPBOX_TOKEN : option string) (exchange : Exchange)
    (address : string) : Geocoded :=
  if negb (truthy_str MAPBOX_TOKEN) then Error "Mapbox token not configured"
  else
    match exchange with
    | Failed e => failed e
    | Answered status text json =>
        if negb (Z.eqb status 200) then
          match text with
          | inl e => failed e
          | inr text => Error ("Mapbox API error " +:+ py_str_int status +:+ ": " +:+ text)
          end
        else
          match json with
          | inl e => failed e
          | inr data =>
              match read_features address data with
              | inl e => failed e
              | inr result => result
              end
          end
    end.

(** The fields of the reply after validation; [None] when the
    [MapboxResponse(...)] call raises. *)
Definition validated (result : Geocoded) : option GeocodeResult :=
  match result with
  | Error error => Some (GeocodeError error)
  | Found latitude longitude full_address =>
      match str_field full_address, float_field latitude, float_field longitude with
      | Some a, Some lat, Some lon => Some (GeocodeFound lat lon a)
      | _, _, _ => None
      end
  end.

(** [handle_geocode_request]: the reply sent back to the sender, if the
    handler gets that far. *)
Definition handle_geocode_request (MAPBOX_TOKEN : option string) (exchange : Exchange)
    (msg : MapboxRequest.t) : option MapboxResponse.t :=
  handle_geocode_request msg
    <$> validated (geocode_address MAPBOX_TOKEN exchange (MapboxRequest.address msg)).

End Worker.
End MapboxAgent.

(** ** The scoping worker, from the language model's answer on
    ([agents/scoping_agent.py]) *)

Module ScopingAgent.

(** One entry of [conversations[session_id]]: [{"role": ..., "content": ...}]. *)
Record Turn := { role : string; content : Value }.

(** What the two calls into the LLM client gave: [query_llm(...)] and, on
    its [content], [parse_json_response(...)]; either can raise. *)
Record Exchange := {
  result : Raised + Value;
  parsed : Raised + Value }.

Section Worker.

(** Kept abstract: what the message base class makes of a value passed for
    a [str], a [bool] or an [Optional[str]] field, and of the keyword
    arguments of [UserRequirements] ([None]: it raises a validation
    error).  A keyword the model does not declare is ignored. *)
Variable str_field : Value -> option string.
Variable bool_field : Value -> option bool.
Variable optional_str_field : Value -> option (option string).
Variable user_requirements : gmap string Value -> option UserRequirements.t.

(** [conversations[sid].append(turn)], the list created when missing. *)
Definition record_turn (sid : string) (turn : Turn)
    (conversations : gmap string (list Turn)) : gmap string (list Turn) :=
  <[sid := default [] (conversations !! sid) ++ [turn]]> conversations.

(** The reply of the two branches that do not use the model's output. *)
Definition canned (agent_message session_id : string) : ScopingResponse.t :=
  {| ScopingResponse.agent_message := agent_message;
     ScopingResponse.is_complete := false;
     ScopingResponse.session_id := session_id;
     ScopingResponse.requirements := None;
     ScopingResponse.is_general_question := false;
     ScopingResponse.general_question := None |}.

(** [UserRequirements] built from the keywords of [parsed["requirements"]],
    which has to be a mapping. *)
Definition build_requirements (parsed : gmap string Value) : option UserRequirements.t :=
  match parsed !! "requirements" with
  | Some (VDict kwargs) => user_requirements kwargs
  | _ => None
  end.

(** The branch [if parsed:], for a [parsed] that is a dict: the assistant's
    turn is recorded first, then the reply is built. *)
Definition reply_from (session_id : string) (parsed : gmap string Value)
    : option ScopingResponse.t :=
  let requirements :=
    if truthy (dict_get parsed "is_complete" (VBool false)) && dict_has parsed "requirements"
    then Some <$> build_requirements parsed
    else Some None in
  match requirements,
        str_field (dict_get parsed "agent_message" (VStr "How can I help you find a home?")),
        bool_field (dict_get parsed "is_complete" (VBool false)),
        bool_field (dict_get parsed "is_general_question" (VBool false)),
        optional_str_field (dict_get parsed "general_question" VNone) with
  | Some requirements, Some agent_message, Some is_complete,
    Some is_general_question, Some general_question =>
      Some {| ScopingResponse.agent_message := agent_message;
              ScopingResponse.is_complete := is_complete;
              ScopingResponse.session_id := session_id;
              ScopingResponse.requirements := requirements;
              ScopingResponse.is_general_question := is_general_question;
              ScopingResponse.general_question := general_question |}
  | _, _, _, _, _ => None
  end.

(** [handle_request]: the conversation store afterwards and the reply sent
    to the sender, [None] when the handler raised before it sent one. *)
Definition handle_request (llm : Exchange) (msg : ScopingRequest.t)
    (conversations : gmap string (list Turn))
    : gmap string (list Turn) * option ScopingResponse.t :=
  let sid := ScopingRequest.session_id msg in
  let conversations :=
    record_turn sid {| role := "user"; content := VStr (ScopingRequest.user_message msg) |}
      conversations in
  match result llm with
  | inl _ => (conversations, None)
  | inr result =>
      match getitem_str result "success" with
      | inl _ => (conversations, None)
      | inr success =>
          if truthy success then
            match getitem_str result "content", parsed llm with
            | inr _, inr parsed =>
                if truthy parsed then
                  match parsed with
                  | VDict parsed =>
                      (record_turn sid
                         {| role := "assistant";
                            content := dict_get parsed "agent_message" (VStr "") |}
                         conversations,
                       reply_from sid parsed)
                  | _ => (conversations, None)
                  end
                else
                  (conversations,
                   Some (canned
                     "I'm here to help you find a home in the Bay Area. What are you looking for?"
                     sid))
            | _, _ => (conversations, None)
            end
          else
            match getitem_str result "content" with
            | inl _ => (conversations, None)
            | inr _ =>
                (conversations,
                 Some (canned
                   "I'm having trouble processing your request. Could you try again?" sid))
            end
      end
  end.

End Worker.
End ScopingAgent.

(** ** Vocabulary of the statements *)

(** [s.endswith(c)] for a single character. *)
Fixpoint ends_with (c : ascii) (s : string) : bool :=
  match s with
  | EmptyString => false
  | String a EmptyString => Ascii.eqb a c
  | String _ s' => ends_with c s'
  end.

Fixpoint all_digits (s : string) : bool :=
  match s with
  | EmptyString => true
  | String c s' => match digit_value c with Some _ => all_digits s' | None => false end
  end.

(** The replies the handlers process during the first [n] suspensions. *)
Definition arrivals (n : nat) (r : Run) : list Incoming := concat (take n (inbox r)).

(** The [title] the fan-out looks at, and the same as text for a hit whose
    title is a string. *)
Definition title (result : gmap string Value) : Value := dict_get result "title" (VStr "").

Definition title_text (result : gmap string Value) : string :=
  match result !! "title" with Some (VStr s) => s | _ => "" end.

Definition mapbox_request (address session_id : string) : Outgoing :=
  ToMapbox {| MapboxRequest.address := address; MapboxRequest.session_id := session_id |}.

(** The entries the two fan-out handlers append. *)
Definition geocoded_entry (idx : Z) (msg : MapboxResponse.t) : GeocodedResult.t :=
  {| GeocodedResult.index := idx;
     GeocodedResult.latitude := MapboxResponse.latitude msg;
     GeocodedResult.longitude := MapboxResponse.longitude msg;
     GeocodedResult.address := MapboxResponse.address msg |}.

Definition poi_entry (msg : LocalDiscoveryResponse.t) : PoiResult.t :=
  {| PoiResult.listing_index := LocalDiscoveryResponse.listing_index msg;
     PoiResult.pois := POI.dict <$> LocalDiscoveryResponse.pois msg |}.

(** Each handler changes one session record only, by a function of the reply
    alone ([dispatch_session] below proves it).  These are those functions. *)
Definition on_research (msg : ResearchResponse.t) (s : Session) : Session :=
  set_poi_count (Some 0) (set_poi_results (Some [])
    (set_geocoding_count (Some 0) (set_geocoded_results (Some [])
      (set_research (Some msg) s)))).

Definition on_geocoded (idx : Z) (msg : MapboxResponse.t) (s : Session) : Session :=
  set_geocoding_count (Some (get_geocoding_count s + 1))
    (set_geocoded_results
       (Some (get_geocoded_results s ++
              if truthy_str (MapboxResponse.error msg) then [] else [geocoded_entry idx msg])) s).

Definition on_local_discovery (msg : LocalDiscoveryResponse.t) (s : Session) : Session :=
  set_poi_count (Some (get_poi_count s + 1))
    (set_poi_results (Some (get_poi_results s ++ [poi_entry msg])) s).

(** The session a reply is filed under and what it does to that session's
    record; [None] when the reply is dropped. *)
Definition effect (m : Incoming) : option (string * (Session -> Session)) :=
  match m with
  | FromScoping msg => Some (ScopingResponse.session_id msg, set_scoping (Some msg))
  | FromResearch msg => Some (ResearchResponse.session_id msg, on_research msg)
  | FromMapbox msg =>
      match parse_session_id (MapboxResponse.session_id msg) with
      | Composite base idx => Some (base, on_geocoded idx msg)
      | Plain => Some (MapboxResponse.session_id msg, set_mapbox (Some msg))
      | Malformed => None
      end
  | FromLocalDiscovery msg =>
      Some (LocalDiscoveryResponse.session_id msg, on_local_discovery msg)
  | FromGeneral msg => Some (GeneralResponse.session_id msg, set_general (Some msg))
  end.

Definition apply_effect (e : option (string * (Session -> Session))) (sid : string)
    (s : Session) : Session :=
  match e with
  | Some (k, f) => if decide (k = sid) then f s else s
  | None => s
  end.

(** What the coordinator sends in reaction to a scoping or geocoding reply. *)
Definition scoping_reaction (msg : ScopingResponse.t) : list Outgoing :=
  snd (handle_scoping msg ∅).
Definition mapbox_reaction (msg : MapboxResponse.t) : list Outgoing :=
  snd (handle_mapbox msg ∅).

(** The image lookup of the merge turn for index [idx] raises: an image
    entry without ["index"] comes before any entry for [idx], or the first
    entry for [idx] has no ["image_url"]. *)
Definition image_lookup_raises (idx : nat) (result_images : list (gmap string Value))
    : Prop :=
  match find_image (Z.of_nat idx) result_images with
  | inl _ => True
  | inr (Some image_data) => image_data !! "image_url" = None
  | inr None => False
  end.

(** What a completed merge turn for index [idx] leaves as [image_url] of the
    merged hit [e] of the hit [result]. *)
Definition image_merged (idx : nat) (result_images : list (gmap string Value))
    (result e : gmap string Value) : Prop :=
  match find_image (Z.of_nat idx) result_images with
  | inr (Some image_data) =>
      exists image_url,
        image_data !! "image_url" = Some image_url /\ e !! "image_url" = Some image_url
  | inr None => e !! "image_url" = result !! "image_url"
  | inl _ => False
  end.

(** The merged entry of a hit that got neither a coordinate nor a list of
    points of interest. *)
Definition passed_through (result_images : list (gmap string Value)) (idx : nat)
    (result : gmap string Value) : gmap string Value :=
  <["pois" := VList []]>
    (match find_image (Z.of_nat idx) result_images with
     | inr (Some image_data) =>
         match image_data !! "image_url" with
         | Some image_url => <["image_url" := image_url]> result
         | None => result
         end
     | _ => result
     end).

(** Until a geocoding or POI reply for the session is processed, a session
    that holds a research reply holds two empty result lists. *)
Definition fresh_fanout (s : Session) : Prop :=
  research s = None \/ (get_geocoded_results s = [] /\ get_poi_results s = []).

(** The message [handle_chat] sends itself. *)
Definition scoping_request (req : ChatRequest.t) : Outgoing :=
  ToScoping {| ScopingRequest.user_message := ChatRequest.message req;
               ScopingRequest.session_id := ChatRequest.session_id req |}.

(** The session a reply is filed under, if it is filed at all. *)
Definition filed_under (m : Incoming) : option string := fst <$> effect m.


(** The five keys the merge of [handle_chat] writes. *)
Definition merged_key (k : string) : Prop :=
  k = "latitude" \/ k = "longitude" \/ k = "address" \/ k = "image_url" \/ k = "pois".

(** The two shapes of a [ChatResponse]: an error with its message, or a
    success with the four entries every success carries, to which a search
    adds the merged hits (objects, at most five) and the top coordinates. *)
Definition response_shape (response : ChatResponse.t) : Prop :=
  let data := ChatResponse.data response in
  (ChatResponse.status response = "error" /\
   exists message, data = {[ "message" := VStr message ]}) \/
  (ChatResponse.status response = "success" /\
   (exists requirements properties summary total,
      data !! "requirements" = Some (VDict requirements) /\
      data !! "properties" = Some (VList properties) /\
      data !! "search_summary" = Some (VStr summary) /\
      data !! "total_found" = Some (VInt total)) /\
   ((data !! "raw_search_results" = None /\ data !! "top_result_coordinates" = None) \/
    (exists enhanced_results top,
       data !! "raw_search_results" = Some (VList (VDict <$> enhanced_results)) /\
       (length enhanced_results <= 5)%nat /\
       data !! "top_result_coordinates" = Some top))).

(** Two session records that differ at most in the legacy [mapbox] entry,
    and two runs that differ at most there. *)
Definition same_but_mapbox (s s' : Session) : Prop :=
  set_mapbox None s = set_mapbox None s'.

Definition same_run_but_mapbox (r r' : Run) : Prop :=
  outbox r = outbox r' /\ inbox r = inbox r' /\
  forall sid, same_but_mapbox (session (sessions r) sid) (session (sessions r') sid).

(** ** Example inputs *)

(** An instance of the two library behaviours, to run the model: strict
    validation of [str] fields, and a fixed rendering of exceptions. *)
Definition example_str_field (v : Value) : option string :=
  match v with VStr s => Some s | _ => None end.

Definition example_str_exn (e : Exn) : string :=
  match e with
  | KeyError key => key
  | NoneNotSubscriptable => "'NoneType' object is not subscriptable"
  | TitleNotSubscriptable _ => "object is not subscriptable"
  end.

Definition ex_request : ChatRequest.t :=
  {| ChatRequest.message := "2 bedrooms in Oakland under 900k";
     ChatRequest.session_id := "s1" |}.

Definition ex_requirements : UserRequirements.t :=
  {| UserRequirements.budget_min := None;
     UserRequirements.budget_max := Some 900000;
     UserRequirements.bedrooms := Some 2;
     UserRequirements.bathrooms := None;
     UserRequirements.location := "Oakland";
     UserRequirements.additional_info := None |}.

(** A classification as a complete property search, for session [sid]. *)
Definition ex_search_scoping (sid : string) : ScopingResponse.t :=
  {| ScopingResponse.agent_message := "Searching Oakland for you.";
     ScopingResponse.is_complete := true;
     ScopingResponse.session_id := sid;
     ScopingResponse.requirements := Some ex_requirements;
     ScopingResponse.is_general_question := false;
     ScopingResponse.general_question := None |}.

(** A classification that marks the search complete, with requirements, and
    is flagged as a general question as well. *)
Definition ex_complete_general_scoping : ScopingResponse.t :=
  {| ScopingResponse.agent_message := "Searching Oakland for you.";
     ScopingResponse.is_complete := true;
     ScopingResponse.session_id := "s1";
     ScopingResponse.requirements := Some ex_requirements;
     ScopingResponse.is_general_question := true;
     ScopingResponse.general_question := Some "How are the schools in Oakland?" |}.

(** A classification as a general question. *)
Definition ex_general_scoping : ScopingResponse.t :=
  {| ScopingResponse.agent_message := "I'll look that up for you.";
     ScopingResponse.is_complete := false;
     ScopingResponse.session_id := "s1";
     ScopingResponse.requirements := None;
     ScopingResponse.is_general_question := true;
     ScopingResponse.general_question := Some "How are the schools in Oakland?" |}.

Definition ex_hit (t : string) : gmap string Value :=
  <["link" := VStr "https://listings.example/1"]> {[ "title" := VStr t ]}.

Definition ex_untitled_hit : gmap string Value :=
  {[ "link" := VStr "https://listings.example/2" ]}.

Definition ex_research (cands : list (gmap string Value))
    (images : option (list (gmap string Value))) : ResearchResponse.t :=
  {| ResearchResponse.properties := [];
     ResearchResponse.search_summary := "Listings in Oakland";
     ResearchResponse.total_found := Z.of_nat (length cands);
     ResearchResponse.session_id := "s1";
     ResearchResponse.raw_search_results := Some cands;
     ResearchResponse.top_result_image_url := None;
     ResearchResponse.result_images := images |}.

Definition ex_three_hits : list (gmap string Value) :=
  [ex_hit "12 Oak St"; ex_hit "7 Pine Ave"; ex_hit "301 Lake Dr"].

Definition ex_eight_hits : list (gmap string Value) :=
  [ex_hit "1 A St"; ex_hit "2 B St"; ex_hit "3 C St"; ex_hit "4 D St";
   ex_hit "5 E St"; ex_hit "6 F St"; ex_hit "7 G St"; ex_hit "8 H St"].

(** A run that starts from an empty store. *)
Definition ex_run (inbox : list (list Incoming)) : Run :=
  {| sessions := ∅; outbox := []; inbox := inbox |}.

(** The geocoding worker's answers to the request for index [i]. *)
Definition ex_geocoded (i : nat) : MapboxResponse.t :=
  handle_geocode_request
    {| MapboxRequest.address := "12 Oak St";
       MapboxRequest.session_id := composite_id "s1" i |}
    (GeocodeFound 37.75%float (-122.25)%float "12 Oak St, Oakland, California").


Definition ex_poi : POI.t :=
  {| POI.name := "Lakeside Park"; POI.category := "park";
     POI.latitude := 37.75%float; POI.longitude := (-122.5)%float;
     POI.address := None; POI.distance_meters := Some 350 |}.

Definition ex_poi_reply (i : Z) : LocalDiscoveryResponse.t :=
  {| LocalDiscoveryResponse.pois := [ex_poi];
     LocalDiscoveryResponse.session_id := "s1";
     LocalDiscoveryResponse.listing_index := i |}.

Definition ex_answer (text : string) : GeneralResponse.t :=
  {| GeneralResponse.answer := text; GeneralResponse.session_id := "s1" |}.

(** A run on a session that still holds the answer to an earlier question. *)
Definition ex_run_after_answer (inbox : list (list Incoming)) : Run :=
  {| sessions := {[ "s1" := set_general (Some (ex_answer "Earlier answer")) empty_session ]};
     outbox := [];
     inbox := inbox |}.

(** What a response carries as merged hits, and one field of a merged hit. *)
Definition raw_search_results_of (response : ChatResponse.t) : list Value :=
  match ChatResponse.data response !! "raw_search_results" with
  | Some (VList l) => l
  | _ => []
  end.

Definition field_of (key : string) (v : Value) : option Value :=
  match v with VDict d => d !! key | _ => None end.

(** [handle_chat] on the example instance. *)
Definition ex_chat (req : ChatRequest.t) (r : Run) : ChatResponse.t * Run :=
  handle_chat example_str_field example_str_exn req r.

(** The store after the research reply with three hits. *)
Definition ex_store_after_research : gmap string Session :=
  fst (handle_research example_str_field (ex_research ex_three_hits None) ∅).

Definition ex_eight_hits_first_untitled : list (gmap string Value) :=
  ex_untitled_hit :: drop 1 ex_eight_hits.



Definition ex_null_title_hit : gmap string Value := <["title" := VNone]> ex_untitled_hit.


Definition ex_hit_with_image : gmap string Value :=
  <["image_url" := VStr "https://listings.example/old.jpg"]> (ex_hit "12 Oak St").

Definition ex_image : gmap string Value :=
  <["image_url" := VStr "https://images.example/new.jpg"]> {[ "index" := VInt 0 ]}.

(** An image entry that does not tell which hit it belongs to. *)
Definition ex_image_without_index : gmap string Value :=
  {[ "image_url" := VStr "https://images.example/new.jpg" ]}.

Definition ex_hit_with_latitude : gmap string Value :=
  <["latitude" := VFloat 37.75%float]> (ex_hit "12 Oak St").

(** Runs of a property search: nothing arrives while the message is sent to
    the scoping agent, the classification arrives during the first sleep,
    the research reply during the second, then [later]. *)
Definition ex_search_run (research_msg : ResearchResponse.t) (later : list (list Incoming))
    : Run :=
  ex_run ([] :: [FromScoping (ex_search_scoping "s1")] :: [FromResearch research_msg]
          :: later).

(** A classification that asks the user for more. *)
Definition ex_followup_scoping : ScopingResponse.t :=
  {| ScopingResponse.agent_message := "What is your budget?";
     ScopingResponse.is_complete := false;
     ScopingResponse.session_id := "s1";
     ScopingResponse.requirements := None;
     ScopingResponse.is_general_question := false;
     ScopingResponse.general_question := None |}.

(** A research reply that leaves [raw_search_results] at its default. *)
Definition ex_research_without_hits : ResearchResponse.t :=
  {| ResearchResponse.properties := [];
     ResearchResponse.search_summary := "Listings in Oakland";
     ResearchResponse.total_found := 0;
     ResearchResponse.session_id := "s1";
     ResearchResponse.raw_search_results := None;
     ResearchResponse.top_result_image_url := None;
     ResearchResponse.result_images := None |}.

(** An instance of the library behaviours the workers are run on: a fixed
    rendering of exceptions, indexing of an ASCII string, and strict
    validation of the fields. *)
Definition example_str_raised (e : Raised) : string :=
  match e with
  | LibraryError message => message
  | NoGet _ => "object has no attribute 'get'"
  | NoLen _ => "object has no len()"
  | NoItem _ _ => "no such item"
  end.

Definition example_str_item (s : string) (n : nat) : option string :=
  (fun c => String c "") <$> String.get n s.


Definition example_float_field (v : Value) : option float :=
  match v with VFloat f => Some f | _ => None end.

Definition example_bool_field (v : Value) : option bool :=
  match v with VBool b => Some b | _ => None end.

Definition example_optional_str_field (v : Value) : option (option string) :=
  match v with VNone => Some None | VStr s => Some (Some s) | _ => None end.

Definition example_user_requirements (kwargs : gmap string Value)
    : option UserRequirements.t :=
  let int_of k := match kwargs !! k with Some (VInt n) => Some n | _ => None end in
  match kwargs !! "location" with
  | Some (VStr location) =>
      Some {| UserRequirements.budget_min := int_of "budget_min";
              UserRequirements.budget_max := int_of "budget_max";
              UserRequirements.bedrooms := int_of "bedrooms";
              UserRequirements.bathrooms :=
                match kwargs !! "bathrooms" with Some (VFloat f) => Some f | _ => None end;
              UserRequirements.location := location;
              UserRequirements.additional_info :=
                match kwargs !! "additional_info" with Some (VStr s) => Some s | _ => None end |}
  | _ => None
  end.

Definition ex_geocode_request : MapboxRequest.t :=
  {| MapboxRequest.address := "12 Oak St";
     MapboxRequest.session_id := composite_id "s1" 0 |}.

(** A 200 answer of the geocoding API with one feature. *)
Definition ex_feature_properties : gmap string Value :=
  {[ "full_address" := VStr "12 Oak St, Oakland, California" ]}.

Definition ex_feature_geometry : gmap string Value :=
  {[ "coordinates" := VList [VFloat (-122.25)%float; VFloat 37.75%float] ]}.

Definition ex_feature : gmap string Value :=
  <["properties" := VDict ex_feature_properties]>
    {[ "geometry" := VDict ex_feature_geometry ]}.

Definition ex_geocoding_json : gmap string Value :=
  {[ "features" := VList [VDict ex_feature] ]}.

Definition ex_geocoding_answer : MapboxAgent.Exchange :=
  MapboxAgent.Answered 200 (inr "") (inr (VDict ex_geocoding_json)).

(** The geocoding API refusing the token. *)
Definition ex_geocoding_refusal : MapboxAgent.Exchange :=
  MapboxAgent.Answered 401 (inr "Not Authorized") (inl (LibraryError "not JSON")).

(** The geocoding worker on the example instance. *)
Definition ex_geocode_address (MAPBOX_TOKEN : option string)
    (exchange : MapboxAgent.Exchange) (address : string) : MapboxAgent.Geocoded :=
  MapboxAgent.geocode_address example_str_raised example_str_item
    MAPBOX_TOKEN exchange address.

Definition ex_geocode_worker (MAPBOX_TOKEN : option string)
    (exchange : MapboxAgent.Exchange) (msg : MapboxRequest.t) : option MapboxResponse.t :=
  MapboxAgent.handle_geocode_request example_str_raised example_str_item
    example_str_field example_float_field MAPBOX_TOKEN exchange msg.

(** The scoping worker on the example instance. *)
Definition ex_scoping_worker (llm : ScopingAgent.Exchange) (msg : ScopingRequest.t)
    (conversations : gmap string (list ScopingAgent.Turn))
    : gmap string (list ScopingAgent.Turn) * option ScopingResponse.t :=
  ScopingAgent.handle_request example_str_field example_bool_field
    example_optional_str_field example_user_requirements llm msg conversations.

Definition ex_scoping_request : ScopingRequest.t :=
  {| ScopingRequest.user_message := "2 bedrooms in Oakland under 900k";
     ScopingRequest.session_id := "s1" |}.

(** The language model failing. *)
Definition ex_llm_failure : ScopingAgent.Exchange :=
  {| ScopingAgent.result :=
       inr (VDict (<["content" := VStr "rate limit"]> {[ "success" := VBool false ]}));
     ScopingAgent.parsed := inl (LibraryError "not called") |}.

(** The language model marking the search complete. *)
Definition ex_llm_requirements : gmap string Value :=
  <["budget_max" := VInt 900000]> (<["bedrooms" := VInt 2]> {[ "location" := VStr "Oakland" ]}).

Definition ex_llm_output : gmap string Value :=
  <["requirements" := VDict ex_llm_requirements]>
    (<["is_general_question" := VBool false]>
       (<["is_complete" := VBool true]>
          {[ "agent_message" := VStr "Searching Oakland for you." ]})).

Definition ex_llm_complete : ScopingAgent.Exchange :=
  {| ScopingAgent.result :=
       inr (VDict (<["content" := VStr "{...}"]> {[ "success" := VBool true ]}));
     ScopingAgent.parsed := inr (VDict ex_llm_output) |}.

Definition ex_session_one_geocoded : Session :=
  session
    (fst (deliver example_str_field
            [FromResearch (ex_research ex_three_hits (Some [ex_image]));
             FromMapbox (ex_geocoded 0);
             FromLocalDiscovery (ex_poi_reply 0)] ∅))
    "s1".

(** The merge on that session, for the research reply it holds. *)
Definition ex_merged_hits : list (gmap string Value) :=
  match merge (ex_research ex_three_hits (Some [ex_image])) ex_session_one_geocoded with
  | inr (enhanced_results, _) => enhanced_results
  | inl _ => []
  end.

Definition ex_top : Value :=
  match merge (ex_research ex_three_hits (Some [ex_image])) ex_session_one_geocoded with
  | inr (_, top) => top
  | inl _ => VNone
  end.

(** A geocoding reply with a plain token, as the legacy path expects it. *)
Definition ex_legacy_reply : MapboxResponse.t :=
  {| MapboxResponse.address := "12 Oak St, Oakland, California";
     MapboxResponse.latitude := 37.75%float;
     MapboxResponse.longitude := (-122.25)%float;
     MapboxResponse.session_id := "s1";
     MapboxResponse.error := None;
     MapboxResponse.image_url := None |}.

(** The reply of the scoping worker to [ex_llm_complete]. *)
Definition ex_scoping_reply : ScopingResponse.t :=
  {| ScopingResponse.agent_message := "Searching Oakland for you.";
     ScopingResponse.is_complete := true;
     ScopingResponse.session_id := "s1";
     ScopingResponse.requirements :=
       Some {| UserRequirements.budget_min := None;
               UserRequirements.budget_max := Some 900000;
               UserRequirements.bedrooms := Some 2;
               UserRequirements.bathrooms := None;
               UserRequirements.location := "Oakland";
               UserRequirements.additional_info := None |};
     ScopingResponse.is_general_question := false;
     ScopingResponse.general_question := None |}.

(** Decides what arrives in a concrete run: the arrivals are computed, and
    each is compared with the reply the hypothesis speaks of. *)
Ltac no_such_arrival :=
  intros;
  match goal with
  | H : _ ∈ arrivals ?n ?r |- _ =>
      let l := eval vm_compute in (arrivals n r) in
      change (arrivals n r) with l in H;
      repeat (apply elem_of_cons in H as [H|H];
              [try discriminate H; try (injection H as ->; by vm_compute)|]);
      by apply elem_of_nil in H
  end.

(** * Properties *)

(** ** Tokens *)

Lemma append_nil_l (s : string) : "" +:+ s = s.
Proof. reflexivity. Qed.

Lemma append_cons (c : ascii) (s t : string) : String c s +:+ t = String c (s +:+ t).
Proof. reflexivity. Qed.

Lemma append_assoc (a b c : string) : (a +:+ b) +:+ c = a +:+ (b +:+ c).
Proof. induction a as [|x a IH]; [done|]. by rewrite !append_cons, IH. Qed.

Lemma digit_not_space c d : digit_value c = Some d -> is_space c = false.
Proof. destruct c as [[] [] [] [] [] [] [] []]; vm_compute; congruence. Qed.

(** A character below 127 is read as it is, whatever came before it; an
    unfinished character before it is written as ["?"]. *)
Lemma next_byte_low st c :
  (N_of_ascii c <? 127)%N = true ->
  next_byte st c
  = (match pending st with O => "" | S _ => "?" end +:+ String c "", utf8_start).
Proof.
  intros Hc. assert (Hf : first_byte c = (String c "", utf8_start)).
  { unfold first_byte. rewrite Hc.
    destruct (N.ltb_spec (N_of_ascii c) 128) as [|Hge]; [done|].
    apply N.ltb_lt in Hc. lia. }
  unfold next_byte. destruct (pending st) as [|k]; [exact Hf|].
  destruct (N.leb_spec 128 (N_of_ascii c)) as [Hge|_];
    [apply N.ltb_lt in Hc; lia|].
  cbn [andb]. by rewrite Hf.
Qed.

Lemma digit_low c d : digit_value c = Some d -> (N_of_ascii c <? 127)%N = true.
Proof. destruct c as [[] [] [] [] [] [] [] []]; vm_compute; congruence. Qed.

Lemma ascii_from_digits s : all_digits s = true -> ascii_from utf8_start s = s.
Proof.
  induction s as [|c s IH]; cbn [all_digits ascii_from]; [done|].
  destruct (digit_value c) eqn:E; [|discriminate]. intros H.
  rewrite (next_byte_low _ _ (digit_low _ _ E)). cbn [pending utf8_start].
  by rewrite append_nil_l, append_cons, append_nil_l, (IH H).
Qed.

(** What is read up to a character below 127 does not depend on what
    follows it. *)
Lemma ascii_from_low x : forall st, exists p, forall c y,
  (N_of_ascii c <? 127)%N = true ->
  ascii_from st (x +:+ String c y) = p +:+ String c (ascii_from utf8_start y).
Proof.
  induction x as [|a x IH]; intros st.
  - exists (match pending st with O => "" | S _ => "?" end). intros c y Hc.
    rewrite append_nil_l. cbn [ascii_from]. rewrite (next_byte_low _ _ Hc).
    by rewrite append_assoc, append_cons, append_nil_l.
  - destruct (next_byte st a) as [out st'] eqn:E. destruct (IH st') as [p Hp].
    exists (out +:+ p). intros c y Hc.
    rewrite append_cons. cbn [ascii_from]. rewrite E, (Hp c y Hc).
    by rewrite append_assoc.
Qed.

Lemma rstrip_digits s : all_digits s = true -> rstrip s = s.
Proof.
  induction s as [|c s IH]; simpl; [done|].
  destruct (digit_value c) eqn:E; [|discriminate].
  intros H. rewrite (IH H). destruct s; [|done].
  by rewrite (digit_not_space _ _ E).
Qed.

Lemma lstrip_digits s : all_digits s = true -> lstrip s = s.
Proof.
  destruct s as [|c s]; simpl; [done|].
  destruct (digit_value c) eqn:E; [|discriminate].
  by rewrite (digit_not_space _ _ E).
Qed.

Lemma string_of_uint_digits d : all_digits (NilEmpty.string_of_uint d) = true.
Proof. induction d; simpl; auto. Qed.

Lemma int_digits_uint d : forall acc,
  int_digits (NilEmpty.string_of_uint d) (Z.of_nat acc) true
  = Some (Z.of_nat (Nat.of_uint_acc d acc)).
Proof.
  induction d; intros acc; simpl; [done|..];
    rewrite Nat.tail_mul_spec;
    match goal with |- int_digits _ ?z _ = Some (Z.of_nat (Nat.of_uint_acc _ ?n)) =>
      replace z with (Z.of_nat n) by lia end; apply IHd.
Qed.

Lemma py_int_str_nat n : py_int (py_str_nat n) = Some (Z.of_nat n).
Proof.
  unfold py_int, py_str_nat.
  rewrite ascii_from_digits by apply string_of_uint_digits.
  rewrite lstrip_digits, rstrip_digits by apply string_of_uint_digits.
  pose proof (DecimalNat.Unsigned.of_to n) as Hn. unfold Nat.of_uint in Hn.
  destruct (Nat.to_uint n) as [|d|d|d|d|d|d|d|d|d|d] eqn:E.
  { pose proof (DecimalNat.Unsigned.to_of (Nat.to_uint n)) as Hu.
    rewrite DecimalNat.Unsigned.of_to, E in Hu. discriminate Hu. }
  all: simpl in *; rewrite Nat.tail_mul_spec in Hn; simpl in Hn;
    match goal with |- int_digits _ ?z _ = _ =>
      match type of Hn with Nat.of_uint_acc _ ?k = _ =>
        change z with (Z.of_nat k) end end;
    rewrite int_digits_uint; by rewrite Hn.
Qed.

Lemma py_in_cons sep c s :
  py_in sep (String c s) = false ->
  strip_prefix sep (String c s) = None /\ py_in sep s = false.
Proof.
  unfold py_in. cbn [partition_first].
  destruct (strip_prefix sep (String c s)); [discriminate|].
  destruct (partition_first sep s) as [[? ?]|]; [discriminate|done].
Qed.

Lemma partition_first_composite t r :
  py_in "__" t = false -> ends_with "_" t = false ->
  partition_first "__" (t +:+ "__" +:+ r) = Some (t, r).
Proof.
  induction t as [|c t IH]; intros Hin Hend.
  - reflexivity.
  - apply py_in_cons in Hin as [Hpre Hin].
    assert (Hend' : ends_with "_" t = false).
    { destruct t; [reflexivity|exact Hend]. }
    change (String c t +:+ "__" +:+ r) with (String c (t +:+ "__" +:+ r)).
    cbn [partition_first]. rewrite (IH Hin Hend').
    assert (Hnone : strip_prefix "__" (String c (t +:+ "__" +:+ r)) = None).
    { destruct t as [|b t].
      - cbn [strip_prefix ends_with] in Hend |- *.
        destruct (Ascii.eqb "_" c) eqn:Ec; [|reflexivity].
        rewrite Ascii.eqb_sym in Hend. congruence.
      - change (String b t +:+ "__" +:+ r) with (String b (t +:+ "__" +:+ r)).
        cbn [strip_prefix] in Hpre |- *.
        destruct (Ascii.eqb "_" c); [|reflexivity].
        destruct (Ascii.eqb "_" b); [discriminate Hpre|reflexivity]. }
    rewrite Hnone. reflexivity.
Qed.

(** C1 (amended).  For every session token [t] that neither contains the
    separator ["__"] nor ends with an underscore, and for every index [i]
    (those below 5 included), parsing the composite token that the fan-out
    builds for [(t, i)] gives back exactly [t] and [i], as a composite
    token. *)
Theorem composite_token_round_trip t i :
  py_in "__" t = false -> ends_with "_" t = false ->
  parse_session_id (composite_id t i) = Composite t (Z.of_nat i).
Proof.
  intros Hin Hend. unfold parse_session_id, composite_id, py_in, py_split1.
  rewrite (partition_first_composite t (py_str_nat i) Hin Hend).
  by rewrite py_int_str_nat.
Qed.

(** The two conditions are also necessary: a composite token that parses
    back to its session token and index was built from a token that holds
    no separator and does not end with an underscore. *)
Lemma partition_first_at t r a :
  partition_first "__" (t +:+ "__" +:+ r) = Some (t, a) ->
  py_in "__" t = false /\ ends_with "_" t = false.
Proof.
  induction t as [|c t IH].
  - done.
  - rewrite append_cons. cbn [partition_first].
    destruct (strip_prefix "__" (String c (t +:+ "__" +:+ r))) eqn:Es; [discriminate|].
    destruct (partition_first "__" (t +:+ "__" +:+ r)) as [[b a']|] eqn:Ep; [|discriminate].
    intros [= -> ->]. destruct (IH eq_refl) as [Hin Hend]. split.
    + unfold py_in in *. cbn [partition_first].
      destruct (partition_first "__" t); [discriminate|].
      destruct (strip_prefix "__" (String c t)) eqn:Eb; [|done].
      exfalso. cbn [strip_prefix] in Eb, Es.
      destruct (Ascii.eqb "_" c); [|discriminate].
      destruct t as [|c2 t]; [discriminate|]. rewrite append_cons in Es.
      destruct (Ascii.eqb "_" c2); discriminate.
    + destruct t as [|c2 t]; [|exact Hend].
      cbn [ends_with]. rewrite append_nil_l in Es. cbn [strip_prefix] in Es.
      rewrite Ascii.eqb_sym. rewrite !append_cons in Es.
      destruct (Ascii.eqb "_" c); [discriminate|done].
Qed.

(** X1.  If the composite token built for [(t, i)] parses back to [t] and
    [i], then [t] holds no separator ["__"] and does not end with an
    underscore: the round trip holds for exactly these tokens. *)
Theorem composite_token_round_trip_only_if t i :
  parse_session_id (composite_id t i) = Composite t (Z.of_nat i) ->
  py_in "__" t = false /\ ends_with "_" t = false.
Proof.
  unfold parse_session_id, composite_id, py_split1.
  destruct (py_in "__" (t +:+ "__" +:+ py_str_nat i)); [|discriminate].
  destruct (partition_first "__" (t +:+ "__" +:+ py_str_nat i)) as [[b a]|] eqn:E;
    [|discriminate].
  destruct (py_int a); [|discriminate]. intros [= -> _].
  by apply partition_first_at in E.
Qed.






Lemma all_digits_sep p q : all_digits (p +:+ "__" +:+ q) = false.
Proof.
  induction p as [|c p IH]; [reflexivity|].
  change (String c p +:+ "__" +:+ q) with (String c (p +:+ "__" +:+ q)).
  cbn [all_digits]. by destruct (digit_value c).
Qed.

Lemma py_str_nat_digits n : all_digits (py_str_nat n) = true.
Proof. apply string_of_uint_digits. Qed.

Lemma composite_id_inj_sid s s' i j :
  composite_id s i = composite_id s' j -> s = s'.
Proof.
  unfold composite_id. revert s'. induction s as [|c s IH]; intros [|c' s'] H.
  - done.
  - exfalso. rewrite ?append_cons, ?append_nil_l in H. injection H as _ H.
    pose proof (py_str_nat_digits i) as Hd.
    destruct s' as [|c2 s']; rewrite ?append_cons, ?append_nil_l in H.
    + injection H as H. rewrite H in Hd. discriminate Hd.
    + injection H as _ H. rewrite H in Hd.
      rewrite <- (append_nil_l (py_str_nat j)), <- !append_cons, all_digits_sep in Hd.
      discriminate.
  - exfalso. rewrite ?append_cons, ?append_nil_l in H. injection H as _ H.
    pose proof (py_str_nat_digits j) as Hd.
    destruct s as [|c2 s]; rewrite ?append_cons, ?append_nil_l in H.
    + injection H as H. rewrite <- H in Hd. discriminate Hd.
    + injection H as _ H. rewrite <- H in Hd.
      rewrite <- (append_nil_l (py_str_nat i)), <- !append_cons, all_digits_sep in Hd.
      discriminate.
  - rewrite !(append_cons c), !(append_cons c') in H.
    injection H as -> H. f_equal. by apply IH.
Qed.

(** ** The store and the handlers *)

Lemma session_ensure sid sessions sid' :
  session (ensure sid sessions) sid' = session sessions sid'.
Proof.
  unfold ensure, session. destruct (sessions !! sid) eqn:E; [done|].
  destruct (decide (sid = sid')) as [->|Hne].
  - by rewrite lookup_insert_eq, E.
  - by rewrite lookup_insert_ne.
Qed.

Lemma session_modify sid f sessions sid' :
  session (modify sid f sessions) sid' =
  if decide (sid = sid') then f (session sessions sid') else session sessions sid'.
Proof.
  unfold modify, session at 1. case_decide as E.
  - subst. by rewrite lookup_insert_eq.
  - by rewrite lookup_insert_ne.
Qed.

Lemma handle_scoping_session msg sessions sid :
  session (fst (handle_scoping msg sessions)) sid =
  apply_effect (effect (FromScoping msg)) sid (session sessions sid).
Proof.
  unfold handle_scoping, apply_effect, effect.
  destruct (_ && _); [|destruct (ScopingResponse.is_complete msg), (ScopingResponse.requirements msg)];
    cbn [fst]; rewrite session_modify, session_ensure; done.
Qed.

Lemma handle_general_session msg sessions sid :
  session (fst (handle_general msg sessions)) sid =
  apply_effect (effect (FromGeneral msg)) sid (session sessions sid).
Proof.
  unfold handle_general, apply_effect, effect. cbn [fst].
  by rewrite session_modify, session_ensure.
Qed.

Lemma handle_local_discovery_session msg sessions sid :
  session (fst (handle_local_discovery msg sessions)) sid =
  apply_effect (effect (FromLocalDiscovery msg)) sid (session sessions sid).
Proof.
  unfold handle_local_discovery, apply_effect, effect. cbn [fst].
  destruct (poi_results (session (ensure _ sessions) _)) eqn:E;
    rewrite session_ensure in E;
    rewrite !session_modify, ?session_ensure; case_decide; try done; subst;
    unfold on_local_discovery, get_poi_results; cbn; by rewrite ?E.
Qed.

Lemma handle_mapbox_session msg sessions sid :
  session (fst (handle_mapbox msg sessions)) sid =
  apply_effect (effect (FromMapbox msg)) sid (session sessions sid).
Proof.
  unfold handle_mapbox, apply_effect, effect.
  destruct (parse_session_id (MapboxResponse.session_id msg)) as [|base idx|]; cbn [fst].
  - by rewrite session_modify, session_ensure.
  - unfold on_geocoded.
    destruct (geocoded_results (session (ensure base sessions) base)) eqn:E;
      rewrite session_ensure in E;
      destruct (truthy_str (MapboxResponse.error msg)); cbn [negb fst];
      rewrite !session_modify, ?session_ensure; case_decide; try done; subst;
      unfold get_geocoded_results; cbn; rewrite ?E; cbn; rewrite ?app_nil_r; try done.
    destruct (session sessions sid); cbn in *; by simplify_eq.
  - done.
Qed.

Lemma handle_scoping_sent msg sessions :
  snd (handle_scoping msg sessions) = scoping_reaction msg.
Proof.
  unfold scoping_reaction, handle_scoping.
  destruct (_ && _); [done|].
  by destruct (ScopingResponse.is_complete msg), (ScopingResponse.requirements msg).
Qed.

Lemma handle_mapbox_sent msg sessions :
  snd (handle_mapbox msg sessions) = mapbox_reaction msg.
Proof.
  unfold mapbox_reaction, handle_mapbox.
  destruct (parse_session_id _); [done| |done].
  by destruct (negb _).
Qed.


Lemma find_app_None {A} (f : A -> bool) l l' :
  List.find f l = None -> List.find f (l ++ l') = List.find f l'.
Proof. induction l as [|x l IH]; cbn; [done|]. destruct (f x); [done|exact IH]. Qed.



(** ** Arrivals *)

Lemma elem_of_concat {A} (x : A) (ls : list (list A)) :
  x ∈ concat ls <-> exists l, l ∈ ls /\ x ∈ l.
Proof.
  induction ls as [|l ls IH]; cbn.
  - split; [by intros ?%elem_of_nil|]. intros (l & Hl & _). by apply elem_of_nil in Hl.
  - rewrite elem_of_app, IH. split.
    + intros [H|(l' & H1 & H2)]; [exists l; split; [left|done] |exists l'; split; [by right|done]].
    + intros (l' & [->|H1]%elem_of_cons & H2); [by left|right; eauto].
Qed.

Lemma arrivals_mono k n r m : (k <= n)%nat -> m ∈ arrivals k r -> m ∈ arrivals n r.
Proof.
  unfold arrivals. intros Hk (b & Hb & Hm)%elem_of_concat. apply elem_of_concat.
  exists b. split; [|done]. apply elem_of_take in Hb as (i & Hi & Hlt).
  apply elem_of_take. exists i. split; [done|lia].
Qed.

(** ** The merge, turn by turn *)

Lemma find_image_inl idx images e : find_image idx images = inl e -> e = KeyError "index".
Proof.
  induction images as [|img images IH]; cbn [find_image]; [discriminate|].
  destruct (img !! "index") as [index|]; [|congruence].
  destruct (eq_int index idx); [discriminate|exact IH].
Qed.

Lemma find_image_truthy idx images image_data :
  find_image idx images = inr (Some image_data) -> truthy (VDict image_data) = true.
Proof.
  induction images as [|img images IH]; cbn [find_image]; [discriminate|].
  destruct (img !! "index") as [index|] eqn:E; [|discriminate].
  destruct (eq_int index idx); [|exact IH]. intros [= <-]. cbn [truthy].
  apply negb_true_iff, bool_decide_eq_false. intros ->. by rewrite lookup_empty in E.
Qed.

Lemma enhance_inr geocoded_results result_images poi_results idx result e :
  enhance geocoded_results result_images poi_results idx result = inr e ->
  (forall k, ~ merged_key k -> e !! k = result !! k) /\
  match find_geocoded (Z.of_nat idx) geocoded_results with
  | Some geocoded =>
      e !! "latitude" = Some (VFloat (GeocodedResult.latitude geocoded)) /\
      e !! "longitude" = Some (VFloat (GeocodedResult.longitude geocoded)) /\
      e !! "address" = Some (VStr (GeocodedResult.address geocoded))
  | None =>
      e !! "latitude" = result !! "latitude" /\
      e !! "longitude" = result !! "longitude" /\
      e !! "address" = result !! "address"
  end /\
  image_merged idx result_images result e /\
  e !! "pois"
  = Some (VList (match find_poi (Z.of_nat idx) poi_results with
                 | Some poi_data => VDict <$> PoiResult.pois poi_data
                 | None => []
                 end)).
Proof.
  unfold enhance, image_merged.
  set (geocoded :=
    match find_geocoded (Z.of_nat idx) geocoded_results with
    | Some geocoded =>
        <["address" := VStr (GeocodedResult.address geocoded)]>
          (<["longitude" := VFloat (GeocodedResult.longitude geocoded)]>
             (<["latitude" := VFloat (GeocodedResult.latitude geocoded)]> result))
    | None => result
    end).
  assert (Hother : forall k, ~ merged_key k -> geocoded !! k = result !! k).
  { intros k Hk. subst geocoded. destruct (find_geocoded _ _); [|done].
    unfold merged_key in Hk. rewrite !lookup_insert_ne; [done|..]; intros <-; tauto. }
  assert (Himage : geocoded !! "image_url" = result !! "image_url").
  { subst geocoded. destruct (find_geocoded _ _); [|done]. by rewrite !lookup_insert_ne. }
  assert (Hco :
    match find_geocoded (Z.of_nat idx) geocoded_results with
    | Some g =>
        geocoded !! "latitude" = Some (VFloat (GeocodedResult.latitude g)) /\
        geocoded !! "longitude" = Some (VFloat (GeocodedResult.longitude g)) /\
        geocoded !! "address" = Some (VStr (GeocodedResult.address g))
    | None =>
        geocoded !! "latitude" = result !! "latitude" /\
        geocoded !! "longitude" = result !! "longitude" /\
        geocoded !! "address" = result !! "address"
    end).
  { subst geocoded. destruct (find_geocoded _ _); [|done]. repeat split;
      by rewrite ?lookup_insert_eq, ?(lookup_insert_ne _ "address"),
           ?lookup_insert_eq, ?(lookup_insert_ne _ "longitude"), ?lookup_insert_eq. }
  clearbody geocoded.
  assert (Hpois : forall with_image : gmap string Value,
    let e := match find_poi (Z.of_nat idx) poi_results with
             | Some poi_data => <["pois" := VList (VDict <$> PoiResult.pois poi_data)]> with_image
             | None => <["pois" := VList []]> with_image
             end in
    (forall k, k <> "pois" -> e !! k = with_image !! k) /\
    e !! "pois"
    = Some (VList (match find_poi (Z.of_nat idx) poi_results with
                   | Some poi_data => VDict <$> PoiResult.pois poi_data
                   | None => []
                   end))).
  { intros with_image. cbn zeta. destruct (find_poi _ _);
      (split; [intros k Hk; by rewrite lookup_insert_ne|by rewrite lookup_insert_eq]). }
  destruct (find_image (Z.of_nat idx) result_images) as [exn|[image_data|]] eqn:Ef;
    [discriminate| |].
  - rewrite (find_image_truthy _ _ _ Ef).
    destruct (image_data !! "image_url") as [image_url|] eqn:Eu; [|discriminate].
    intros [= <-]. destruct (Hpois (<["image_url" := image_url]> geocoded)) as [Hk Hp].
    cbn zeta in Hk, Hp. split; [|split; [|split]].
    + intros k Hm. rewrite Hk by (intros ->; apply Hm; unfold merged_key; tauto).
      rewrite lookup_insert_ne by (intros <-; apply Hm; unfold merged_key; tauto).
      by apply Hother.
    + destruct (find_geocoded _ _); destruct Hco as (H1 & H2 & H3);
        rewrite !Hk, !(lookup_insert_ne _ "image_url") by done; done.
    + exists image_url. split; [done|]. rewrite Hk by done. apply lookup_insert_eq.
    + exact Hp.
  - intros [= <-]. destruct (Hpois geocoded) as [Hk Hp].
    cbn zeta in Hk, Hp. split; [|split; [|split]].
    + intros k Hm. rewrite Hk by (intros ->; apply Hm; unfold merged_key; tauto).
      by apply Hother.
    + destruct (find_geocoded _ _); destruct Hco as (H1 & H2 & H3);
        rewrite !Hk by done; done.
    + by rewrite Hk.
    + exact Hp.
Qed.

Lemma enhance_inl geocoded_results result_images poi_results idx result :
  (exists exn, enhance geocoded_results result_images poi_results idx result = inl exn)
  <-> image_lookup_raises idx result_images.
Proof.
  unfold enhance, image_lookup_raises.
  destruct (find_image (Z.of_nat idx) result_images) as [exn|[image_data|]] eqn:Ef.
  - split; [done|]. by eexists.
  - rewrite (find_image_truthy _ _ _ Ef).
    destruct (image_data !! "image_url"); split; try done; [by intros [? ?]|by eexists].
  - split; [by intros [? ?]|done].
Qed.

Lemma enhance_results_inr geocoded_results result_images poi_results l : forall k es,
  enhance_results geocoded_results result_images poi_results k l = inr es ->
  length es = length l /\
  forall (i : nat) c, l !! i = Some c ->
    exists e, es !! i = Some e /\
      enhance geocoded_results result_images poi_results (k + i) c = inr e.
Proof.
  induction l as [|c l IH]; intros k es; cbn [enhance_results].
  - intros [= <-]. split; [done|]. intros i c Hc. by rewrite lookup_nil in Hc.
  - destruct (enhance _ _ _ k c) as [exn|e] eqn:Ee; [discriminate|].
    destruct (enhance_results _ _ _ (S k) l) as [exn|es'] eqn:Er; [discriminate|].
    intros [= <-]. destruct (IH _ _ Er) as [Hlen Hl]. split; [cbn; by rewrite Hlen|].
    intros [|i] c' Hc'.
    + injection Hc' as <-. exists e. by rewrite Nat.add_0_r.
    + destruct (Hl i c' Hc') as (e' & He' & Hen). exists e'.
      by rewrite Nat.add_succ_r.
Qed.

Lemma enhance_results_lookup geocoded_results result_images poi_results l k es
    (i : nat) e :
  enhance_results geocoded_results result_images poi_results k l = inr es ->
  es !! i = Some e ->
  exists c, l !! i = Some c /\
    enhance geocoded_results result_images poi_results (k + i) c = inr e.
Proof.
  intros [Hlen Hl]%enhance_results_inr He.
  destruct (lookup_lt_is_Some_2 l i) as [c Hc].
  { rewrite <- Hlen. by eapply lookup_lt_Some. }
  destruct (Hl i c Hc) as (e' & He' & Hen). exists c. split; [done|]. congruence.
Qed.

Lemma enhance_title geocoded_results result_images poi_results idx result e default :
  enhance geocoded_results result_images poi_results idx result = inr e ->
  dict_get e "title" default = dict_get result "title" default.
Proof.
  intros (Hother & _)%enhance_inr. unfold dict_get. rewrite Hother; [done|].
  unfold merged_key. intros [?|[?|[?|[?|?]]]]; discriminate.
Qed.

Lemma enhance_results_inl geocoded_results result_images poi_results l : forall k,
  (exists exn, enhance_results geocoded_results result_images poi_results k l = inl exn)
  <-> exists (i : nat) c, l !! i = Some c /\ image_lookup_raises (k + i) result_images.
Proof.
  induction l as [|c l IH]; intros k; cbn [enhance_results].
  - split; [by intros [? ?]|]. intros (i & c & Hc & _). by rewrite lookup_nil in Hc.
  - pose proof (enhance_inl geocoded_results result_images poi_results k c) as Hc.
    destruct (enhance _ _ _ k c) as [exn|e] eqn:Ee.
    + split; [|by eexists]. intros _. exists 0%nat, c. rewrite Nat.add_0_r.
      split; [done|]. apply Hc. by eexists.
    + specialize (IH (S k)).
      destruct (enhance_results _ _ _ (S k) l) as [exn|es'] eqn:Er.
      * split; [|by eexists]. intros _.
        destruct (proj1 IH) as (i & c' & Hc' & Hr); [by eexists|].
        exists (S i), c'. by rewrite Nat.add_succ_r.
      * split; [by intros [? ?]|]. intros ([|i] & c' & Hc' & Hr).
        -- injection Hc' as <-. rewrite Nat.add_0_r in Hr.
           apply Hc in Hr as [? ?]. discriminate.
        -- destruct (proj2 IH) as [? ?]; [|discriminate].
           exists i, c'. by rewrite Nat.add_succ_r in Hr.
Qed.

Lemma enhance_results_imap geocoded_results result_images poi_results
    (f : nat -> gmap string Value -> gmap string Value) l : forall k,
  (forall (i : nat) c, l !! i = Some c ->
     enhance geocoded_results result_images poi_results (k + i) c = inr (f (k + i)%nat c)) ->
  enhance_results geocoded_results result_images poi_results k l
  = inr (imap (fun i => f (k + i)%nat) l).
Proof.
  induction l as [|c l IH]; intros k Hl; cbn [enhance_results]; [done|].
  pose proof (Hl 0%nat c eq_refl) as H0. rewrite Nat.add_0_r in H0. rewrite H0.
  rewrite (IH (S k)).
  - rewrite imap_cons, Nat.add_0_r. do 2 f_equal.
    apply imap_ext. intros i x _. cbn. by rewrite Nat.add_succ_r.
  - intros i c' Hc'. specialize (Hl (S i) c' Hc'). by rewrite Nat.add_succ_r in Hl.
Qed.

(** ** Results passed through *)

Lemma passed_through_pois images i c : passed_through images i c !! "pois" = Some (VList []).
Proof. unfold passed_through. apply lookup_insert_eq. Qed.

Lemma passed_through_other images i c k :
  k <> "pois" -> k <> "image_url" -> passed_through images i c !! k = c !! k.
Proof.
  intros H1 H2. unfold passed_through. rewrite lookup_insert_ne by done.
  destruct (find_image _ _) as [?|[image_data|]]; [done| |done].
  destruct (image_data !! "image_url"); [by rewrite lookup_insert_ne|done].
Qed.

Lemma passed_through_image images i c :
  ~ image_lookup_raises i images -> image_merged i images c (passed_through images i c).
Proof.
  unfold image_lookup_raises, image_merged, passed_through. intros Hok.
  destruct (find_image _ _) as [?|[image_data|]]; [done| |by rewrite lookup_insert_ne].
  destruct (image_data !! "image_url") as [image_url|]; [|done].
  exists image_url. split; [done|]. rewrite lookup_insert_ne by done. apply lookup_insert_eq.
Qed.

Lemma enhance_passed_through images i c :
  ~ image_lookup_raises i images -> enhance [] images [] i c = inr (passed_through images i c).
Proof.
  unfold image_lookup_raises, enhance, passed_through. intros Hok. cbn [find_geocoded find_poi List.find].
  destruct (find_image _ _) as [?|[image_data|]] eqn:Ef; [done| |done].
  rewrite (find_image_truthy _ _ _ Ef).
  destruct (image_data !! "image_url") as [image_url|]; [done|]. by destruct Hok.
Qed.

Section Properties.
Variable str_field : Value -> option string.
Variable str_exn : Exn -> string.

(** ** Dispatch and delivery *)

Lemma handle_research_session msg sessions sid :
  session (fst (handle_research str_field msg sessions)) sid =
  apply_effect (effect (FromResearch msg)) sid (session sessions sid).
Proof.
  unfold handle_research, apply_effect, effect.
  assert (forall o : list Outgoing,
    session (fst (modify (ResearchResponse.session_id msg) (set_poi_count (Some 0))
      (modify (ResearchResponse.session_id msg) (set_poi_results (Some []))
      (modify (ResearchResponse.session_id msg) (set_geocoding_count (Some 0))
      (modify (ResearchResponse.session_id msg) (set_geocoded_results (Some []))
      (modify (ResearchResponse.session_id msg) (set_research (Some msg))
      (ensure (ResearchResponse.session_id msg) sessions))))), o)) sid =
    if decide (ResearchResponse.session_id msg = sid) then on_research msg (session sessions sid)
    else session sessions sid) as H.
  { intros o. cbn [fst]. rewrite !session_modify, session_ensure. by case_decide. }
  cbv zeta. destruct (ResearchResponse.raw_search_results msg) as [[|]|]; apply H.
Qed.

Lemma dispatch_sent m sessions : snd (dispatch str_field m sessions) = reaction str_field m.
Proof.
  unfold reaction. destruct m as [msg|msg|msg|msg|msg]; cbn [dispatch]; try done.
  - by rewrite !handle_scoping_sent.
  - unfold handle_research. cbv zeta.
    by destruct (ResearchResponse.raw_search_results msg) as [[|]|].
  - by rewrite !handle_mapbox_sent.
Qed.

Lemma dispatch_session m sessions sid :
  session (fst (dispatch str_field m sessions)) sid =
  apply_effect (effect m) sid (session sessions sid).
Proof.
  destruct m; cbn [dispatch].
  - apply handle_scoping_session.
  - apply handle_research_session.
  - apply handle_mapbox_session.
  - apply handle_local_discovery_session.
  - apply handle_general_session.
Qed.

Lemma deliver_sent batch sessions :
  snd (deliver str_field batch sessions) = batch ≫= reaction str_field.
Proof.
  revert sessions. induction batch as [|m batch IH]; intros sessions; [done|].
  cbn [deliver]. pose proof (dispatch_sent m sessions) as Hm.
  destruct (dispatch str_field m sessions) as [s1 o1]. cbn [snd] in Hm. subst o1.
  specialize (IH s1). destruct (deliver str_field batch s1) as [s2 o2].
  cbn [snd] in *. by subst.
Qed.

Lemma deliver_app b1 b2 sessions :
  fst (deliver str_field (b1 ++ b2) sessions)
  = fst (deliver str_field b2 (fst (deliver str_field b1 sessions))).
Proof.
  revert sessions. induction b1 as [|m b1 IH]; intros sessions; [done|].
  cbn [deliver app]. destruct (dispatch str_field m sessions) as [s1 o1].
  specialize (IH s1).
  destruct (deliver str_field (b1 ++ b2) s1), (deliver str_field b1 s1). done.
Qed.

(** An invariant of one session's record is kept by every batch whose
    replies keep it. *)
Lemma deliver_invariant (I : Session -> Prop) sid batch sessions :
  Forall (fun m => forall s, I s -> I (apply_effect (effect m) sid s)) batch ->
  I (session sessions sid) ->
  I (session (fst (deliver str_field batch sessions)) sid).
Proof.
  revert sessions. induction batch as [|m batch IH]; intros sessions Hall HI; [done|].
  inversion Hall as [|? ? Hm Hrest]; subst. cbn [deliver].
  pose proof (dispatch_session m sessions sid) as Hs.
  destruct (dispatch str_field m sessions) as [s1 o1]. cbn [fst] in Hs.
  specialize (IH s1 Hrest). rewrite Hs in IH. specialize (IH (Hm _ HI)).
  by destruct (deliver str_field batch s1).
Qed.

(** ** Suspensions *)

Lemma sleepn_add k1 k2 r : sleepn str_field k2 (sleepn str_field k1 r) = sleepn str_field (k1 + k2) r.
Proof. revert r. induction k1; intros r; cbn; [done|apply IHk1]. Qed.

Lemma sleepn_inbox k r : inbox (sleepn str_field k r) = drop k (inbox r).
Proof.
  revert r. induction k as [|k IH]; intros r; cbn [sleepn]; [by rewrite drop_0|].
  rewrite IH. unfold sleep. destruct (inbox r) as [|b l] eqn:E.
  - by rewrite E, !drop_nil.
  - by destruct (deliver str_field b (sessions r)).
Qed.

Lemma sleepn_sessions k r :
  sessions (sleepn str_field k r) = fst (deliver str_field (concat (take k (inbox r))) (sessions r)).
Proof.
  revert r. induction k as [|k IH]; intros r; cbn [sleepn]; [done|].
  rewrite IH. unfold sleep. destruct (inbox r) as [|b l] eqn:E.
  - by rewrite E, !take_nil.
  - cbn [take concat]. rewrite deliver_app.
    by destruct (deliver str_field b (sessions r)).
Qed.

Lemma sleepn_outbox k r :
  outbox (sleepn str_field k r) = outbox r ++ (concat (take k (inbox r)) ≫= reaction str_field).
Proof.
  revert r. induction k as [|k IH]; intros r; cbn [sleepn].
  { simpl. symmetry. apply app_nil_r. }
  rewrite IH. unfold sleep. destruct (inbox r) as [|b l] eqn:E.
  - by rewrite E, !take_nil.
  - cbn [take concat]. rewrite bind_app.
    pose proof (deliver_sent b (sessions r)) as Hb.
    destruct (deliver str_field b (sessions r)). cbn in *. subst. by rewrite app_assoc.
Qed.

(** What a wait loop amounts to: some number [k <= n] of suspensions; the
    condition was false before each of them; the loop broke exactly when the
    condition holds after them. *)
Lemma poll_spec n ready r :
  exists k : nat, (k <= n)%nat /\
    snd (poll str_field n ready r) = sleepn str_field k r /\
    (forall j : nat, (j < k)%nat -> ready (sleepn str_field j r) = false) /\
    (if fst (poll str_field n ready r) then ready (sleepn str_field k r) = true else k = n).
Proof.
  revert r. induction n as [|n IH]; intros r; cbn [poll].
  - exists 0%nat. cbn. split; [lia|]. split; [done|]. split; [intros; lia|done].
  - destruct (ready r) eqn:E.
    + exists 0%nat. cbn. split; [lia|]. split; [done|]. split; [intros; lia|done].
    + destruct (IH (sleep str_field r)) as (k & Hk & Hs & Hb & Hf).
      exists (S k). split; [lia|]. split; [done|]. split.
      * intros [|j] Hj; [done|]. apply Hb. lia.
      * destruct (fst (poll str_field n ready (sleep str_field r))); [done|by f_equal].
Qed.

(** ** The fan-out of a research reply *)

Lemma geocode_requests_elem sid l : forall idx o,
  o ∈ geocode_requests str_field sid idx l ->
  exists (i : nat) c a, l !! i = Some c /\ truthy (title c) = true /\
    str_field (title c) = Some a /\ o = mapbox_request a (composite_id sid (idx + i)).
Proof.
  induction l as [|c l IH]; intros idx o; cbn [geocode_requests].
  - by intros ?%elem_of_nil.
  - fold (title c). destruct (truthy (title c)) eqn:Et.
    + destruct (str_field (title c)) as [a|] eqn:Ea; [|by intros ?%elem_of_nil].
      intros [->|Hin]%elem_of_cons.
      * exists 0%nat, c, a. by rewrite Nat.add_0_r.
      * destruct (IH _ _ Hin) as (i & c' & a' & ? & ? & ? & ->).
        exists (S i), c', a'. by rewrite Nat.add_succ_r.
    + intros Hin. destruct (IH _ _ Hin) as (i & c' & a' & ? & ? & ? & ->).
      exists (S i), c', a'. by rewrite Nat.add_succ_r.
Qed.

Lemma geocode_requests_length sid l : forall idx,
  (length (geocode_requests str_field sid idx l)
   <= length (filter (fun c => truthy (title c) = true) l))%nat.
Proof.
  induction l as [|c l IH]; intros idx; cbn [geocode_requests]; [done|].
  fold (title c). rewrite filter_cons. destruct (truthy (title c)) eqn:Et.
  - rewrite decide_True by done. destruct (str_field (title c)); cbn; [|lia].
    specialize (IH (S idx)). lia.
  - rewrite decide_False by congruence. apply IH.
Qed.

Lemma geocode_requests_strings sid l :
  (forall s, str_field (VStr s) = Some s) ->
  Forall (fun c => exists s, c !! "title" = Some (VStr s) /\ s <> "") l ->
  forall idx, geocode_requests str_field sid idx l
    = imap (fun i c => mapbox_request (title_text c) (composite_id sid (idx + i))) l.
Proof.
  intros Hstr. induction 1 as [|c l (s & Hs & Hne) _ IH]; intros idx; [done|].
  cbn [geocode_requests]. rewrite imap_cons. unfold dict_get, title_text at 1.
  rewrite Hs. cbn [truthy]. rewrite Hstr.
  destruct (String.eqb s "") eqn:E; [apply String.eqb_eq in E; contradiction|].
  cbn [negb]. rewrite Nat.add_0_r. f_equal. rewrite IH.
  apply imap_ext. intros i x _. cbn. by rewrite Nat.add_succ_r.
Qed.

Lemma handle_research_sent (msg : ResearchResponse.t) sessions cands :
  ResearchResponse.raw_search_results msg = Some cands ->
  snd (handle_research str_field msg sessions)
  = geocode_requests str_field (ResearchResponse.session_id msg) 0 (take 5 cands).
Proof.
  intros H. unfold handle_research. cbv zeta. rewrite H. destruct cands; reflexivity.
Qed.

(** C5 (amended).  For a property-search reply with more than five hits
    (and a [str] validation that accepts strings): at most five geocoding
    requests are sent; each is tagged with the composite token of an index
    below 5 whose hit has a truthy title, so the hits from index 5 on never
    get one; and when each of the first five hits has a non-empty string as
    its title, exactly five are sent, tagged 0 to 4 in this order. *)
Theorem fan_out_follows_titles (msg : ResearchResponse.t)
    (sessions : gmap string Session) (cands : list (gmap string Value)) :
  ResearchResponse.raw_search_results msg = Some cands ->
  (5 < length cands)%nat ->
  (forall s, str_field (VStr s) = Some s) ->
  let sid := ResearchResponse.session_id msg in
  let sent := snd (handle_research str_field msg sessions) in
  (length sent <= 5)%nat /\
  (forall o, o ∈ sent ->
     exists (i : nat) c a, (i < 5)%nat /\ cands !! i = Some c /\
       truthy (title c) = true /\ o = mapbox_request a (composite_id sid i)) /\
  ((forall (i : nat) c, (i < 5)%nat -> cands !! i = Some c ->
      exists s, c !! "title" = Some (VStr s) /\ s <> "") ->
   sent = imap (fun i c => mapbox_request (title_text c) (composite_id sid i))
               (take 5 cands) /\
   length sent = 5%nat).
Proof.
  intros Hraw Hlen Hstr sid sent. subst sent sid.
  rewrite (handle_research_sent _ _ _ Hraw). split; [|split].
  - etrans; [apply geocode_requests_length|].
    etrans; [apply length_filter|]. rewrite length_take. lia.
  - intros o Ho. apply geocode_requests_elem in Ho as (i & c & a & Hi & Ht & _ & ->).
    apply lookup_take_Some in Hi as [Hi Hlt].
    exists i, c, a. done.
  - intros Hall.
    assert (Hf : Forall (fun c => exists s, c !! "title" = Some (VStr s) /\ s <> "")
                   (take 5 cands)).
    { apply Forall_forall. intros c Hc. apply elem_of_take in Hc as (i & Hi & Hlt). eauto. }
    rewrite (geocode_requests_strings _ _ Hstr Hf). split; [done|].
    rewrite length_imap, length_take. lia.
Qed.

Lemma handle_geocode_request_session_id q g :
  MapboxResponse.session_id (handle_geocode_request q g) = MapboxRequest.session_id q.
Proof. by destruct g. Qed.




(** ** What a wait keeps *)

Lemma sleepn_sessions_arrivals k r :
  sessions (sleepn str_field k r) = fst (deliver str_field (arrivals k r) (sessions r)).
Proof. apply sleepn_sessions. Qed.

Lemma sleepn_outbox_arrivals k r :
  outbox (sleepn str_field k r) = outbox r ++ (arrivals k r ≫= reaction str_field).
Proof. apply sleepn_outbox. Qed.

Lemma sleepn_invariant (I : Session -> Prop) sid k n r :
  (k <= n)%nat ->
  (forall m, m ∈ arrivals n r -> forall s, I s -> I (apply_effect (effect m) sid s)) ->
  I (session (sessions r) sid) ->
  I (session (sessions (sleepn str_field k r)) sid).
Proof.
  intros Hk Hall HI. rewrite sleepn_sessions_arrivals.
  apply deliver_invariant; [|done]. apply Forall_forall. intros m Hm.
  apply Hall. by eapply arrivals_mono.
Qed.

Lemma begin_chat_inbox req r : inbox (begin_chat req r) = inbox r.
Proof. done. Qed.

Lemma begin_chat_outbox req r :
  outbox (begin_chat req r)
  = outbox r ++ [ToScoping {| ScopingRequest.user_message := ChatRequest.message req;
                              ScopingRequest.session_id := ChatRequest.session_id req |}].
Proof. done. Qed.

Lemma begin_chat_session req r sid :
  session (sessions (begin_chat req r)) sid =
  if decide (ChatRequest.session_id req = sid)
  then set_research None (set_scoping None (session (sessions r) sid))
  else session (sessions r) sid.
Proof.
  unfold begin_chat, send, with_sessions. cbn [sessions].
  rewrite !session_modify, session_ensure. by case_decide.
Qed.

Lemma arrivals_begin_chat n req r : arrivals n (begin_chat req r) = arrivals n r.
Proof. done. Qed.

Lemma has_scoping_false sid r :
  scoping (session (sessions r) sid) = None -> has_scoping sid r = false.
Proof. unfold has_scoping. intros ->. apply bool_decide_eq_false. by intros [? ?]. Qed.

Lemma has_research_false sid r :
  research (session (sessions r) sid) = None -> has_research sid r = false.
Proof. unfold has_research. intros ->. apply bool_decide_eq_false. by intros [? ?]. Qed.


(** Who reacts to what: every message the handlers send answers one reply. *)
Lemma reaction_elem m o :
  o ∈ reaction str_field m ->
  match o with
  | ToScoping _ => False
  | ToResearch q => exists msg, m = FromScoping msg /\
      ResearchRequest.session_id q = ScopingResponse.session_id msg
  | ToGeneral q => exists msg, m = FromScoping msg /\
      GeneralRequest.session_id q = ScopingResponse.session_id msg
  | ToMapbox q => exists msg (i : nat), m = FromResearch msg /\
      MapboxRequest.session_id q = composite_id (ResearchResponse.session_id msg) i
  | ToLocalDiscovery q => exists msg idx, m = FromMapbox msg /\
      parse_session_id (MapboxResponse.session_id msg)
        = Composite (LocalDiscoveryRequest.session_id q) idx
  end.
Proof.
  unfold reaction. destruct m as [msg|msg|msg|msg|msg]; cbn [dispatch].
  - unfold handle_scoping. destruct (_ && _); cbn [snd].
    + intros ->%list_elem_of_singleton. by exists msg.
    + destruct (ScopingResponse.is_complete msg), (ScopingResponse.requirements msg);
        cbn [snd]; try by intros ?%elem_of_nil.
      intros ->%list_elem_of_singleton. by exists msg.
  - unfold handle_research. cbv zeta.
    destruct (ResearchResponse.raw_search_results msg) as [[|c l]|]; cbn [snd];
      try by intros ?%elem_of_nil.
    intros (i & c' & a & _ & _ & _ & ->)%geocode_requests_elem. by exists msg, (0 + i)%nat.
  - unfold handle_mapbox.
    destruct (parse_session_id (MapboxResponse.session_id msg)) as [|base idx|] eqn:Ep;
      cbn [snd]; try by intros ?%elem_of_nil.
    destruct (negb _); cbn [snd]; try by intros ?%elem_of_nil.
    intros ->%list_elem_of_singleton. by exists msg, idx.
  - by intros ?%elem_of_nil.
  - by intros ?%elem_of_nil.
Qed.

Lemma scoping_kept_none sid (m : Incoming) s :
  (forall msg, m = FromScoping msg -> ScopingResponse.session_id msg <> sid) ->
  scoping s = None -> scoping (apply_effect (effect m) sid s) = None.
Proof.
  intros Hm Hs. unfold apply_effect, effect.
  destruct m as [msg|msg|msg|msg|msg]; try (case_decide; done).
  - case_decide; [|done]. by destruct (Hm msg).
  - destruct (parse_session_id _); [| |done]; by case_decide.
Qed.

Lemma research_kept_none sid (m : Incoming) s :
  (forall msg, m = FromResearch msg -> ResearchResponse.session_id msg <> sid) ->
  research s = None -> research (apply_effect (effect m) sid s) = None.
Proof.
  intros Hm Hs. unfold apply_effect, effect.
  destruct m as [msg|msg|msg|msg|msg]; try (case_decide; done).
  - case_decide; [|done]. by destruct (Hm msg).
  - destruct (parse_session_id _); [| |done]; by case_decide.
Qed.


(** ** The waits of [handle_chat] *)

Lemma await_scoping_spec req r :
  exists k : nat, (k <= 61)%nat /\
    snd (await_scoping str_field req r) = sleepn str_field k (begin_chat req r) /\
    (if fst (await_scoping str_field req r)
     then has_scoping (ChatRequest.session_id req)
            (sleepn str_field k (begin_chat req r)) = true
     else k = 61%nat).
Proof.
  unfold await_scoping.
  destruct (poll_spec 60 (has_scoping (ChatRequest.session_id req))
              (sleep str_field (begin_chat req r))) as (k & Hk & Hsnd & _ & Hfst).
  exists (S k). split; [lia|]. split; [exact Hsnd|].
  destruct (fst (poll str_field 60 _ _)); [exact Hfst|by f_equal].
Qed.

(** C6 (amended).  If no classification reply for the session is processed
    during the suspensions of the first wait (at most 61), [handle_chat] returns
    [status = "error"] (a timeout message), and of what the coordinator has
    sent when it returns only the scoping request is its own: no research
    and no general request for the session was sent, no geocoding request
    for it unless a research reply for it was processed meanwhile, and no
    point-of-interest request for it unless a geocoding reply for it was.
    Nothing is cancelled: a classification reply for the session that is
    processed after the return, whatever was processed in between, is
    still routed, a general question with its text to the general worker,
    and otherwise a complete search with requirements to the research
    worker. *)
Theorem scoping_timeout_invokes_nothing (req : ChatRequest.t) (r : Run) :
  let t := ChatRequest.session_id req in
  (forall msg, FromScoping msg ∈ arrivals 61 r -> ScopingResponse.session_id msg <> t) ->
  let response := fst (handle_chat str_field str_exn req r) in
  let r' := snd (handle_chat str_field str_exn req r) in
  response = error_response "Timeout waiting for scoping agent" /\
  ChatResponse.status response = "error" /\
  (exists sent,
    outbox r' = outbox r ++
      ToScoping {| ScopingRequest.user_message := ChatRequest.message req;
                   ScopingRequest.session_id := t |} :: sent /\
    (forall q, ToResearch q ∈ sent -> ResearchRequest.session_id q <> t) /\
    (forall q, ToGeneral q ∈ sent -> GeneralRequest.session_id q <> t) /\
    ((forall msg, FromResearch msg ∈ arrivals 61 r -> ResearchResponse.session_id msg <> t) ->
     forall q (i : nat), ToMapbox q ∈ sent -> MapboxRequest.session_id q <> composite_id t i) /\
    ((forall msg idx, FromMapbox msg ∈ arrivals 61 r ->
        parse_session_id (MapboxResponse.session_id msg) <> Composite t idx) ->
     forall q, ToLocalDiscovery q ∈ sent -> LocalDiscoveryRequest.session_id q <> t)) /\
  forall (between : list Incoming) (late : ScopingResponse.t),
    ScopingResponse.session_id late = t ->
    let store := fst (deliver str_field between (sessions r')) in
    let routed := snd (dispatch str_field (FromScoping late) store) in
    (forall question,
       ScopingResponse.is_general_question late = true ->
       ScopingResponse.general_question late = Some question -> question <> "" ->
       routed = [ToGeneral {| GeneralRequest.question := question;
                              GeneralRequest.session_id := t |}]) /\
    (forall requirements,
       ScopingResponse.is_general_question late
         && truthy_str (ScopingResponse.general_question late) = false ->
       ScopingResponse.is_complete late = true ->
       ScopingResponse.requirements late = Some requirements ->
       routed = [ToResearch {| ResearchRequest.requirements := requirements;
                               ResearchRequest.session_id := t |}]).
Proof.
  intros t Hno response r'. subst response r'.
  unfold handle_chat. fold t.
  destruct (await_scoping_spec req r) as (k & Hk & Hsnd & Hfst). fold t in Hfst.
  assert (Hnone : scoping (session (sessions (sleepn str_field k (begin_chat req r))) t) = None).
  { apply (sleepn_invariant (fun s => scoping s = None) t k 61); [done| |].
    - intros m Hm s. apply scoping_kept_none. intros msg ->. by apply Hno.
    - rewrite begin_chat_session, decide_True by done. done. }
  destruct (await_scoping str_field req r) as [[|] r1] eqn:Ep;
    cbn [fst snd] in *; subst r1.
  { by rewrite has_scoping_false in Hfst. }
  subst k. cbn [fst snd]. split; [done|]. split; [done|]. split.
  { exists (arrivals 61 r ≫= reaction str_field).
    rewrite sleepn_outbox_arrivals, begin_chat_outbox, arrivals_begin_chat.
    split; [by rewrite <- app_assoc|].
    repeat split.
    - intros q (m & Hq & Hm)%list_elem_of_bind.
      apply reaction_elem in Hq as (msg & -> & ->). by apply Hno.
    - intros q (m & Hq & Hm)%list_elem_of_bind.
      apply reaction_elem in Hq as (msg & -> & ->). by apply Hno.
    - intros Hres q i (m & Hq & Hm)%list_elem_of_bind.
      apply reaction_elem in Hq as (msg & j & -> & ->).
      intros Heq%composite_id_inj_sid. by apply (Hres msg).
    - intros Hmap q (m & Hq & Hm)%list_elem_of_bind.
      apply reaction_elem in Hq as (msg & idx & -> & Hp). intros <-.
      by apply (Hmap msg idx). }
  intros between late Hlate. cbn [dispatch].
  rewrite handle_scoping_sent. unfold scoping_reaction, handle_scoping. rewrite Hlate.
  split.
  - intros question -> -> Hq. cbn [truthy_str andb default].
    destruct (String.eqb_spec question "") as [->|_]; [done|]. done.
  - intros requirements -> -> ->. done.
Qed.

(** C7 (amended).  If the classification that [handle_chat] reads marks the
    request as a complete property search with requirements and not as a
    general question, the session holds no research reply when the
    classification is read, and no research reply for the session is
    processed during the sixty suspensions of the research wait, then
    [handle_chat] returns [status = "error"] with the message that the
    research agent did not respond in time. *)
Theorem research_timeout_is_an_error (req : ChatRequest.t) (r r1 : Run)
    (scoping_msg : ScopingResponse.t) (requirements : UserRequirements.t) :
  let t := ChatRequest.session_id req in
  await_scoping str_field req r = (true, r1) ->
  scoping (session (sessions r1) t) = Some scoping_msg ->
  ScopingResponse.is_general_question scoping_msg = false ->
  ScopingResponse.is_complete scoping_msg = true ->
  ScopingResponse.requirements scoping_msg = Some requirements ->
  research (session (sessions r1) t) = None ->
  (forall msg, FromResearch msg ∈ arrivals 60 r1 -> ResearchResponse.session_id msg <> t) ->
  let response := fst (handle_chat str_field str_exn req r) in
  response = error_response "Research agent did not respond in time" /\
  ChatResponse.status response = "error".
Proof.
  intros t Hawait Hsc Hgen Hcomplete Hreq Hstart Hno response. subst response.
  unfold handle_chat. fold t. rewrite Hawait, Hsc.
  unfold general_stage. rewrite Hgen.
  unfold research_stage, fallback_response. rewrite Hcomplete, Hreq.
  unfold await_research.
  destruct (poll_spec 60 (has_research t) r1) as (k2 & Hk2 & Hsnd2 & _ & _).
  rewrite Hsnd2.
  assert (Hnone : research (session (sessions (sleepn str_field k2 r1)) t) = None).
  { apply (sleepn_invariant (fun s => research s = None) t _ 60); [lia| |exact Hstart].
    intros m Hm s. apply research_kept_none. intros msg ->. by apply Hno. }
  rewrite Hnone. done.
Qed.


(** ** A general question on a session that holds no earlier answer *)

(** Once a reply of a batch establishes a property that every reply keeps,
    the property holds after the batch. *)
Lemma deliver_reaches (P : Session -> Prop) sid batch sessions m :
  m ∈ batch ->
  (forall s, P (apply_effect (effect m) sid s)) ->
  (forall m' s, P s -> P (apply_effect (effect m') sid s)) ->
  P (session (fst (deliver str_field batch sessions)) sid).
Proof.
  intros Hin Hset Hkeep. apply list_elem_of_split in Hin as (b1 & b2 & ->).
  rewrite deliver_app. change (m :: b2) with ([m] ++ b2). rewrite deliver_app.
  apply deliver_invariant; [apply Forall_forall; intros; by apply Hkeep|].
  cbn [deliver]. pose proof (dispatch_session m
    (fst (deliver str_field b1 sessions)) sid) as Hs.
  destruct (dispatch str_field m _) as [s1 o1]. cbn [fst] in *. rewrite Hs. apply Hset.
Qed.

Lemma general_stays sid (m : Incoming) s :
  is_Some (general s) -> is_Some (general (apply_effect (effect m) sid s)).
Proof.
  intros Hs. unfold apply_effect, effect.
  destruct m as [msg|msg|msg|msg|msg];
    try destruct (parse_session_id _); try case_decide; cbn; eauto.
Qed.

Lemma general_answer_kept sid a (m : Incoming) s :
  (forall msg, m = FromGeneral msg -> GeneralResponse.session_id msg = sid ->
     GeneralResponse.answer msg = a) ->
  (forall g, general s = Some g -> GeneralResponse.answer g = a) ->
  forall g, general (apply_effect (effect m) sid s) = Some g -> GeneralResponse.answer g = a.
Proof.
  intros Hm Hs. unfold apply_effect, effect.
  destruct m as [msg|msg|msg|msg|msg];
    try destruct (parse_session_id _); try case_decide; cbn; eauto.
  intros g [= <-]. by apply Hm.
Qed.

(** X2.  On a session that holds no earlier answer, when the request is
    classified as a general question and an answer for the session is in the
    store after the first wait or is processed during the 60 suspensions of
    the second, and every answer for the session that is processed carries
    the text [a], [handle_chat] returns the conversation response whose
    summary is [a], with no requirements and no properties. *)
Theorem fresh_general_answer_returned (req : ChatRequest.t) (r r1 : Run)
    (scoping_msg : ScopingResponse.t) (a : string) :
  let t := ChatRequest.session_id req in
  general (session (sessions r) t) = None ->
  await_scoping str_field req r = (true, r1) ->
  scoping (session (sessions r1) t) = Some scoping_msg ->
  ScopingResponse.is_general_question scoping_msg = true ->
  (forall msg, FromGeneral msg ∈ arrivals 121 r ->
     GeneralResponse.session_id msg = t -> GeneralResponse.answer msg = a) ->
  (is_Some (general (session (sessions r1) t)) \/
   exists msg, FromGeneral msg ∈ arrivals 60 r1 /\ GeneralResponse.session_id msg = t) ->
  fst (handle_chat str_field str_exn req r) = conversation_response ∅ a.
Proof.
  intros t Hnone Hawait Hsc Hgen Hans Harrives.
  unfold handle_chat. fold t. rewrite Hawait, Hsc.
  unfold general_stage. rewrite Hgen.
  destruct (await_scoping_spec req r) as (k1 & Hk1 & Hsnd1 & _).
  rewrite Hawait in Hsnd1. cbn [snd] in Hsnd1.
  destruct (poll_spec 60 (has_general t) r1) as (k2 & Hk2 & Hsnd2 & _ & Hfst).
  set (r2 := snd (poll str_field 60 (has_general t) r1)) in *.
  assert (Hsome : is_Some (general (session (sessions r2) t))).
  { destruct (fst (poll str_field 60 (has_general t) r1)).
    - rewrite <- Hsnd2 in Hfst. unfold has_general in Hfst.
      by apply bool_decide_eq_true in Hfst.
    - subst k2. rewrite Hsnd2. destruct Harrives as [Hs|(msg & Hin & Hsid)].
      + apply (sleepn_invariant (fun s => is_Some (general s)) t 60 60); [done| |done].
        intros m _ s. apply general_stays.
      + rewrite sleepn_sessions_arrivals.
        apply (deliver_reaches (fun s => is_Some (general s)) t _ _ (FromGeneral msg)); [done| |].
        * intros s. unfold apply_effect, effect. rewrite decide_True by done. by eexists.
        * intros m' s. apply general_stays. }
  assert (Hanswer : forall g, general (session (sessions r2) t) = Some g ->
                      GeneralResponse.answer g = a).
  { subst r2. rewrite Hsnd2, Hsnd1, sleepn_add.
    apply (sleepn_invariant
             (fun s => forall g, general s = Some g -> GeneralResponse.answer g = a)
             t _ 121); [lia| |].
    - intros m Hm s. apply general_answer_kept. intros msg ->. by apply Hans.
    - rewrite begin_chat_session, decide_True by done. cbn. by rewrite Hnone. }
  destruct Hsome as [g Hg]. rewrite Hg. cbn [fst]. by rewrite (Hanswer g Hg).
Qed.

(** ** The merge of a search *)

Lemma log_results_ok (l : list (gmap string Value)) :
  Forall (fun e => sliceable (dict_get e "title" (VStr "No title")) = true) l ->
  log_results l = None.
Proof. induction 1 as [|e l He _ IH]; cbn [log_results]; [done|by rewrite He]. Qed.

Lemma research_stays sid (m : Incoming) s :
  is_Some (research s) -> is_Some (research (apply_effect (effect m) sid s)).
Proof.
  intros Hs. unfold apply_effect, effect.
  destruct m as [msg|msg|msg|msg|msg];
    try destruct (parse_session_id _); try case_decide; cbn; eauto.
Qed.

Lemma fresh_fanout_kept sid (m : Incoming) s :
  (forall msg idx, m = FromMapbox msg ->
     parse_session_id (MapboxResponse.session_id msg) <> Composite sid idx) ->
  (forall msg, m = FromLocalDiscovery msg -> LocalDiscoveryResponse.session_id msg <> sid) ->
  fresh_fanout s -> fresh_fanout (apply_effect (effect m) sid s).
Proof.
  intros Hm Hl Hs. unfold apply_effect, effect.
  destruct m as [msg|msg|msg|msg|msg]; try (case_decide; done).
  - case_decide; [|done]. by right.
  - destruct (parse_session_id _) as [|base idx|] eqn:Ep; [by case_decide| |done].
    case_decide; [|done]. subst. by destruct (Hm msg idx).
  - case_decide; [|done]. by destruct (Hl msg).
Qed.

Lemma await_fanout_sleepn sid research_msg r :
  exists k, (k <= 70)%nat /\ await_fanout str_field sid research_msg r = sleepn str_field k r.
Proof.
  unfold await_fanout.
  destruct (ResearchResponse.raw_search_results research_msg) as [[|c l]|];
    try (exists 0%nat; split; [lia|done]).
  set (n := results_count (c :: l)).
  destruct (poll_spec 30 (geocoding_done sid n) r) as (k1 & Hk1 & -> & _).
  destruct (poll_spec 40 (poi_done sid n) (sleepn str_field k1 r))
    as (k2 & Hk2 & -> & _).
  exists (k1 + k2)%nat. split; [lia|apply sleepn_add].
Qed.

(** C4 (amended).  Let the request be classified as a complete property
    search (not a general question) and let the research reply that
    [handle_chat] reads carry the hits [cands].  If neither a geocoding nor
    a point-of-interest reply for the session is processed during the
    suspensions of the call (at most 191), the image lookup raises for none
    of the first five hits (every image entry it gets to has an [index],
    and the first entry for a hit's index has an [image_url]), each of the
    first five hits has a title that is absent, a string or a list, and the
    first hit has no [latitude] of its own without a [longitude], then
    [handle_chat] returns [status = "success"] with [min(n, 5)] merged hits,
    each of which has [pois = []], has as [image_url] that of the first
    image entry of the reply whose [index] equals the hit's index, when
    there is one, and has every other field, the coordinate fields
    included, exactly as the original hit has it or lacks it. *)
Theorem ungeocoded_hits_pass_through (req : ChatRequest.t) (r r1 : Run)
    (scoping_msg : ScopingResponse.t) (requirements : UserRequirements.t)
    (research_msg : ResearchResponse.t) (cands : list (gmap string Value)) :
  let t := ChatRequest.session_id req in
  let images := default [] (ResearchResponse.result_images research_msg) in
  await_scoping str_field req r = (true, r1) ->
  scoping (session (sessions r1) t) = Some scoping_msg ->
  ScopingResponse.is_general_question scoping_msg = false ->
  ScopingResponse.is_complete scoping_msg = true ->
  ScopingResponse.requirements scoping_msg = Some requirements ->
  research (session (sessions (await_research str_field t r1)) t) = Some research_msg ->
  ResearchResponse.raw_search_results research_msg = Some cands ->
  (forall msg idx, FromMapbox msg ∈ arrivals 191 r ->
     parse_session_id (MapboxResponse.session_id msg) <> Composite t idx) ->
  (forall msg, FromLocalDiscovery msg ∈ arrivals 191 r ->
     LocalDiscoveryResponse.session_id msg <> t) ->
  (forall (i : nat) c, (i < 5)%nat -> cands !! i = Some c ->
     ~ image_lookup_raises i images) ->
  (forall (i : nat) c, (i < 5)%nat -> cands !! i = Some c ->
     sliceable (dict_get c "title" (VStr "No title")) = true) ->
  (forall c, cands !! 0%nat = Some c ->
     dict_has c "latitude" = true -> dict_has c "longitude" = true) ->
  let response := fst (handle_chat str_field str_exn req r) in
  exists (enhanced_results : list (gmap string Value)) (top : Value),
    response = search_response requirements research_msg top enhanced_results /\
    ChatResponse.status response = "success" /\
    ChatResponse.data response !! "raw_search_results"
      = Some (VList (VDict <$> enhanced_results)) /\
    length enhanced_results = Nat.min (length cands) 5 /\
    forall (i : nat) c, (i < 5)%nat -> cands !! i = Some c ->
      exists e, enhanced_results !! i = Some e /\
        e !! "pois" = Some (VList []) /\
        (forall k, k <> "pois" -> k <> "image_url" -> e !! k = c !! k) /\
        image_merged i images c e.
Proof.
  intros t images Hawait Hsc Hgen Hcomplete Hreq Hres Hraw Hnomap Hnopoi Himg Htitle Hlat
    response.
  subst response. unfold handle_chat. fold t. rewrite Hawait, Hsc.
  unfold general_stage. rewrite Hgen.
  unfold research_stage. rewrite Hcomplete, Hreq, Hres.
  (* where the run stands when the merge starts *)
  destruct (await_scoping_spec req r) as (k1 & Hk1 & Hsnd1 & _).
  rewrite Hawait in Hsnd1. cbn [snd] in Hsnd1.
  assert (exists k2, (k2 <= 60)%nat /\ await_research str_field t r1 = sleepn str_field k2 r1)
    as (k2 & Hk2 & Hr2).
  { unfold await_research.
    destruct (poll_spec 60 (has_research t) r1) as (k2 & ? & ? & _). eauto. }
  destruct (await_fanout_sleepn t research_msg (await_research str_field t r1))
    as (k3 & Hk3 & Hr3).
  set (r3 := await_fanout str_field t research_msg (await_research str_field t r1)) in *.
  assert (Hsome : is_Some (research (session (sessions r3) t))).
  { rewrite Hr3. apply (sleepn_invariant (fun s => is_Some (research s)) t k3 k3);
      [done| |by rewrite Hres].
    intros m _ s. apply research_stays. }
  assert (Hfresh : fresh_fanout (session (sessions r3) t)).
  { rewrite Hr3, Hr2, Hsnd1, !sleepn_add.
    apply (sleepn_invariant fresh_fanout t _ 191); [lia| |].
    - intros m Hm s. apply fresh_fanout_kept.
      + intros msg idx ->. by apply Hnomap.
      + intros msg ->. by apply Hnopoi.
    - left. rewrite begin_chat_session, decide_True by done. done. }
  destruct Hfresh as [Hnone|[Hgeo Hpoi]]; [rewrite Hnone in Hsome; by destruct Hsome|].
  (* the merge *)
  set (enhanced := imap (passed_through images) (take 5 cands)).
  assert (Hlookup : forall (i : nat) c, (i < 5)%nat -> cands !! i = Some c ->
            enhanced !! i = Some (passed_through images i c)).
  { intros i c Hi Hc. subst enhanced. rewrite list_lookup_imap, lookup_take_lt by done.
    by rewrite Hc. }
  assert (Hlog : log_results enhanced = None).
  { apply log_results_ok, Forall_forall. intros e He.
    apply list_elem_of_lookup in He as (i & He). subst enhanced.
    rewrite list_lookup_imap in He.
    destruct (take 5 cands !! i) as [c|] eqn:Ec; [|discriminate]. injection He as <-.
    apply lookup_take_Some in Ec as [Ec Hi].
    unfold dict_get. rewrite passed_through_other by done. by apply (Htitle i). }
  assert (Htop : exists top, top_result_coordinates enhanced = inr top).
  { unfold top_result_coordinates. destruct enhanced as [|first rest] eqn:Ee; [by eexists|].
    destruct (dict_has first "latitude") eqn:Hhas; [|by eexists].
    destruct cands as [|c0 cands'] eqn:Ec; [discriminate|].
    assert (first = passed_through images 0 c0) as ->.
    { specialize (Hlookup 0%nat c0). cbn in Hlookup.
      assert (Some first = Some (passed_through images 0 c0)) as [= ->]; [|done].
      apply Hlookup; [lia|done]. }
    unfold dict_has in Hhas. apply bool_decide_eq_true in Hhas as [lat Hlat'].
    assert (is_Some (passed_through images 0 c0 !! "longitude")) as [lon Hlon].
    { rewrite passed_through_other in Hlat' |- * by done.
      specialize (Hlat c0 eq_refl). unfold dict_has in Hlat.
      rewrite !bool_decide_eq_true in Hlat. apply Hlat. by eexists. }
    rewrite Hlat', Hlon. by eexists. }
  destruct Htop as [top Htop].
  assert (Hmerge : merge research_msg (session (sessions r3) t) = inr (enhanced, top)).
  { unfold merge. rewrite Hraw, Hgeo, Hpoi. fold images.
    rewrite (enhance_results_imap [] images [] (passed_through images) (take 5 cands) 0).
    - change (imap (fun i => passed_through images (0 + i)) (take 5 cands)) with enhanced.
      by rewrite Hlog, Htop.
    - intros i c [Hc Hi]%lookup_take_Some. apply enhance_passed_through. by eapply Himg. }
  rewrite Hmerge. cbn [fst]. exists enhanced, top.
  split; [done|]. split; [done|]. split; [done|]. split.
  - subst enhanced. rewrite length_imap, length_take. lia.
  - intros i c Hi Hc. exists (passed_through images i c).
    split; [by apply Hlookup|]. split; [apply passed_through_pois|].
    split; [intros; by apply passed_through_other|].
    apply passed_through_image. by eapply Himg.
Qed.

End Properties.

(** * Further properties of the coordinator and of its workers *)

Section Answers.
Variable str_field : Value -> option string.
Variable str_exn : Exn -> string.

(** ** The stages of [handle_chat] as suspensions *)

Lemma general_stage_sleepn sid scoping_msg r :
  exists k, (k <= 60)%nat /\
    snd (general_stage str_field sid scoping_msg r) = sleepn str_field k r.
Proof.
  unfold general_stage. destruct (ScopingResponse.is_general_question scoping_msg).
  - destruct (poll_spec str_field 60 (has_general sid) r) as (k & Hk & Hsnd & _).
    exists k. split; [done|]. by destruct (general _).
  - exists 0%nat. split; [lia|done].
Qed.

Lemma await_research_sleepn sid r :
  exists k, (k <= 60)%nat /\ await_research str_field sid r = sleepn str_field k r.
Proof.
  unfold await_research.
  destruct (poll_spec str_field 60 (has_research sid) r) as (k & ? & ? & _). eauto.
Qed.

Lemma research_stage_sleepn sid scoping_msg r :
  exists k, (k <= 130)%nat /\
    snd (research_stage str_field str_exn sid scoping_msg r) = sleepn str_field k r.
Proof.
  unfold research_stage.
  destruct (ScopingResponse.is_complete scoping_msg),
    (ScopingResponse.requirements scoping_msg) as [requirements|];
    try (exists 0%nat; split; [lia|done]).
  destruct (await_research_sleepn sid r) as (k1 & Hk1 & ->).
  destruct (research _) as [research_msg|]; [|exists k1; split; [lia|done]].
  destruct (await_fanout_sleepn str_field sid research_msg (sleepn str_field k1 r))
    as (k2 & Hk2 & ->).
  exists (k1 + k2)%nat. split; [lia|]. rewrite sleepn_add. by destruct (merge _ _) as [?|[? ?]].
Qed.

Lemma handle_chat_sleepn req r :
  exists k, (k <= 251)%nat /\
    snd (handle_chat str_field str_exn req r) = sleepn str_field k (begin_chat req r).
Proof.
  unfold handle_chat.
  destruct (await_scoping_spec str_field req r) as (k1 & Hk1 & Hsnd & _).
  destruct (await_scoping str_field req r) as [[] r1]; cbn [snd] in Hsnd; subst r1;
    [|exists k1; split; [lia|done]].
  destruct (scoping _) as [scoping_msg|]; [|exists k1; split; [lia|done]].
  destruct (general_stage_sleepn (ChatRequest.session_id req) scoping_msg
              (sleepn str_field k1 (begin_chat req r))) as (k2 & Hk2 & Hg).
  destruct (general_stage _ _ _ _) as [[response|] r2]; cbn [snd] in Hg; subst r2.
  { exists (k1 + k2)%nat. split; [lia|]. by rewrite sleepn_add. }
  destruct (research_stage_sleepn (ChatRequest.session_id req) scoping_msg
              (sleepn str_field k2 (sleepn str_field k1 (begin_chat req r))))
    as (k3 & Hk3 & Hr).
  exists (k1 + k2 + k3)%nat. split; [lia|]. rewrite <- !sleepn_add.
  by destruct (research_stage _ _ _ _ _) as [[response|] r3]; cbn [snd] in Hr |- *.
Qed.

(** X3.  Whatever it answers, [handle_chat] suspends at most 251 times and
    sends one message of its own, the scoping request: when it returns, the
    inbox has lost the batches of these suspensions, the store is that of
    [begin_chat] after the handlers processed them, and the outbox holds,
    behind what it held, the scoping request and then the handlers'
    reactions to the replies processed, in order. *)
Theorem handle_chat_sends_one_request (req : ChatRequest.t) (r : Run) :
  exists k : nat, (k <= 251)%nat /\
    let r' := snd (handle_chat str_field str_exn req r) in
    inbox r' = drop k (inbox r) /\
    sessions r' = fst (deliver str_field (arrivals k r) (sessions (begin_chat req r))) /\
    outbox r' = outbox r ++ scoping_request req :: (arrivals k r ≫= reaction str_field).
Proof.
  destruct (handle_chat_sleepn req r) as (k & Hk & Hr). exists k. split; [done|].
  cbn zeta. rewrite Hr. split; [|split].
  - by rewrite sleepn_inbox.
  - by rewrite sleepn_sessions_arrivals.
  - rewrite sleepn_outbox_arrivals, begin_chat_outbox, arrivals_begin_chat.
    by rewrite <- app_assoc.
Qed.


(** ** The shape of the response *)

Lemma merge_inr research_msg s enhanced_results top :
  merge research_msg s = inr (enhanced_results, top) ->
  exists cands, ResearchResponse.raw_search_results research_msg = Some cands /\
    enhance_results (get_geocoded_results s)
      (default [] (ResearchResponse.result_images research_msg))
      (get_poi_results s) 0 (take 5 cands)
    = inr enhanced_results /\
    log_results enhanced_results = None /\
    top_result_coordinates enhanced_results = inr top.
Proof.
  unfold merge. destruct (ResearchResponse.raw_search_results research_msg) as [cands|];
    [|discriminate].
  destruct (enhance_results _ _ _ _ _) as [e|enhanced] eqn:He; [discriminate|].
  destruct (log_results _) eqn:Hlog; [discriminate|].
  destruct (top_result_coordinates _) as [e|top'] eqn:Htop; [discriminate|].
  intros [= <- <-]. by exists cands.
Qed.

Lemma research_stage_response sid scoping_msg r response :
  fst (research_stage str_field str_exn sid scoping_msg r) = Some response ->
  (exists message, response = error_response message) \/
  (exists requirements research_msg top enhanced_results,
     response = search_response requirements research_msg top enhanced_results /\
     (length enhanced_results <= 5)%nat).
Proof.
  unfold research_stage.
  destruct (ScopingResponse.is_complete scoping_msg),
    (ScopingResponse.requirements scoping_msg) as [requirements|]; try discriminate.
  destruct (research _) as [research_msg|]; [|discriminate].
  destruct (merge _ _) as [e|[enhanced_results top]] eqn:Hmerge; intros [= <-].
  - left. by eexists.
  - right. exists requirements, research_msg, top, enhanced_results. split; [done|].
    apply merge_inr in Hmerge as (cands & _ & [-> _]%enhance_results_inr & _).
    rewrite length_take. lia.
Qed.

Lemma error_response_shape message : response_shape (error_response message).
Proof. left. split; [reflexivity|]. exists message. reflexivity. Qed.

Lemma conversation_response_shape requirements summary :
  response_shape (conversation_response requirements summary).
Proof.
  right. split; [reflexivity|]. split.
  - exists requirements, [], summary, 0. repeat split; vm_compute; reflexivity.
  - left. split; vm_compute; reflexivity.
Qed.

Lemma search_response_shape requirements research_msg top enhanced_results :
  (length enhanced_results <= 5)%nat ->
  response_shape (search_response requirements research_msg top enhanced_results).
Proof.
  intros Hlen. right. split; [reflexivity|]. split.
  - eexists _, _, _, _. repeat split; vm_compute; reflexivity.
  - right. exists enhanced_results, top.
    split; [vm_compute; reflexivity|]. split; [exact Hlen|vm_compute; reflexivity].
Qed.

Lemma general_stage_response sid scoping_msg r response :
  fst (general_stage str_field sid scoping_msg r) = Some response ->
  exists general_msg,
    general (session (sessions (snd (general_stage str_field sid scoping_msg r))) sid)
      = Some general_msg /\
    response = conversation_response ∅ (GeneralResponse.answer general_msg).
Proof.
  unfold general_stage.
  destruct (ScopingResponse.is_general_question scoping_msg); [|discriminate].
  destruct (general _) as [general_msg|] eqn:Hg; [|discriminate].
  cbn [fst snd]. intros [= <-]. by exists general_msg.
Qed.

(** X4.  Every response of [handle_chat] has one of two shapes.  Either its
    status is ["error"] and its data is the single entry [message], a string.
    Or its status is ["success"] and its data holds [requirements] (an
    object), [properties] (a list), [search_summary] (a string) and
    [total_found] (an integer); the success data holds [raw_search_results]
    and [top_result_coordinates] together or not at all, and the merged hits
    are objects, at most five of them. *)
Theorem response_is_error_or_success (req : ChatRequest.t) (r : Run) :
  response_shape (fst (handle_chat str_field str_exn req r)).
Proof.
  unfold handle_chat.
  destruct (await_scoping str_field req r) as [[] r1]; cbn [fst];
    [|apply error_response_shape].
  destruct (scoping _) as [scoping_msg|]; cbn [fst]; [|apply error_response_shape].
  pose proof (general_stage_response (ChatRequest.session_id req) scoping_msg r1) as Hg.
  destruct (general_stage _ _ _ _) as [[response|] r2]; cbn [fst] in *.
  { destruct (Hg response eq_refl) as (general_msg & _ & ->).
    apply conversation_response_shape. }
  clear Hg.
  pose proof (research_stage_response (ChatRequest.session_id req) scoping_msg r2) as Hr.
  destruct (research_stage _ _ _ _ _) as [[response|] r3]; cbn [fst] in *.
  - destruct (Hr response eq_refl)
      as [[message ->]|(q & research_msg & top & enhanced & -> & Hlen)];
      [apply error_response_shape|by apply search_response_shape].
  - unfold fallback_response.
    destruct (ScopingResponse.is_complete scoping_msg),
      (ScopingResponse.requirements scoping_msg);
      apply error_response_shape || apply conversation_response_shape.
Qed.


(** ** The answers that need no search *)

Lemma general_kept_none sid (m : Incoming) s :
  (forall msg, m = FromGeneral msg -> GeneralResponse.session_id msg <> sid) ->
  general s = None -> general (apply_effect (effect m) sid s) = None.
Proof.
  intros Hm Hs. unfold apply_effect, effect.
  destruct m as [msg|msg|msg|msg|msg]; try (case_decide; done).
  - destruct (parse_session_id _); [| |done]; by case_decide.
  - case_decide; [|done]. by destruct (Hm msg).
Qed.

(** X5.  When the classification that [handle_chat] reads is neither a
    general question nor a complete search with requirements, it answers at
    once, without a further suspension: status ["success"], the agent's
    message as the summary, the requirements gathered so far (an empty
    object when there are none), no properties. *)
Theorem unfinished_scoping_is_answered_at_once (req : ChatRequest.t) (r r1 : Run)
    (scoping_msg : ScopingResponse.t) :
  let t := ChatRequest.session_id req in
  await_scoping str_field req r = (true, r1) ->
  scoping (session (sessions r1) t) = Some scoping_msg ->
  ScopingResponse.is_general_question scoping_msg = false ->
  ScopingResponse.is_complete scoping_msg = false \/
    ScopingResponse.requirements scoping_msg = None ->
  handle_chat str_field str_exn req r
  = (conversation_response
       (match ScopingResponse.requirements scoping_msg with
        | Some requirements => UserRequirements.dict requirements
        | None => ∅
        end)
       (ScopingResponse.agent_message scoping_msg), r1).
Proof.
  intros t Hawait Hsc Hgen Hnot. unfold handle_chat. fold t. rewrite Hawait, Hsc.
  unfold general_stage, research_stage, fallback_response. rewrite Hgen.
  destruct Hnot as [->| ->]; [by destruct (ScopingResponse.requirements scoping_msg)|].
  by destruct (ScopingResponse.is_complete scoping_msg).
Qed.

(** X6.  A general question whose answer does not come is not an error.  On a
    session that holds no earlier answer, when the classification is a
    general question (and not also a complete search) and no answer for the
    session is processed during the suspensions up to the end of the general
    wait, [handle_chat] sleeps through all 60 turns of that wait and then
    answers with status ["success"] and the scoping agent's message as the
    summary. *)
Theorem general_timeout_falls_back (req : ChatRequest.t) (r r1 : Run)
    (scoping_msg : ScopingResponse.t) :
  let t := ChatRequest.session_id req in
  general (session (sessions r) t) = None ->
  await_scoping str_field req r = (true, r1) ->
  scoping (session (sessions r1) t) = Some scoping_msg ->
  ScopingResponse.is_general_question scoping_msg = true ->
  ScopingResponse.is_complete scoping_msg = false \/
    ScopingResponse.requirements scoping_msg = None ->
  (forall msg, FromGeneral msg ∈ arrivals 121 r -> GeneralResponse.session_id msg <> t) ->
  handle_chat str_field str_exn req r
  = (conversation_response
       (match ScopingResponse.requirements scoping_msg with
        | Some requirements => UserRequirements.dict requirements
        | None => ∅
        end)
       (ScopingResponse.agent_message scoping_msg), sleepn str_field 60 r1) /\
  ChatResponse.status (fst (handle_chat str_field str_exn req r)) = "success".
Proof.
  intros t Hnone Hawait Hsc Hgen Hnot Hno.
  destruct (await_scoping_spec str_field req r) as (k1 & Hk1 & Hsnd1 & _).
  rewrite Hawait in Hsnd1. cbn [snd] in Hsnd1.
  assert (Hstill : forall k, (k <= 60)%nat ->
            general (session (sessions (sleepn str_field k r1)) t) = None).
  { intros k Hk. rewrite Hsnd1, sleepn_add.
    apply (sleepn_invariant str_field (fun s => general s = None) t _ 121); [lia| |].
    - intros m Hm s. apply general_kept_none. intros msg ->. by apply Hno.
    - rewrite begin_chat_session, decide_True by done. exact Hnone. }
  destruct (poll_spec str_field 60 (has_general t) r1) as (k2 & Hk2 & Hsnd2 & _ & Hfst).
  assert (k2 = 60%nat) as ->.
  { destruct (fst (poll str_field 60 (has_general t) r1)); [|done].
    unfold has_general in Hfst. apply bool_decide_eq_true in Hfst.
    rewrite (Hstill k2 Hk2) in Hfst. by destruct Hfst. }
  assert (Heq : handle_chat str_field str_exn req r
    = (conversation_response
         (match ScopingResponse.requirements scoping_msg with
          | Some requirements => UserRequirements.dict requirements
          | None => ∅
          end)
         (ScopingResponse.agent_message scoping_msg), sleepn str_field 60 r1)).
  { unfold handle_chat. fold t. rewrite Hawait, Hsc.
    unfold general_stage. rewrite Hgen, Hsnd2, (Hstill 60%nat) by done.
    unfold research_stage, fallback_response.
    destruct Hnot as [->| ->]; [by destruct (ScopingResponse.requirements scoping_msg)|].
    by destruct (ScopingResponse.is_complete scoping_msg). }
  split; [exact Heq|]. by rewrite Heq.
Qed.

(** ** A research reply with no hit *)

(** X7.  A research reply that carries no [raw_search_results] (the default
    of the model) makes a complete search fail: [handle_chat] does not wait
    for any geocoding, the merge raises on the missing list, and the answer
    is status ["error"] with that exception as its message, whatever
    properties the reply carries; the reply itself set off no geocoding
    request. *)
Theorem research_without_hit_list_is_an_error (req : ChatRequest.t) (r r1 : Run)
    (scoping_msg : ScopingResponse.t) (requirements : UserRequirements.t)
    (research_msg : ResearchResponse.t) :
  let t := ChatRequest.session_id req in
  await_scoping str_field req r = (true, r1) ->
  scoping (session (sessions r1) t) = Some scoping_msg ->
  ScopingResponse.is_general_question scoping_msg = false ->
  ScopingResponse.is_complete scoping_msg = true ->
  ScopingResponse.requirements scoping_msg = Some requirements ->
  research (session (sessions (await_research str_field t r1)) t) = Some research_msg ->
  ResearchResponse.raw_search_results research_msg = None ->
  handle_chat str_field str_exn req r
  = (error_response (str_exn NoneNotSubscriptable), await_research str_field t r1) /\
  reaction str_field (FromResearch research_msg) = [].
Proof.
  intros t Hawait Hsc Hgen Hcomplete Hreq Hres Hraw. split.
  - unfold handle_chat. fold t. rewrite Hawait, Hsc.
    unfold general_stage. rewrite Hgen.
    unfold research_stage. rewrite Hcomplete, Hreq, Hres.
    unfold await_fanout. rewrite Hraw. unfold merge. by rewrite Hraw.
  - unfold reaction. cbn [dispatch]. unfold handle_research. by rewrite Hraw.
Qed.

(** X8.  A research reply whose hit list is empty is a success with nothing
    to show on the map: no geocoding request is sent for it, [handle_chat]
    does not wait for any, and it answers status ["success"] with the
    reply's properties, summary and total, an empty [raw_search_results] and
    no [top_result_coordinates]. *)
Theorem empty_hit_list_succeeds (req : ChatRequest.t) (r r1 : Run)
    (scoping_msg : ScopingResponse.t) (requirements : UserRequirements.t)
    (research_msg : ResearchResponse.t) :
  let t := ChatRequest.session_id req in
  await_scoping str_field req r = (true, r1) ->
  scoping (session (sessions r1) t) = Some scoping_msg ->
  ScopingResponse.is_general_question scoping_msg = false ->
  ScopingResponse.is_complete scoping_msg = true ->
  ScopingResponse.requirements scoping_msg = Some requirements ->
  research (session (sessions (await_research str_field t r1)) t) = Some research_msg ->
  ResearchResponse.raw_search_results research_msg = Some [] ->
  handle_chat str_field str_exn req r
  = (search_response requirements research_msg VNone [], await_research str_field t r1) /\
  reaction str_field (FromResearch research_msg) = [].
Proof.
  intros t Hawait Hsc Hgen Hcomplete Hreq Hres Hraw. split.
  - unfold handle_chat. fold t. rewrite Hawait, Hsc.
    unfold general_stage. rewrite Hgen.
    unfold research_stage. rewrite Hcomplete, Hreq, Hres.
    unfold await_fanout. rewrite Hraw. unfold merge. by rewrite Hraw.
  - unfold reaction. cbn [dispatch]. unfold handle_research. by rewrite Hraw.
Qed.


(** ** The merge, hit by hit *)

(** X9.  What a successful merge makes of the hits: the first five hits, in
    their order, one merged object each.  The merged hit [i] takes
    [latitude], [longitude] and [address] from the first geocoded entry
    recorded for index [i] (they replace the hit's own), else keeps the
    hit's own; takes as [image_url] the [image_url] of the first entry of
    the research reply's image list whose [index] equals [i], else keeps
    its own; always has [pois], those of the first POI entry recorded for
    [i] or the empty list; and keeps every other field of the hit as it
    is. *)
Theorem merged_hit_fields (research_msg : ResearchResponse.t) (s : Session)
    (enhanced_results : list (gmap string Value)) (top : Value) :
  merge research_msg s = inr (enhanced_results, top) ->
  exists cands, ResearchResponse.raw_search_results research_msg = Some cands /\
    length enhanced_results = Nat.min (length cands) 5 /\
    forall (i : nat) e, enhanced_results !! i = Some e ->
      exists c, cands !! i = Some c /\
        (forall k, ~ merged_key k -> e !! k = c !! k) /\
        match find_geocoded (Z.of_nat i) (get_geocoded_results s) with
        | Some geocoded =>
            e !! "latitude" = Some (VFloat (GeocodedResult.latitude geocoded)) /\
            e !! "longitude" = Some (VFloat (GeocodedResult.longitude geocoded)) /\
            e !! "address" = Some (VStr (GeocodedResult.address geocoded))
        | None =>
            e !! "latitude" = c !! "latitude" /\
            e !! "longitude" = c !! "longitude" /\
            e !! "address" = c !! "address"
        end /\
        match find_image (Z.of_nat i)
                (default [] (ResearchResponse.result_images research_msg)) with
        | inr (Some image_data) =>
            exists image_url,
              image_data !! "image_url" = Some image_url /\
              e !! "image_url" = Some image_url
        | inr None => e !! "image_url" = c !! "image_url"
        | inl _ => False
        end /\
        e !! "pois"
        = Some (VList (match find_poi (Z.of_nat i) (get_poi_results s) with
                       | Some poi_data => VDict <$> PoiResult.pois poi_data
                       | None => []
                       end)).
Proof.
  intros (cands & Hraw & Hen & _)%merge_inr. exists cands. split; [done|]. split.
  - apply enhance_results_inr in Hen as [-> _]. rewrite length_take. lia.
  - intros i e He.
    destruct (enhance_results_lookup _ _ _ _ _ _ _ _ Hen He) as (c & Hc & Hturn).
    apply lookup_take_Some in Hc as [Hc _]. exists c. split; [done|].
    by apply enhance_inr in Hturn.
Qed.

(** X10.  The map centre of a successful search is read off the first merged
    hit.  When index 0 was geocoded, it is the first geocoded entry recorded
    for index 0: its latitude, longitude and address.  When it was not, the
    first hit's own [latitude] and [longitude] are used if it has them, with
    its own [address], else its [title], else the empty string; and a first
    hit without a [latitude] gives no map centre ([None]).  The image is the
    one the merge put on the first hit: the [image_url] of the first image
    entry whose [index] equals 0, else the hit's own, [None] when it has
    none. *)
Theorem top_coordinates_follow_first_hit (research_msg : ResearchResponse.t) (s : Session)
    (enhanced_results : list (gmap string Value)) (top : Value)
    (c : gmap string Value) (cands : list (gmap string Value)) :
  merge research_msg s = inr (enhanced_results, top) ->
  ResearchResponse.raw_search_results research_msg = Some (c :: cands) ->
  exists image_url : Value,
    match find_image 0 (default [] (ResearchResponse.result_images research_msg)) with
    | inr (Some image_data) => image_data !! "image_url" = Some image_url
    | inr None => image_url = dict_get c "image_url" VNone
    | inl _ => False
    end /\
    match find_geocoded 0 (get_geocoded_results s) with
    | Some geocoded =>
        top = VDict (list_to_map
                [("latitude", VFloat (GeocodedResult.latitude geocoded));
                 ("longitude", VFloat (GeocodedResult.longitude geocoded));
                 ("address", VStr (GeocodedResult.address geocoded));
                 ("image_url", image_url)])
    | None =>
        match c !! "latitude" with
        | Some lat =>
            exists lon, c !! "longitude" = Some lon /\
              top = VDict (list_to_map
                      [("latitude", lat);
                       ("longitude", lon);
                       ("address", dict_get c "address" (dict_get c "title" (VStr "")));
                       ("image_url", image_url)])
        | None => top = VNone
        end
    end.
Proof.
  intros (cands' & Hraw & Hen & _ & Htop)%merge_inr Hc.
  rewrite Hraw in Hc. injection Hc as ->. cbn [take enhance_results] in Hen.
  destruct (enhance _ _ _ 0 c) as [?|e] eqn:Hturn; [discriminate|].
  destruct (enhance_results _ _ _ 1 _) as [?|rest]; [discriminate|].
  injection Hen as <-. unfold top_result_coordinates in Htop.
  pose proof (enhance_title _ _ _ _ _ _ (VStr "") Hturn) as Htitle.
  apply enhance_inr in Hturn as (_ & Hco & Himg & _).
  unfold image_merged in Himg. change (Z.of_nat 0) with 0 in *.
  exists (dict_get e "image_url" VNone). split.
  { unfold dict_get.
    destruct (find_image 0 _) as [?|[image_data|]]; [done| |by rewrite Himg].
    destruct Himg as (image_url & Hu & He). by rewrite He. }
  assert (Haddress : dict_get e "address" (dict_get e "title" (VStr ""))
            = match e !! "address" with
              | Some a => a
              | None => dict_get c "title" (VStr "")
              end).
  { unfold dict_get at 1. by rewrite Htitle. }
  rewrite Haddress in Htop. clear Haddress Htitle Himg.
  unfold dict_has in Htop.
  destruct (find_geocoded 0 (get_geocoded_results s)) as [g|];
    destruct Hco as (Hlat & Hlon & Haddr); rewrite Hlat, Hlon, Haddr in Htop.
  - rewrite bool_decide_eq_true_2 in Htop by by eexists. congruence.
  - destruct (c !! "latitude") as [lat|].
    + rewrite bool_decide_eq_true_2 in Htop by by eexists.
      destruct (c !! "longitude") as [lon|]; [|discriminate].
      exists lon. split; [done|]. unfold dict_get at 1.
      destruct (c !! "address"); congruence.
    + rewrite bool_decide_eq_false_2 in Htop by by intros [? ?]. congruence.
Qed.

End Answers.

(** ** When the merge raises *)

Lemma log_results_Some (l : list (gmap string Value)) :
  (exists e, log_results l = Some e) <->
  exists (i : nat) x, l !! i = Some x /\
    sliceable (dict_get x "title" (VStr "No title")) = false.
Proof.
  induction l as [|x l IH]; cbn [log_results].
  - split; [by intros [? ?]|]. by intros (i & x & Hx & _).
  - destruct (sliceable (dict_get x "title" (VStr "No title"))) eqn:Hx.
    + rewrite IH. split.
      * intros (i & y & Hy & Hs). by exists (S i), y.
      * intros ([|i] & y & Hy & Hs); [|by exists i, y].
        cbn in Hy. injection Hy as <-. congruence.
    + split; [|by eexists]. intros _. by exists 0%nat, x.
Qed.

(** X11.  The merge of [handle_chat] raises in four situations and in no
    other: the research reply carries no [raw_search_results]; or the image
    lookup raises for one of the first five hits (an image entry without
    [index] comes before any entry for the hit, or the first entry for the
    hit has no [image_url]); or one of the first five hits has a [title]
    that is neither a string nor a list (the summary log line slices it);
    or the first hit was not geocoded and has a [latitude] of its own but
    no [longitude] (the top coordinates read both). *)
Theorem merge_raises_exactly_when (research_msg : ResearchResponse.t) (s : Session) :
  (exists e, merge research_msg s = inl e) <->
  match ResearchResponse.raw_search_results research_msg with
  | None => True
  | Some cands =>
      (exists (i : nat) c, (i < 5)%nat /\ cands !! i = Some c /\
         match find_image (Z.of_nat i)
                 (default [] (ResearchResponse.result_images research_msg)) with
         | inl _ => True
         | inr (Some image_data) => image_data !! "image_url" = None
         | inr None => False
         end) \/
      (exists (i : nat) c, (i < 5)%nat /\ cands !! i = Some c /\
         sliceable (dict_get c "title" (VStr "No title")) = false) \/
      (exists c, cands !! 0%nat = Some c /\
         find_geocoded 0 (get_geocoded_results s) = None /\
         dict_has c "latitude" = true /\ dict_has c "longitude" = false)
  end.
Proof.
  unfold merge.
  destruct (ResearchResponse.raw_search_results research_msg) as [cands|];
    [|split; [done|by eexists]].
  set (images := default [] (ResearchResponse.result_images research_msg)).
  fold (image_lookup_raises).
  change (exists (i : nat) c, (i < 5)%nat /\ cands !! i = Some c /\
            match find_image (Z.of_nat i) images with
            | inl _ => True
            | inr (Some image_data) => image_data !! "image_url" = None
            | inr None => False
            end)
    with (exists (i : nat) c, (i < 5)%nat /\ cands !! i = Some c /\
            image_lookup_raises i images).
  pose proof (enhance_results_inl (get_geocoded_results s) images (get_poi_results s)
                (take 5 cands) 0) as Hraises.
  destruct (enhance_results (get_geocoded_results s) images (get_poi_results s) 0
              (take 5 cands)) as [exn|enhanced] eqn:Hen.
  { split; [|by eexists]. intros _. left.
    destruct (proj1 Hraises) as (i & c & [Hc Hi]%lookup_take_Some & Hr); [by eexists|].
    by exists i, c. }
  assert (Himages : ~ exists (i : nat) c, (i < 5)%nat /\ cands !! i = Some c /\
                      image_lookup_raises i images).
  { intros (i & c & Hi & Hc & Hr). destruct (proj2 Hraises) as [? ?]; [|discriminate].
    exists i, c. by rewrite lookup_take_lt. }
  assert (Hturn : forall (i : nat) c, (i < 5)%nat -> cands !! i = Some c ->
            exists e, enhanced !! i = Some e /\
              enhance (get_geocoded_results s) images (get_poi_results s) i c = inr e).
  { intros i c Hi Hc. apply enhance_results_inr in Hen as [_ Hl].
    apply (Hl i c). by rewrite lookup_take_lt. }
  assert (Hlog : (exists e, log_results enhanced = Some e) <->
            exists (i : nat) c, (i < 5)%nat /\ cands !! i = Some c /\
              sliceable (dict_get c "title" (VStr "No title")) = false).
  { rewrite log_results_Some. split.
    - intros (i & x & Hx & Hs).
      destruct (enhance_results_lookup _ _ _ _ _ _ _ _ Hen Hx) as (c & Hc & Hx').
      apply lookup_take_Some in Hc as [Hc Hi].
      rewrite (enhance_title _ _ _ _ _ _ _ Hx') in Hs. by exists i, c.
    - intros (i & c & Hi & Hc & Hs). destruct (Hturn i c Hi Hc) as (e & He & Hx).
      exists i, e. split; [done|]. by rewrite (enhance_title _ _ _ _ _ _ _ Hx). }
  assert (Htop : (exists e, top_result_coordinates enhanced = inl e) <->
            exists c, cands !! 0%nat = Some c /\
              find_geocoded 0 (get_geocoded_results s) = None /\
              dict_has c "latitude" = true /\ dict_has c "longitude" = false).
  { destruct cands as [|c cands].
    { cbn [take enhance_results] in Hen. injection Hen as <-.
      split; [by intros [? ?]|]. by intros (c & Hc & _). }
    destruct (Hturn 0%nat c) as (e & He & Hx); [lia|done|].
    destruct enhanced as [|e' rest]; [discriminate|]. injection He as ->.
    cbn [top_result_coordinates].
    apply enhance_inr in Hx as (_ & Hco & _). change (Z.of_nat 0) with 0 in Hco.
    unfold dict_has.
    destruct (find_geocoded 0 (get_geocoded_results s)) as [g|];
      destruct Hco as (Hlat & Hlon & _); rewrite Hlat, Hlon.
    - rewrite bool_decide_eq_true_2 by by eexists.
      split; [by intros [? ?]|]. by intros (? & _ & [=] & _).
    - destruct (c !! "latitude") as [lat|] eqn:Elat.
      + rewrite bool_decide_eq_true_2 by by eexists.
        destruct (c !! "longitude") as [lon|] eqn:Elon.
        * split; [by intros [? ?]|]. intros (c' & [= <-] & _ & _ & Hno).
          rewrite Elon, bool_decide_eq_true_2 in Hno by by eexists. discriminate.
        * split; [|by eexists]. intros _. exists c. split; [done|]. split; [done|].
          rewrite Elat, Elon.
          split; [by rewrite bool_decide_eq_true_2 by by eexists|].
          apply bool_decide_eq_false_2. by intros [? ?].
      + rewrite bool_decide_eq_false_2 by by intros [? ?].
        split; [by intros [? ?]|]. intros (c' & [= <-] & _ & Hhas & _).
        rewrite Elat, bool_decide_eq_false_2 in Hhas by by intros [? ?]. discriminate. }
  rewrite <- Hlog, <- Htop.
  destruct (log_results enhanced) as [e|].
  - split; [intros _; right; left|]; by eexists.
  - destruct (top_result_coordinates enhanced) as [e|top].
    + split; [intros _; right; right|]; by eexists.
    + split; [by intros [? ?]|]. intros [Hi|[[? ?]|[? ?]]]; [by destruct Himages|done|done].
Qed.

Section Store.
Variable str_field : Value -> option string.
Variable str_exn : Exn -> string.

(** ** Invariants of the store *)



(** X13.  A reply changes the session it is filed under and no other: after
    any batch of replies none of which is filed under [sid], the record of
    [sid] is what it was.  (A geocoding reply is filed under the part of its
    token before the first ["__"], or under the whole token when it holds no
    ["__"]; every other reply under its [session_id].) *)
Theorem replies_touch_one_session (sid : string) (batch : list Incoming)
    (sessions : gmap string Session) :
  (forall m, m ∈ batch -> filed_under m <> Some sid) ->
  session (fst (deliver str_field batch sessions)) sid = session sessions sid.
Proof.
  intros Hbatch.
  apply (deliver_invariant str_field (fun s => s = session sessions sid)); [|done].
  apply Forall_forall. intros m Hm s ->. specialize (Hbatch m Hm).
  unfold filed_under in Hbatch. unfold apply_effect.
  destruct (effect m) as [[k f]|]; [|done]. case_decide; [|done]. by subst k.
Qed.

(** ** From the fan-out to the merge *)

(** X14.  The way of one coordinate.  For a session token [t] without
    ["__"] and without a trailing underscore: when the geocoding worker
    answers the request the fan-out tagged for hit [i] with a coordinate,
    and nothing is recorded for [i] yet, the coordinator records that
    coordinate and address under [t] at index [i], counts the reply, asks
    for the points of interest of [(t, i)] at that coordinate, and the merge
    then puts coordinate and address on hit [i]: its turn for hit [i] ends
    with them on the merged hit, unless the image lookup for [i] raises. *)
Theorem geocoding_round_trip (t : string) (i : nat) (a : string) (lat lon : float)
    (full_address : string) (sessions : gmap string Session) :
  py_in "__" t = false -> ends_with "_" t = false ->
  find_geocoded (Z.of_nat i) (get_geocoded_results (session sessions t)) = None ->
  let request := {| MapboxRequest.address := a;
                    MapboxRequest.session_id := composite_id t i |} in
  let reply := handle_geocode_request request (GeocodeFound lat lon full_address) in
  let sessions' := fst (handle_mapbox reply sessions) in
  let geocoded := {| GeocodedResult.index := Z.of_nat i;
                     GeocodedResult.latitude := lat;
                     GeocodedResult.longitude := lon;
                     GeocodedResult.address := full_address |} in
  find_geocoded (Z.of_nat i) (get_geocoded_results (session sessions' t)) = Some geocoded /\
  get_geocoding_count (session sessions' t) = get_geocoding_count (session sessions t) + 1 /\
  snd (handle_mapbox reply sessions)
  = [ToLocalDiscovery {| LocalDiscoveryRequest.latitude := lat;
                         LocalDiscoveryRequest.longitude := lon;
                         LocalDiscoveryRequest.session_id := t;
                         LocalDiscoveryRequest.listing_index := Z.of_nat i |}] /\
  forall result_images poi_results result,
    match enhance (get_geocoded_results (session sessions' t))
            result_images poi_results i result with
    | inr e =>
        e !! "latitude" = Some (VFloat lat) /\
        e !! "longitude" = Some (VFloat lon) /\
        e !! "address" = Some (VStr full_address)
    | inl _ => image_lookup_raises i result_images
    end.
Proof.
  intros Hin Hend Hnone request reply sessions' geocoded.
  assert (Hparse : parse_session_id (composite_id t i) = Composite t (Z.of_nat i)).
  { unfold parse_session_id, composite_id, py_in, py_split1.
    by rewrite (partition_first_composite t (py_str_nat i) Hin Hend), py_int_str_nat. }
  assert (Hfind : find_geocoded (Z.of_nat i) (get_geocoded_results (session sessions' t))
                  = Some geocoded).
  { subst sessions'. rewrite handle_mapbox_session. unfold apply_effect, effect.
    cbn [reply handle_geocode_request MapboxResponse.session_id request
         MapboxRequest.session_id]. rewrite Hparse, decide_True by done.
    unfold on_geocoded, get_geocoded_results at 1. cbn.
    unfold find_geocoded in *. rewrite (find_app_None _ _ _ Hnone).
    cbn. by rewrite Z.eqb_refl. }
  split; [exact Hfind|]. split; [|split].
  - subst sessions'. rewrite handle_mapbox_session. unfold apply_effect, effect.
    cbn [reply handle_geocode_request MapboxResponse.session_id request
         MapboxRequest.session_id]. by rewrite Hparse, decide_True by done.
  - rewrite handle_mapbox_sent. unfold mapbox_reaction, handle_mapbox.
    cbn [reply handle_geocode_request MapboxResponse.session_id request
         MapboxRequest.session_id]. rewrite Hparse.
    by destruct (geocoded_results (session (ensure t ∅) t)).
  - intros result_images poi_results result.
    destruct (enhance _ _ _ i result) as [exn|e] eqn:He.
    + apply (enhance_inl (get_geocoded_results (session sessions' t)) result_images
               poi_results i result). by eexists.
    + apply enhance_inr in He as (_ & Hco & _). by rewrite Hfind in Hco.
Qed.

End Store.

Section LegacyEntry.
Variable str_field : Value -> option string.
Variable str_exn : Exn -> string.

(** ** The legacy [mapbox] entry *)

Lemma same_but_mapbox_fields s s' :
  same_but_mapbox s s' ->
  scoping s = scoping s' /\ research s = research s' /\ general s = general s' /\
  get_geocoded_results s = get_geocoded_results s' /\
  get_geocoding_count s = get_geocoding_count s' /\
  get_poi_results s = get_poi_results s' /\ get_poi_count s = get_poi_count s'.
Proof.
  unfold same_but_mapbox, get_geocoded_results, get_geocoding_count, get_poi_results,
    get_poi_count.
  destruct s, s'. cbn. intros [= -> -> -> -> -> -> ->]. done.
Qed.

Lemma effect_same_but_mapbox (m : Incoming) sid s s' :
  same_but_mapbox s s' ->
  same_but_mapbox (apply_effect (effect m) sid s) (apply_effect (effect m) sid s').
Proof.
  unfold same_but_mapbox, apply_effect, effect. intros Hs.
  destruct m as [msg|msg|msg|msg|msg];
    try destruct (parse_session_id _); try done; case_decide; try done;
    destruct s, s'; cbn in *; injection Hs as -> -> -> -> -> -> ->; done.
Qed.

Lemma deliver_same_but_mapbox batch : forall sessions sessions',
  (forall sid, same_but_mapbox (session sessions sid) (session sessions' sid)) ->
  forall sid, same_but_mapbox (session (fst (deliver str_field batch sessions)) sid)
                (session (fst (deliver str_field batch sessions')) sid).
Proof.
  induction batch as [|m batch IH]; intros sessions sessions' Hs; [exact Hs|].
  cbn [deliver].
  pose proof (dispatch_session str_field m sessions) as H1.
  pose proof (dispatch_session str_field m sessions') as H2.
  destruct (dispatch str_field m sessions) as [s1 o1].
  destruct (dispatch str_field m sessions') as [s1' o1']. cbn [fst] in H1, H2.
  specialize (IH s1 s1').
  destruct (deliver str_field batch s1) as [s2 o2].
  destruct (deliver str_field batch s1') as [s2' o2']. cbn [fst] in *.
  apply IH. intros sid. rewrite H1, H2. apply effect_same_but_mapbox, Hs.
Qed.

Lemma sleep_same_but_mapbox r r' :
  same_run_but_mapbox r r' -> same_run_but_mapbox (sleep str_field r) (sleep str_field r').
Proof.
  intros (Hout & Hin & Hs). unfold sleep. rewrite <- Hin.
  destruct (inbox r) as [|batch rest] eqn:Hbox.
  { split; [done|]. split; [by rewrite Hbox|done]. }
  pose proof (deliver_sent str_field batch (sessions r)) as H1.
  pose proof (deliver_sent str_field batch (sessions r')) as H2.
  pose proof (deliver_same_but_mapbox batch _ _ Hs) as H3.
  destruct (deliver str_field batch (sessions r)) as [s1 o1].
  destruct (deliver str_field batch (sessions r')) as [s1' o1']. cbn [fst snd] in *.
  subst o1 o1'. split; [by rewrite Hout|]. split; [done|exact H3].
Qed.

Lemma poll_same_but_mapbox n (ready : Run -> bool) :
  (forall r r', same_run_but_mapbox r r' -> ready r = ready r') ->
  forall r r', same_run_but_mapbox r r' ->
    fst (poll str_field n ready r) = fst (poll str_field n ready r') /\
    same_run_but_mapbox (snd (poll str_field n ready r)) (snd (poll str_field n ready r')).
Proof.
  intros Hready. induction n as [|n IH]; intros r r' Hr; [done|].
  cbn [poll]. rewrite <- (Hready r r' Hr). destruct (ready r); [done|].
  apply IH. by apply sleep_same_but_mapbox.
Qed.

Lemma run_fields r r' sid :
  same_run_but_mapbox r r' ->
  let s := session (sessions r) sid in
  let s' := session (sessions r') sid in
  scoping s = scoping s' /\ research s = research s' /\ general s = general s' /\
  get_geocoded_results s = get_geocoded_results s' /\
  get_geocoding_count s = get_geocoding_count s' /\
  get_poi_results s = get_poi_results s' /\ get_poi_count s = get_poi_count s'.
Proof. intros (_ & _ & Hs). apply same_but_mapbox_fields, Hs. Qed.

Lemma begin_chat_same_but_mapbox req r r' :
  same_run_but_mapbox r r' -> same_run_but_mapbox (begin_chat req r) (begin_chat req r').
Proof.
  intros (Hout & Hin & Hs). split; [|split].
  - by rewrite !begin_chat_outbox, Hout.
  - by rewrite !begin_chat_inbox.
  - intros sid. rewrite !begin_chat_session. case_decide; [|apply Hs].
    specialize (Hs sid). unfold same_but_mapbox in *.
    destruct (session (sessions r) sid), (session (sessions r') sid). cbn in *.
    by injection Hs as -> -> -> -> -> -> ->.
Qed.

Lemma handle_chat_same_but_mapbox req r r' :
  same_run_but_mapbox r r' ->
  fst (handle_chat str_field str_exn req r) = fst (handle_chat str_field str_exn req r') /\
  same_run_but_mapbox (snd (handle_chat str_field str_exn req r))
    (snd (handle_chat str_field str_exn req r')).
Proof.
  intros Hr. set (t := ChatRequest.session_id req).
  assert (Hsc : forall r r', same_run_but_mapbox r r' -> has_scoping t r = has_scoping t r').
  { intros q q' Hq. unfold has_scoping.
    by destruct (run_fields q q' t Hq) as (-> & _). }
  assert (Hge : forall r r', same_run_but_mapbox r r' -> has_general t r = has_general t r').
  { intros q q' Hq. unfold has_general.
    by destruct (run_fields q q' t Hq) as (_ & _ & -> & _). }
  assert (Hre : forall r r', same_run_but_mapbox r r' -> has_research t r = has_research t r').
  { intros q q' Hq. unfold has_research.
    by destruct (run_fields q q' t Hq) as (_ & -> & _). }
  assert (Hgd : forall n r r', same_run_but_mapbox r r' ->
            geocoding_done t n r = geocoding_done t n r').
  { intros n q q' Hq. unfold geocoding_done.
    by destruct (run_fields q q' t Hq) as (_ & _ & _ & _ & -> & _). }
  assert (Hpd : forall n r r', same_run_but_mapbox r r' -> poi_done t n r = poi_done t n r').
  { intros n q q' Hq. unfold poi_done.
    by destruct (run_fields q q' t Hq) as (_ & _ & _ & _ & _ & _ & ->). }
  unfold handle_chat, await_scoping. fold t.
  destruct (poll_same_but_mapbox 60 (has_scoping t) Hsc
              (sleep str_field (begin_chat req r)) (sleep str_field (begin_chat req r')))
    as [Hb H1]; [by apply sleep_same_but_mapbox, begin_chat_same_but_mapbox|].
  destruct (poll str_field 60 (has_scoping t) (sleep str_field (begin_chat req r)))
    as [b r1].
  destruct (poll str_field 60 (has_scoping t) (sleep str_field (begin_chat req r')))
    as [b' r1']. cbn [fst snd] in Hb, H1. subst b'.
  destruct b; [|done].
  destruct (run_fields r1 r1' t H1) as (<- & _).
  destruct (scoping (session (sessions r1) t)) as [scoping_msg|]; [|done].
  (* the general stage *)
  assert (Hgen : fst (general_stage str_field t scoping_msg r1)
                 = fst (general_stage str_field t scoping_msg r1') /\
                 same_run_but_mapbox (snd (general_stage str_field t scoping_msg r1))
                   (snd (general_stage str_field t scoping_msg r1'))).
  { unfold general_stage. destruct (ScopingResponse.is_general_question scoping_msg); [|done].
    destruct (poll_same_but_mapbox 60 (has_general t) Hge r1 r1' H1) as [_ H2].
    destruct (run_fields _ _ t H2) as (_ & _ & <- & _).
    by destruct (general _). }
  destruct Hgen as [Hg1 Hg2].
  destruct (general_stage str_field t scoping_msg r1) as [o2 r2].
  destruct (general_stage str_field t scoping_msg r1') as [o2' r2'].
  cbn [fst snd] in Hg1, Hg2. subst o2'. destruct o2; [done|].
  (* the research stage *)
  assert (Hres : fst (research_stage str_field str_exn t scoping_msg r2)
                 = fst (research_stage str_field str_exn t scoping_msg r2') /\
                 same_run_but_mapbox (snd (research_stage str_field str_exn t scoping_msg r2))
                   (snd (research_stage str_field str_exn t scoping_msg r2'))).
  { unfold research_stage.
    destruct (ScopingResponse.is_complete scoping_msg),
      (ScopingResponse.requirements scoping_msg); try done.
    unfold await_research.
    destruct (poll_same_but_mapbox 60 (has_research t) Hre r2 r2' Hg2) as [_ H3].
    destruct (run_fields _ _ t H3) as (_ & <- & _).
    destruct (research _) as [research_msg|]; [|done].
    assert (H4 : same_run_but_mapbox
                   (await_fanout str_field t research_msg
                      (snd (poll str_field 60 (has_research t) r2)))
                   (await_fanout str_field t research_msg
                      (snd (poll str_field 60 (has_research t) r2')))).
    { unfold await_fanout.
      destruct (ResearchResponse.raw_search_results research_msg) as [[|c l]|];
        [exact H3| |exact H3].
      apply poll_same_but_mapbox; [apply Hpd|].
      apply poll_same_but_mapbox; [apply Hgd|exact H3]. }
    unfold merge.
    destruct (run_fields _ _ t H4) as (_ & _ & _ & <- & _ & <- & _).
    destruct (ResearchResponse.raw_search_results research_msg) as [cands|]; [|done].
    destruct (enhance_results _ _ _ _ _) as [?|enhanced]; [done|].
    destruct (log_results _); [done|]. by destruct (top_result_coordinates _) as [?|?]. }
  destruct Hres as [Hr1 Hr2].
  destruct (research_stage str_field str_exn t scoping_msg r2) as [o3 r3].
  destruct (research_stage str_field str_exn t scoping_msg r2') as [o3' r3'].
  cbn [fst snd] in Hr1, Hr2. subst o3'. by destruct o3.
Qed.

(** X15.  The legacy [mapbox] entry is written and never read.  A geocoding
    reply whose token holds no ["__"] sends nothing and changes, in the
    whole store, at most the [mapbox] entry of the session named by the
    token: that entry becomes the reply, and every other session is as it
    was.  And [handle_chat] does not look at that entry: on two runs that
    differ at most in [mapbox] entries it gives the same response, sends the
    same messages, and leaves runs that again differ at most there. *)
Theorem mapbox_entry_is_never_read :
  (forall (msg : MapboxResponse.t) (sessions : gmap string Session),
     py_in "__" (MapboxResponse.session_id msg) = false ->
     snd (handle_mapbox msg sessions) = [] /\
     (forall sid, same_but_mapbox (session (fst (handle_mapbox msg sessions)) sid)
                    (session sessions sid)) /\
     mapbox (session (fst (handle_mapbox msg sessions)) (MapboxResponse.session_id msg))
     = Some msg /\
     forall sid, sid <> MapboxResponse.session_id msg ->
       session (fst (handle_mapbox msg sessions)) sid = session sessions sid) /\
  (forall (req : ChatRequest.t) (r r' : Run),
     same_run_but_mapbox r r' ->
     fst (handle_chat str_field str_exn req r) = fst (handle_chat str_field str_exn req r') /\
     same_run_but_mapbox (snd (handle_chat str_field str_exn req r))
       (snd (handle_chat str_field str_exn req r'))).
Proof.
  split; [|apply handle_chat_same_but_mapbox].
  intros msg sessions Hplain.
  assert (Hparse : parse_session_id (MapboxResponse.session_id msg) = Plain).
  { unfold parse_session_id. by rewrite Hplain. }
  split; [|split; [|split]].
  - unfold handle_mapbox. by rewrite Hparse.
  - intros sid. rewrite handle_mapbox_session. unfold apply_effect, effect.
    rewrite Hparse. case_decide; [|done]. unfold same_but_mapbox.
    by destruct (session sessions sid).
  - rewrite handle_mapbox_session. unfold apply_effect, effect.
    by rewrite Hparse, decide_True.
  - intros sid Hne. rewrite handle_mapbox_session. unfold apply_effect, effect.
    rewrite Hparse. by rewrite decide_False.
Qed.

(** ** From a POI reply to the merge *)

(** X16.  The way of one list of points of interest.  A POI reply for
    listing [i] of a session that has no POI entry for [i] yet sends
    nothing, is counted once, and its points of interest, each as the
    object of its six fields, are the [pois] the merge puts on hit [i]: its
    turn for hit [i] ends with them on the merged hit, unless the image
    lookup for [i] raises. *)
Theorem poi_reply_reaches_merge (msg : LocalDiscoveryResponse.t)
    (sessions : gmap string Session) (i : nat) :
  let sid := LocalDiscoveryResponse.session_id msg in
  LocalDiscoveryResponse.listing_index msg = Z.of_nat i ->
  find_poi (Z.of_nat i) (get_poi_results (session sessions sid)) = None ->
  let sessions' := fst (handle_local_discovery msg sessions) in
  snd (handle_local_discovery msg sessions) = [] /\
  get_poi_count (session sessions' sid) = get_poi_count (session sessions sid) + 1 /\
  forall geocoded_results result_images result,
    match enhance geocoded_results result_images
            (get_poi_results (session sessions' sid)) i result with
    | inr e =>
        e !! "pois"
        = Some (VList ((fun poi => VDict (POI.dict poi))
                         <$> LocalDiscoveryResponse.pois msg))
    | inl _ => image_lookup_raises i result_images
    end.
Proof.
  intros sid Hidx Hnone sessions'. split; [done|].
  assert (Hs : session sessions' sid = on_local_discovery msg (session sessions sid)).
  { subst sessions'. rewrite handle_local_discovery_session. unfold apply_effect, effect.
    by rewrite decide_True. }
  rewrite Hs. split; [done|]. intros geocoded_results result_images result.
  destruct (enhance _ _ _ i result) as [exn|e] eqn:He.
  { apply (enhance_inl geocoded_results result_images
             (get_poi_results (on_local_discovery msg (session sessions sid))) i result).
    by eexists. }
  apply enhance_inr in He as (_ & _ & _ & ->).
  unfold on_local_discovery, get_poi_results at 1. cbn.
  unfold find_poi in *. rewrite (find_app_None _ _ _ Hnone). cbn.
  rewrite Hidx, Z.eqb_refl. cbn. by rewrite <- list_fmap_compose.
Qed.

End LegacyEntry.

(** ** Session tokens that the separator breaks *)

Lemma int_digits_sep x d : forall acc after_digit,
  int_digits (x +:+ "__" +:+ d) acc after_digit = None.
Proof.
  induction x as [|c x IH]; intros acc after_digit.
  - rewrite append_nil_l, !append_cons. cbn [int_digits].
    change (digit_value "_") with (@None Z). change (Ascii.eqb "_" "_") with true.
    by destruct after_digit.
  - rewrite append_cons. cbn [int_digits].
    destruct (digit_value c); [apply IH|].
    destruct (Ascii.eqb c "_" && after_digit); [apply IH|done].
Qed.

Lemma lstrip_sep x d : exists x', lstrip (x +:+ "__" +:+ d) = x' +:+ "__" +:+ d.
Proof.
  induction x as [|c x IH].
  - by exists "".
  - rewrite append_cons. cbn [lstrip].
    destruct (is_space c); [exact IH|]. exists (String c x). by rewrite append_cons.
Qed.

Lemma rstrip_cons c s :
  rstrip s = s -> (s = "" -> is_space c = false) -> rstrip (String c s) = String c s.
Proof.
  intros Hs Hc. cbn [rstrip]. rewrite Hs. destruct s; [by rewrite Hc|done].
Qed.

Lemma rstrip_app x z :
  rstrip z = z -> z <> "" -> rstrip (x +:+ z) = x +:+ z.
Proof.
  intros Hz Hne. induction x as [|c x IH]; [done|].
  rewrite append_cons. apply rstrip_cons; [exact IH|]. destruct x, z; done.
Qed.

Lemma rstrip_underscore d : all_digits d = true -> rstrip ("_" +:+ d) = "_" +:+ d.
Proof. intros Hd. apply rstrip_cons; [by apply rstrip_digits|done]. Qed.

Lemma rstrip_sep x d :
  all_digits d = true -> rstrip (x +:+ "__" +:+ d) = x +:+ "__" +:+ d.
Proof.
  intros Hd. apply rstrip_app; [|done].
  apply rstrip_cons; [by apply rstrip_underscore|done].
Qed.

Lemma py_int_unsigned s c r :
  rstrip (lstrip (ascii_from utf8_start s)) = String c r ->
  c <> "+"%char -> c <> "-"%char ->
  py_int s = int_digits (String c r) 0 false.
Proof.
  intros Hs Hplus Hminus. unfold py_int. rewrite Hs.
  destruct c as [[] [] [] [] [] [] [] []]; done.
Qed.

Lemma py_int_signed s c r :
  rstrip (lstrip (ascii_from utf8_start s)) = String c r ->
  c = "+"%char \/ c = "-"%char ->
  int_digits r 0 false = None -> py_int s = None.
Proof.
  intros Hs Hc Hr. unfold py_int. rewrite Hs. destruct Hc as [-> | ->]; by rewrite Hr.
Qed.

(** The separator is read as it stands, whatever precedes it. *)
Lemma ascii_from_sep x d :
  all_digits d = true ->
  exists p, ascii_from utf8_start (x +:+ "__" +:+ d) = p +:+ "__" +:+ d.
Proof.
  intros Hd. destruct (ascii_from_low x utf8_start) as [p Hp]. exists p.
  change (x +:+ "__" +:+ d) with (x +:+ String "_" ("_" +:+ d)).
  rewrite (Hp "_"%char ("_" +:+ d) eq_refl). do 2 f_equal.
  change ("_" +:+ d) with (String "_" d). cbn [ascii_from].
  rewrite (next_byte_low utf8_start "_" eq_refl). cbn [pending utf8_start].
  by rewrite append_nil_l, append_cons, append_nil_l, (ascii_from_digits d Hd).
Qed.

Lemma py_int_sep x d : all_digits d = true -> py_int (x +:+ "__" +:+ d) = None.
Proof.
  intros Hd. destruct (ascii_from_sep x d Hd) as [p Hp].
  destruct (lstrip_sep p d) as [x' Hl].
  assert (Hs : rstrip (lstrip (ascii_from utf8_start (x +:+ "__" +:+ d)))
               = x' +:+ "__" +:+ d).
  { rewrite Hp, Hl. by apply rstrip_sep. }
  destruct x' as [|c x'].
  - change ("" +:+ "__" +:+ d) with (String "_" (String "_" d)) in Hs.
    by rewrite (py_int_unsigned _ _ _ Hs).
  - change (String c x' +:+ "__" +:+ d) with (String c (x' +:+ "__" +:+ d)) in Hs.
    destruct (Ascii.ascii_dec c "+") as [->|Hplus];
      [apply (py_int_signed _ _ _ Hs); [by left|apply int_digits_sep]|].
    destruct (Ascii.ascii_dec c "-") as [->|Hminus];
      [apply (py_int_signed _ _ _ Hs); [by right|apply int_digits_sep]|].
    rewrite (py_int_unsigned _ _ _ Hs Hplus Hminus).
    apply (int_digits_sep (String c x')).
Qed.

Lemma py_int_underscore d : all_digits d = true -> py_int ("_" +:+ d) = None.
Proof.
  intros Hd.
  assert (Hs : rstrip (lstrip (ascii_from utf8_start ("_" +:+ d))) = String "_" d).
  { change ("_" +:+ d) with (String "_" d) at 1. cbn [ascii_from].
    rewrite (next_byte_low utf8_start "_" eq_refl). cbn [pending utf8_start].
    rewrite append_nil_l, append_cons, append_nil_l, (ascii_from_digits d Hd).
    change (lstrip (String "_" d)) with ("_" +:+ d). by rewrite rstrip_underscore. }
  by rewrite (py_int_unsigned _ _ _ Hs).
Qed.

(** Where the first ["__"] of a composite token lies when it is not the
    separator that the fan-out wrote. *)
Lemma partition_first_early t d :
  py_in "__" t = true \/ ends_with "_" t = true ->
  exists b a, partition_first "__" (t +:+ "__" +:+ d) = Some (b, a) /\
    (a = "_" +:+ d \/ exists x, a = x +:+ "__" +:+ d).
Proof.
  induction t as [|c t IH]; intros Ht.
  - destruct Ht; discriminate.
  - rewrite append_cons. cbn [partition_first].
    destruct (strip_prefix "__" (String c (t +:+ "__" +:+ d))) as [rest|] eqn:Es.
    + exists "", rest. split; [done|]. cbn [strip_prefix] in Es.
      destruct (Ascii.eqb "_" c); [|discriminate].
      destruct t as [|c2 t].
      * rewrite append_nil_l, !append_cons, append_nil_l in Es.
        change (Ascii.eqb "_" "_") with true in Es. injection Es as <-. by left.
      * rewrite append_cons in Es. destruct (Ascii.eqb "_" c2); [|discriminate].
        injection Es as <-. right. by exists t.
    + destruct IH as (b & a & -> & Ha).
      * destruct Ht as [Ht|Ht].
        -- left. unfold py_in in *. cbn [partition_first] in Ht.
           destruct (strip_prefix "__" (String c t)) as [rest|] eqn:Et;
             [|by destruct (partition_first "__" t) as [[? ?]|]].
           exfalso. cbn [strip_prefix] in Es, Et.
           destruct (Ascii.eqb "_" c); [|discriminate].
           destruct t as [|c2 t]; [discriminate|]. rewrite append_cons in Es.
           destruct (Ascii.eqb "_" c2); discriminate.
        -- right. destruct t as [|c2 t]; [|exact Ht].
           exfalso. cbn [ends_with] in Ht. cbn [strip_prefix] in Es.
           rewrite Ascii.eqb_sym, Ht, append_nil_l, !append_cons in Es.
           change (Ascii.eqb "_" "_") with true in Es. discriminate.
      * by exists (String c b), a.
Qed.

Lemma parse_composite_malformed t i :
  py_in "__" t = true \/ ends_with "_" t = true ->
  parse_session_id (composite_id t i) = Malformed.
Proof.
  intros Ht. unfold parse_session_id, composite_id, py_in, py_split1.
  destruct (partition_first_early t (py_str_nat i) Ht) as (b & a & -> & Ha).
  destruct Ha as [->|[x ->]].
  - by rewrite py_int_underscore by apply py_str_nat_digits.
  - by rewrite py_int_sep by apply py_str_nat_digits.
Qed.

(** X17.  A session token that contains ["__"] or ends with an underscore
    gets no coordinate.  Each of its fan-out tokens splits at a ["__"] that
    is not the separator, the text after it is no integer, and the handler
    raises before it writes: whatever the geocoding worker answers to the
    request for hit [i], the coordinator drops the reply: the store is as
    before and no point-of-interest request is sent.  (With C1: a reply is
    filed under the session and index of its request, or not at all.) *)
Theorem separator_in_token_drops_replies (t : string) (i : nat)
    (request : MapboxRequest.t) (result : GeocodeResult)
    (sessions : gmap string Session) :
  py_in "__" t = true \/ ends_with "_" t = true ->
  MapboxRequest.session_id request = composite_id t i ->
  parse_session_id (composite_id t i) = Malformed /\
  handle_mapbox (handle_geocode_request request result) sessions = (sessions, []).
Proof.
  intros Ht Hid. pose proof (parse_composite_malformed t i Ht) as Hparse.
  split; [done|]. unfold handle_mapbox.
  by rewrite handle_geocode_request_session_id, Hid, Hparse.
Qed.

(** ** The geocoding worker *)

Section MapboxWorker.
Variable str_raised : Raised -> string.
Variable str_item : string -> nat -> option string.
Variable str_field : Value -> option string.
Variable float_field : Value -> option float.

Lemma geocode_address_error MAPBOX_TOKEN exchange address error :
  MapboxAgent.geocode_address str_raised str_item MAPBOX_TOKEN exchange address
    = MapboxAgent.Error error ->
  truthy_str (Some error) = true.
Proof.
  assert (Hne : forall e : string, e <> "" -> truthy_str (Some e) = true).
  { intros e He. cbn. by destruct e. }
  unfold MapboxAgent.geocode_address, MapboxAgent.failed.
  destruct (negb (truthy_str MAPBOX_TOKEN)); [by intros [= <-]|].
  destruct exchange as [e|status text json]; [by intros [= <-]|].
  destruct (negb (status =? 200)).
  { destruct text as [e|text]; by intros [= <-]. }
  destruct json as [e|data]; [by intros [= <-]|].
  destruct (MapboxAgent.read_features str_item address data) as [e|result] eqn:Hread;
    [by intros [= <-]|].
  intros ->. unfold MapboxAgent.read_features in Hread.
  repeat match type of Hread with
         | match ?x with _ => _ end = _ => destruct x; try discriminate
         end;
    by injection Hread as <-.
Qed.

(** X18.  A failed geocoding never becomes a coordinate.  Whenever
    [geocode_address] reports an error (no token configured, the request
    raised, a status other than 200, no feature, or an answer it cannot
    walk through), the worker's reply carries the request's token, the
    request's address, a non-empty [error] and the coordinates (0.0, 0.0);
    and the coordinator, whatever its store, records no coordinate for it
    in any session and asks for no points of interest. *)
Theorem failed_geocoding_is_never_recorded (MAPBOX_TOKEN : option string)
    (exchange : MapboxAgent.Exchange) (msg : MapboxRequest.t) (error : string)
    (sessions : gmap string Session) :
  MapboxAgent.geocode_address str_raised str_item MAPBOX_TOKEN exchange
    (MapboxRequest.address msg) = MapboxAgent.Error error ->
  exists reply,
    MapboxAgent.handle_geocode_request str_raised str_item str_field float_field
      MAPBOX_TOKEN exchange msg = Some reply /\
    MapboxResponse.session_id reply = MapboxRequest.session_id msg /\
    MapboxResponse.address reply = MapboxRequest.address msg /\
    MapboxResponse.error reply = Some error /\ error <> "" /\
    MapboxResponse.latitude reply = 0%float /\ MapboxResponse.longitude reply = 0%float /\
    snd (handle_mapbox reply sessions) = [] /\
    forall sid,
      get_geocoded_results (session (fst (handle_mapbox reply sessions)) sid)
      = get_geocoded_results (session sessions sid).
Proof.
  intros Hgeo. pose proof (geocode_address_error _ _ _ _ Hgeo) as Herr.
  unfold MapboxAgent.handle_geocode_request. rewrite Hgeo. cbn [MapboxAgent.validated fmap option_fmap option_map].
  eexists. split; [done|]. cbn [handle_geocode_request MapboxResponse.session_id
    MapboxResponse.address MapboxResponse.error MapboxResponse.latitude
    MapboxResponse.longitude].
  repeat (split; [done|]). split; [by intros ->|]. repeat (split; [done|]).
  set (reply := {| MapboxResponse.address := _ |}). split.
  - rewrite handle_mapbox_sent. unfold mapbox_reaction, handle_mapbox.
    destruct (parse_session_id _); [done| |done].
    change (MapboxResponse.error reply) with (Some error). rewrite Herr.
    by destruct (geocoded_results _).
  - intros sid. rewrite handle_mapbox_session. unfold apply_effect, effect.
    destruct (parse_session_id _); [by case_decide| |done].
    case_decide; [|done]. unfold on_geocoded.
    change (MapboxResponse.error reply) with (Some error). rewrite Herr.
    unfold get_geocoded_results at 1. cbn. apply app_nil_r.
Qed.


(** X19.  The API lists a coordinate as [longitude, latitude]; the worker
    swaps it.  With a token configured, for a 200 answer whose first feature
    has [geometry.coordinates = [lng, lat, ...]] and a [properties] object,
    the reply carries latitude [lat] and longitude [lng], the request's
    token, no error, and as address the feature's [full_address], or the
    request's own address when the feature has none.  (The validation is
    taken to accept a float as a float and a string as a string.) *)
Theorem coordinates_are_read_as_lng_lat (MAPBOX_TOKEN : option string)
    (msg : MapboxRequest.t) (text : Raised + string)
    (data feature geometry properties : gmap string Value) (rest more : list Value)
    (lng lat : float) (a : string) :
  truthy_str MAPBOX_TOKEN = true ->
  data !! "features" = Some (VList (VDict feature :: rest)) ->
  feature !! "geometry" = Some (VDict geometry) ->
  geometry !! "coordinates" = Some (VList (VFloat lng :: VFloat lat :: more)) ->
  feature !! "properties" = Some (VDict properties) ->
  (properties !! "full_address" = Some (VStr a) \/
   properties !! "full_address" = None /\ a = MapboxRequest.address msg) ->
  (forall f, float_field (VFloat f) = Some f) ->
  (forall s, str_field (VStr s) = Some s) ->
  MapboxAgent.handle_geocode_request str_raised str_item str_field float_field
    MAPBOX_TOKEN (MapboxAgent.Answered 200 text (inr (VDict data))) msg
  = Some {| MapboxResponse.address := a;
            MapboxResponse.latitude := lat;
            MapboxResponse.longitude := lng;
            MapboxResponse.session_id := MapboxRequest.session_id msg;
            MapboxResponse.error := None;
            MapboxResponse.image_url := None |}.
Proof.
  intros Htoken Hfeatures Hgeometry Hcoords Hproperties Haddress Hfloat Hstr.
  unfold MapboxAgent.handle_geocode_request, MapboxAgent.geocode_address.
  rewrite Htoken. cbn [negb Z.eqb Pos.eqb].
  unfold MapboxAgent.read_features, py_get, dict_get. rewrite Hfeatures.
  cbn [truthy len_positive MapboxAgent.getitem_nat lookup list_lookup getitem_str].
  rewrite Hgeometry. cbn [getitem_str]. rewrite Hcoords.
  cbn [MapboxAgent.getitem_nat lookup list_lookup]. rewrite Hproperties.
  assert (Hfull : match properties !! "full_address" with
                  | Some v => v
                  | None => VStr (MapboxRequest.address msg)
                  end = VStr a).
  { by destruct Haddress as [->|[-> ->]]. }
  rewrite Hfull. cbn [MapboxAgent.validated]. by rewrite Hstr, !Hfloat.
Qed.

(** X20.  The worker reports a coordinate only for a 200 answer, and only
    when a token is configured: whenever [geocode_address] returns a
    coordinate, the exchange was a response with status 200 whose JSON is an
    object with a truthy [features], and latitude and longitude are items 1
    and 0 of the [geometry.coordinates] of its first feature. *)
Theorem coordinates_only_from_a_200 (MAPBOX_TOKEN : option string)
    (exchange : MapboxAgent.Exchange) (address : string)
    (latitude longitude full_address : Value) :
  MapboxAgent.geocode_address str_raised str_item MAPBOX_TOKEN exchange address
    = MapboxAgent.Found latitude longitude full_address ->
  truthy_str MAPBOX_TOKEN = true /\
  exists text data features feature geometry coords,
    exchange = MapboxAgent.Answered 200 text (inr (VDict data)) /\
    data !! "features" = Some features /\ truthy features = true /\
    MapboxAgent.getitem_nat str_item features 0 = inr feature /\
    getitem_str feature "geometry" = inr geometry /\
    getitem_str geometry "coordinates" = inr coords /\
    MapboxAgent.getitem_nat str_item coords 1 = inr latitude /\
    MapboxAgent.getitem_nat str_item coords 0 = inr longitude.
Proof.
  unfold MapboxAgent.geocode_address, MapboxAgent.failed.
  destruct (truthy_str MAPBOX_TOKEN); [|discriminate]. cbn [negb].
  destruct exchange as [e|status text json]; [discriminate|].
  destruct (status =? 200) eqn:Hstatus; cbn [negb];
    [|by destruct text].
  apply Z.eqb_eq in Hstatus as ->.
  destruct json as [e|data]; [discriminate|].
  destruct (MapboxAgent.read_features str_item address data) as [e|result] eqn:Hread;
    [discriminate|].
  intros ->. split; [done|]. unfold MapboxAgent.read_features in Hread.
  destruct data as [| | | | | |data]; try discriminate. cbn [py_get] in Hread.
  unfold dict_get in Hread.
  destruct (data !! "features") as [features|] eqn:Hfeatures; [|discriminate].
  destruct (truthy features) eqn:Htruthy; [|discriminate].
  destruct (len_positive features) as [?|[]]; try discriminate.
  destruct (MapboxAgent.getitem_nat str_item features 0) as [?|feature] eqn:H0;
    [discriminate|].
  destruct (getitem_str feature "geometry") as [?|geometry] eqn:H1; [discriminate|].
  destruct (getitem_str geometry "coordinates") as [?|coords] eqn:H2; [discriminate|].
  destruct (MapboxAgent.getitem_nat str_item coords 1) as [?|lat'] eqn:H3; [discriminate|].
  destruct (MapboxAgent.getitem_nat str_item coords 0) as [?|lon'] eqn:H4; [discriminate|].
  destruct (getitem_str feature "properties") as [?|properties]; [discriminate|].
  destruct (py_get properties "full_address" (VStr address)); [discriminate|].
  injection Hread as -> -> ->.
  by exists text, data, features, feature, geometry, coords.
Qed.

End MapboxWorker.

(** ** The scoping worker *)

Section ScopingWorker.
Variable str_field : Value -> option string.
Variable bool_field : Value -> option bool.
Variable optional_str_field : Value -> option (option string).
Variable user_requirements : gmap string Value -> option UserRequirements.t.

Lemma record_turn_lookup sid turn conversations other :
  ScopingAgent.record_turn sid turn conversations !! other
  = if decide (sid = other) then Some (default [] (conversations !! sid) ++ [turn])
    else conversations !! other.
Proof.
  unfold ScopingAgent.record_turn. case_decide as Hsid.
  - subst other. apply lookup_insert_eq.
  - by apply lookup_insert_ne.
Qed.

(** X21.  The scoping worker records the user's message before it consults
    the language model, and nothing undoes that: whatever the model answers
    and whether or not a reply is sent, the history of the request's session
    is the old one followed by the user's turn and by at most one
    assistant's turn.  The assistant's turn is there only if the model's
    output parsed to a non-empty object, whose [agent_message] it holds; and
    it is there whenever the model reported success with a content and its
    output parsed to a non-empty object, also when no reply can be built
    from that object.  The history of every other session is untouched. *)
Theorem user_turn_is_always_recorded (llm : ScopingAgent.Exchange)
    (msg : ScopingRequest.t) (conversations : gmap string (list ScopingAgent.Turn)) :
  let sid := ScopingRequest.session_id msg in
  let before := default [] (conversations !! sid) in
  let user := {| ScopingAgent.role := "user";
                 ScopingAgent.content := VStr (ScopingRequest.user_message msg) |} in
  let after := fst (ScopingAgent.handle_request str_field bool_field optional_str_field
          user_requirements llm msg conversations) in
  (after !! sid = Some (before ++ [user]) \/
   exists parsed,
     ScopingAgent.parsed llm = inr (VDict parsed) /\ parsed <> ∅ /\
     after !! sid
     = Some (before ++
             [user;
              {| ScopingAgent.role := "assistant";
                 ScopingAgent.content := dict_get parsed "agent_message" (VStr "") |}])) /\
  (forall result success content parsed,
     ScopingAgent.result llm = inr result ->
     getitem_str result "success" = inr success -> truthy success = true ->
     getitem_str result "content" = inr content ->
     ScopingAgent.parsed llm = inr (VDict parsed) -> parsed <> ∅ ->
     after !! sid
     = Some (before ++
             [user;
              {| ScopingAgent.role := "assistant";
                 ScopingAgent.content := dict_get parsed "agent_message" (VStr "") |}])) /\
  (forall other, other <> sid -> after !! other = conversations !! other).
Proof.
  intros sid before user after. subst after. unfold ScopingAgent.handle_request.
  fold sid. fold user.
  set (recorded := ScopingAgent.record_turn sid user conversations).
  assert (Hsid : recorded !! sid = Some (before ++ [user])).
  { subst recorded. by rewrite record_turn_lookup, decide_True. }
  assert (Hother : forall other, other <> sid -> recorded !! other = conversations !! other).
  { intros other Hne. subst recorded. by rewrite record_turn_lookup, decide_False. }
  assert (Hboth : forall parsed : gmap string Value,
            ScopingAgent.record_turn sid
              {| ScopingAgent.role := "assistant";
                 ScopingAgent.content := dict_get parsed "agent_message" (VStr "") |}
              recorded !! sid
            = Some (before ++
                    [user;
                     {| ScopingAgent.role := "assistant";
                        ScopingAgent.content :=
                          dict_get parsed "agent_message" (VStr "") |}])).
  { intros parsed. rewrite record_turn_lookup, decide_True, Hsid by done. cbn.
    by rewrite <- app_assoc. }
  split; [|split].
  - destruct (ScopingAgent.result llm) as [e|result]; [by left|].
    destruct (getitem_str result "success") as [e|success]; [by left|].
    destruct (truthy success); [|by destruct (getitem_str result "content"); left].
    destruct (getitem_str result "content") as [e|content]; [by left|].
    destruct (ScopingAgent.parsed llm) as [e|parsed] eqn:Hparsed; [by left|].
    destruct (truthy parsed) eqn:Htruthy; [|by left].
    destruct parsed as [| | | | | |parsed]; try by left.
    cbn [fst]. right. exists parsed. split; [done|]. split; [|apply Hboth].
    intros ->. cbn in Htruthy. by rewrite bool_decide_eq_true_2 in Htruthy.
  - intros result success content parsed -> -> -> -> -> Hne.
    assert (truthy (VDict parsed) = true) as ->.
    { cbn. by rewrite bool_decide_eq_false_2. }
    apply Hboth.
  - intros other Hne.
    destruct (ScopingAgent.result llm) as [e|result]; [by apply Hother|].
    destruct (getitem_str result "success") as [e|success]; [by apply Hother|].
    destruct (truthy success);
      [|by destruct (getitem_str result "content"); apply Hother].
    destruct (getitem_str result "content") as [e|content]; [by apply Hother|].
    destruct (ScopingAgent.parsed llm) as [e|parsed]; [by apply Hother|].
    destruct (truthy parsed); [|by apply Hother].
    destruct parsed as [| | | | | |parsed]; try by apply Hother.
    cbn [fst]. rewrite record_turn_lookup, decide_False by done. by apply Hother.
Qed.

(** X22.  When the language model reports a failure, or its output does not
    parse to anything, the user still gets an answer and no search starts:
    the worker replies, under the request's session, with one of its two
    fixed messages, not complete, without requirements, not a general
    question; the coordinator forwards such a reply to no worker, and the
    answer [handle_chat] builds from it is a success that carries the
    message.  No assistant turn is recorded. *)
Theorem scoping_failure_starts_nothing (llm : ScopingAgent.Exchange)
    (msg : ScopingRequest.t) (conversations : gmap string (list ScopingAgent.Turn))
    (result success content : Value) :
  ScopingAgent.result llm = inr result ->
  getitem_str result "success" = inr success ->
  getitem_str result "content" = inr content ->
  (truthy success = false \/
   exists parsed, ScopingAgent.parsed llm = inr parsed /\ truthy parsed = false) ->
  let sid := ScopingRequest.session_id msg in
  exists agent_message,
    (agent_message = "I'm having trouble processing your request. Could you try again?" \/
     agent_message
     = "I'm here to help you find a home in the Bay Area. What are you looking for?") /\
    ScopingAgent.handle_request str_field bool_field optional_str_field user_requirements
      llm msg conversations
    = (ScopingAgent.record_turn sid
         {| ScopingAgent.role := "user";
            ScopingAgent.content := VStr (ScopingRequest.user_message msg) |} conversations,
       Some (ScopingAgent.canned agent_message sid)) /\
    (forall sessions,
       snd (handle_scoping (ScopingAgent.canned agent_message sid) sessions) = []) /\
    fallback_response (ScopingAgent.canned agent_message sid)
    = conversation_response ∅ agent_message.
Proof.
  intros Hresult Hsuccess Hcontent Hfailed sid.
  unfold ScopingAgent.handle_request. fold sid. rewrite Hresult, Hsuccess, Hcontent.
  destruct (truthy success).
  - destruct Hfailed as [?|(parsed & -> & ->)]; [done|].
    eexists. split; [by right|]. by repeat split.
  - eexists. split; [by left|]. by repeat split.
Qed.

Lemma reply_from_requirements session_id parsed reply requirements :
  ScopingAgent.reply_from str_field bool_field optional_str_field user_requirements
    session_id parsed = Some reply ->
  ScopingResponse.requirements reply = Some requirements ->
  truthy (dict_get parsed "is_complete" (VBool false)) = true /\
  exists kwargs, parsed !! "requirements" = Some (VDict kwargs) /\
    user_requirements kwargs = Some requirements.
Proof.
  unfold ScopingAgent.reply_from, ScopingAgent.build_requirements.
  destruct (truthy (dict_get parsed "is_complete" (VBool false))); cbn [andb];
    [destruct (dict_has parsed "requirements")|];
    [destruct (parsed !! "requirements") as [[| | | | | |kwargs]|]; try discriminate;
     destruct (user_requirements kwargs) as [q|] eqn:Hq; [|discriminate];
     cbn [fmap option_fmap option_map]|..];
    repeat match goal with
           | |- match ?x with _ => _ end = _ -> _ => destruct x; try discriminate
           end;
    intros [= <-]; cbn; intros [= <-].
  split; [done|]. by exists kwargs.
Qed.

Lemma reply_from_general_question session_id parsed reply :
  ScopingAgent.reply_from str_field bool_field optional_str_field user_requirements
    session_id parsed = Some reply ->
  optional_str_field (dict_get parsed "general_question" VNone)
  = Some (ScopingResponse.general_question reply).
Proof.
  unfold ScopingAgent.reply_from.
  destruct (optional_str_field (dict_get parsed "general_question" VNone)) as [g|].
  - repeat match goal with
           | |- match ?x with _ => _ end = _ -> _ => destruct x; try discriminate
           end; by intros [= <-].
  - repeat match goal with
           | |- match ?x with _ => _ end = _ -> _ => destruct x; try discriminate
           end.
Qed.

Lemma handle_request_reply llm msg conversations reply :
  snd (ScopingAgent.handle_request str_field bool_field optional_str_field
          user_requirements llm msg conversations) = Some reply ->
  (exists agent_message,
     reply = ScopingAgent.canned agent_message (ScopingRequest.session_id msg)) \/
  (exists parsed, ScopingAgent.parsed llm = inr (VDict parsed) /\
     ScopingAgent.reply_from str_field bool_field optional_str_field user_requirements
       (ScopingRequest.session_id msg) parsed = Some reply).
Proof.
  unfold ScopingAgent.handle_request.
  destruct (ScopingAgent.result llm) as [e|result]; [discriminate|].
  destruct (getitem_str result "success") as [e|success]; [discriminate|].
  destruct (truthy success).
  - destruct (getitem_str result "content") as [e|content]; [discriminate|].
    destruct (ScopingAgent.parsed llm) as [e|parsed]; [discriminate|].
    destruct (truthy parsed).
    + destruct parsed as [| | | | | |parsed]; try discriminate. cbn [snd].
      intros Hreply. right. by exists parsed.
    + intros [= <-]. left. by eexists.
  - destruct (getitem_str result "content"); [discriminate|].
    intros [= <-]. left. by eexists.
Qed.

(** X23.  What a scoping reply can set off.  Every reply the worker sends
    carries the session id of its request.  It carries requirements only
    when the model's output is an object whose [is_complete] is truthy and
    whose [requirements] is an object that validates to them.  So a research
    request that the coordinator sends on such a reply is for the
    requester's session and carries requirements the model's output held;
    and a general request that it sends is for the requester's session and
    asks the non-empty question that the output's [general_question]
    validates to. *)
Theorem scoping_reply_contract (llm : ScopingAgent.Exchange) (msg : ScopingRequest.t)
    (conversations : gmap string (list ScopingAgent.Turn)) (reply : ScopingResponse.t) :
  snd (ScopingAgent.handle_request str_field bool_field optional_str_field
          user_requirements llm msg conversations) = Some reply ->
  let from_output (requirements : UserRequirements.t) :=
    exists parsed kwargs,
      ScopingAgent.parsed llm = inr (VDict parsed) /\
      truthy (dict_get parsed "is_complete" (VBool false)) = true /\
      parsed !! "requirements" = Some (VDict kwargs) /\
      user_requirements kwargs = Some requirements in
  ScopingResponse.session_id reply = ScopingRequest.session_id msg /\
  (forall requirements,
     ScopingResponse.requirements reply = Some requirements -> from_output requirements) /\
  (forall sessions q,
     ToResearch q ∈ snd (handle_scoping reply sessions) ->
     ResearchRequest.session_id q = ScopingRequest.session_id msg /\
     from_output (ResearchRequest.requirements q)) /\
  (forall sessions q,
     ToGeneral q ∈ snd (handle_scoping reply sessions) ->
     GeneralRequest.session_id q = ScopingRequest.session_id msg /\
     GeneralRequest.question q <> "" /\
     exists parsed,
       ScopingAgent.parsed llm = inr (VDict parsed) /\
       optional_str_field (dict_get parsed "general_question" VNone)
       = Some (Some (GeneralRequest.question q))).
Proof.
  intros Hreply from_output.
  assert (Hsid : ScopingResponse.session_id reply = ScopingRequest.session_id msg).
  { destruct (handle_request_reply _ _ _ _ Hreply) as [[a ->]|(parsed & _ & Hfrom)]; [done|].
    unfold ScopingAgent.reply_from in Hfrom.
    repeat match type of Hfrom with
           | match ?x with _ => _ end = _ => destruct x; try discriminate
           end; by injection Hfrom as <-. }
  assert (Hreq : forall requirements,
            ScopingResponse.requirements reply = Some requirements ->
            from_output requirements).
  { intros requirements Hq.
    destruct (handle_request_reply _ _ _ _ Hreply) as [[a ->]|(parsed & Hparsed & Hfrom)];
      [discriminate|].
    destruct (reply_from_requirements _ _ _ _ Hfrom Hq) as (Hcomplete & kwargs & Hk & Hu).
    by exists parsed, kwargs. }
  split; [exact Hsid|]. split; [exact Hreq|]. split.
  - intros sessions q Hq. rewrite handle_scoping_sent in Hq.
    unfold scoping_reaction, handle_scoping in Hq.
    destruct (ScopingResponse.is_general_question reply && _).
    { apply list_elem_of_singleton in Hq. discriminate. }
    destruct (ScopingResponse.is_complete reply),
      (ScopingResponse.requirements reply) as [requirements|] eqn:Hr;
      try by apply elem_of_nil in Hq.
    apply list_elem_of_singleton in Hq. injection Hq as ->. cbn.
    split; [exact Hsid|]. by apply Hreq.
  - intros sessions q Hq. rewrite handle_scoping_sent in Hq.
    unfold scoping_reaction, handle_scoping in Hq.
    destruct (ScopingResponse.is_general_question reply
              && truthy_str (ScopingResponse.general_question reply)) eqn:Hgen.
    2:{ destruct (ScopingResponse.is_complete reply),
          (ScopingResponse.requirements reply);
          try (by apply elem_of_nil in Hq).
        apply list_elem_of_singleton in Hq. discriminate. }
    apply list_elem_of_singleton in Hq. injection Hq as ->. cbn.
    apply andb_true_iff in Hgen as [_ Htruthy].
    destruct (ScopingResponse.general_question reply) as [question|] eqn:Hquestion;
      [|discriminate].
    cbn in Htruthy |- *. split; [exact Hsid|]. split.
    { intros ->. discriminate. }
    destruct (handle_request_reply _ _ _ _ Hreply) as [[a ->]|(parsed & Hparsed & Hfrom)];
      [discriminate|].
    exists parsed. split; [done|].
    by rewrite (reply_from_general_question _ _ _ Hfrom), Hquestion.
Qed.

End ScopingWorker.

(** * The properties on concrete runs *)

Example parse_composite_3 : parse_session_id (composite_id "abc" 3) = Composite "abc" 3.
Proof. reflexivity. Qed.

Example py_int_examples :
  py_int " 12 " = Some 12 /\ py_int "1_0" = Some 10 /\ py_int "_0" = None /\
  py_int "-3" = Some (-3) /\ py_int "" = None /\ py_int "1__0" = None /\
  py_int "٣" = Some 3 /\ py_int "1٣" = Some 13 /\ py_int "４２" = Some 42 /\
  py_int "②" = None /\ parse_session_id "s1__٣" = Composite "s1" 3.
Proof. repeat split; reflexivity. Qed.

Example results_count_caps_at_five :
  results_count ex_three_hits = 3 /\ results_count ex_eight_hits = 5.
Proof. split; reflexivity. Qed.

Lemma composite_token_round_trip_witness :
  py_in "__" "s1" = false /\ ends_with "_" "s1" = false /\
  parse_session_id (composite_id "s1" 4) = Composite "s1" 4.
Proof.
  split; [reflexivity|]. split; [reflexivity|].
  apply (composite_token_round_trip "s1" 4); reflexivity.
Defined.

(** C1 as stated fails for a token that ends with an underscore: ["a_"] does
    not contain ["__"], its composite token for index 0 is ["a___0"], the
    first ["__"] of which starts inside the token, and [int("_0")] raises. *)
Lemma trailing_underscore_breaks_round_trip :
  py_in "__" "a_" = false /\ (0 < 5)%nat /\
  parse_session_id (composite_id "a_" 0) = Malformed /\
  parse_session_id (composite_id "a_" 0) <> Composite "a_" 0.
Proof. repeat split; [lia|discriminate]. Qed.





Lemma fan_out_witness :
  snd (handle_research example_str_field (ex_research ex_eight_hits None) ∅)
  = [mapbox_request "1 A St" "s1__0"; mapbox_request "2 B St" "s1__1";
     mapbox_request "3 C St" "s1__2"; mapbox_request "4 D St" "s1__3";
     mapbox_request "5 E St" "s1__4"].
Proof.
  assert (Hlen : (5 < length ex_eight_hits)%nat) by (cbn; lia).
  assert (Hstr : forall s, example_str_field (VStr s) = Some s) by reflexivity.
  destruct (fan_out_follows_titles example_str_field (ex_research ex_eight_hits None) ∅
              ex_eight_hits eq_refl Hlen Hstr) as (_ & _ & Hall).
  destruct Hall as [Hsent _].
  - intros i c Hi Hc.
    do 5 (destruct i as [|i];
          [injection Hc as <-; eexists; split; [reflexivity|discriminate]|]).
    lia.
  - rewrite Hsent. reflexivity.
Defined.

(** C5 as stated fails: of eight hits the first of which has no title, four
    get a geocoding request (indices 1 to 4), not five. *)
Lemma untitled_hit_gets_no_request :
  length ex_eight_hits_first_untitled = 8%nat /\
  snd (handle_research example_str_field (ex_research ex_eight_hits_first_untitled None) ∅)
  = [mapbox_request "2 B St" "s1__1"; mapbox_request "3 C St" "s1__2";
     mapbox_request "4 D St" "s1__3"; mapbox_request "5 E St" "s1__4"].
Proof. split; reflexivity. Qed.



Lemma scoping_timeout_witness :
  let r := ex_run [[]; [FromScoping (ex_search_scoping "s2")]] in
  fst (ex_chat ex_request r) = error_response "Timeout waiting for scoping agent" /\
  outbox (snd (ex_chat ex_request r))
  = [ToScoping {| ScopingRequest.user_message := ChatRequest.message ex_request;
                  ScopingRequest.session_id := "s1" |};
     ToResearch {| ResearchRequest.requirements := ex_requirements;
                   ResearchRequest.session_id := "s2" |}].
Proof.
  intros r.
  destruct (scoping_timeout_invokes_nothing example_str_field example_str_exn ex_request r)
    as (Hresponse & _ & _).
  - no_such_arrival.
  - split; [exact Hresponse|]. vm_compute. reflexivity.
Defined.

(** C6 as stated fails: nothing arrives during the suspensions of the first
    wait and [handle_chat] answers with an error, having invoked no
    downstream worker; the classification reply that arrives afterwards is
    still forwarded to the research worker. *)
Lemma late_classification_is_dispatched :
  let r := ex_run [] in
  let r' := snd (ex_chat ex_request r) in
  arrivals 61 r = [] /\
  ChatResponse.status (fst (ex_chat ex_request r)) = "error" /\
  outbox r' = [ToScoping {| ScopingRequest.user_message := ChatRequest.message ex_request;
                            ScopingRequest.session_id := "s1" |}] /\
  snd (dispatch example_str_field (FromScoping (ex_search_scoping "s1")) (sessions r'))
  = [ToResearch {| ResearchRequest.requirements := ex_requirements;
                   ResearchRequest.session_id := "s1" |}].
Proof. vm_compute. repeat split; reflexivity. Qed.

(** C7 as stated fails: the classification marks the search complete, with
    requirements, and flags a general question too; the general answer is
    processed, no research reply ever is, and [handle_chat] answers with
    [status = "success"] and the general answer. *)
Lemma complete_general_question_is_answered :
  let r := ex_run [[]; [FromScoping ex_complete_general_scoping];
                   [FromGeneral (ex_answer "Oakland schools are rated 6 of 10")]] in
  ScopingResponse.is_complete ex_complete_general_scoping = true /\
  ScopingResponse.requirements ex_complete_general_scoping = Some ex_requirements /\
  arrivals 200 r = [FromScoping ex_complete_general_scoping;
                    FromGeneral (ex_answer "Oakland schools are rated 6 of 10")] /\
  fst (ex_chat ex_request r)
  = conversation_response ∅ "Oakland schools are rated 6 of 10" /\
  ChatResponse.status (fst (ex_chat ex_request r)) = "success".
Proof. vm_compute. repeat split; reflexivity. Qed.

Lemma research_timeout_witness :
  let r := ex_run [[]; [FromScoping (ex_search_scoping "s1")]] in
  fst (ex_chat ex_request r) = error_response "Research agent did not respond in time" /\
  ChatResponse.status (fst (ex_chat ex_request r)) = "error".
Proof.
  intros r.
  apply (research_timeout_is_an_error example_str_field example_str_exn ex_request r
           (snd (await_scoping example_str_field ex_request r))
           (ex_search_scoping "s1") ex_requirements);
    try (vm_compute; reflexivity).
  no_such_arrival.
Defined.


(** C8 at the failing input: the session holds the answer to an earlier
    question; the new question is classified as a general question during
    the first sleep and its answer would be processed during the second.
    [handle_chat] returns the earlier answer as the summary and never looks
    at the new one, which is still in the inbox when it returns. *)
Lemma second_question_gets_first_answer :
  let r := ex_run_after_answer
             [[]; [FromScoping ex_general_scoping];
              [FromGeneral (ex_answer "Oakland schools are rated 6 of 10")]] in
  ChatResponse.status (fst (ex_chat ex_request r)) = "success" /\
  ChatResponse.data (fst (ex_chat ex_request r)) !! "search_summary"
    = Some (VStr "Earlier answer") /\
  inbox (snd (ex_chat ex_request r))
    = [[FromGeneral (ex_answer "Oakland schools are rated 6 of 10")]].
Proof. vm_compute. repeat split; reflexivity. Qed.

Lemma pass_through_witness :
  let r := ex_search_run (ex_research ex_three_hits (Some [ex_image])) [] in
  ChatResponse.status (fst (ex_chat ex_request r)) = "success" /\
  field_of "pois" <$> raw_search_results_of (fst (ex_chat ex_request r))
    = [Some (VList []); Some (VList []); Some (VList [])] /\
  field_of "latitude" <$> raw_search_results_of (fst (ex_chat ex_request r))
    = [None; None; None] /\
  field_of "image_url" <$> raw_search_results_of (fst (ex_chat ex_request r))
    = [Some (VStr "https://images.example/new.jpg"); None; None].
Proof.
  intros r.
  destruct (ungeocoded_hits_pass_through example_str_field example_str_exn ex_request r
              (snd (await_scoping example_str_field ex_request r))
              (ex_search_scoping "s1") ex_requirements
              (ex_research ex_three_hits (Some [ex_image])) ex_three_hits)
    as (enhanced & top & _ & Hstatus & _);
    try no_such_arrival; try (vm_compute; reflexivity).
  - intros i c Hi Hc.
    do 3 (destruct i as [|i]; [vm_compute; intros H; by inversion H|]). discriminate Hc.
  - intros i c Hi Hc.
    do 3 (destruct i as [|i]; [injection Hc as <-; reflexivity|]). discriminate Hc.
  - intros c [= <-]. vm_compute. discriminate.
  - split; [exact Hstatus|]. vm_compute. repeat split; reflexivity.
Defined.

(** C4 as stated fails in five ways, each on a run in which the research
    reply arrives and no geocoding reply does. *)
Lemma merge_can_fail_or_carry_more :
  (* a hit whose title is null: the summary log line raises *)
  (let r := ex_search_run (ex_research [ex_null_title_hit] None) [] in
   arrivals 191 r = [FromScoping (ex_search_scoping "s1");
                     FromResearch (ex_research [ex_null_title_hit] None)] /\
   ChatResponse.status (fst (ex_chat ex_request r)) = "error") /\
  (* a POI reply, left over from an earlier request, arrives during the waits *)
  (let r := ex_search_run (ex_research ex_three_hits None)
              [[FromLocalDiscovery (ex_poi_reply 0)]] in
   arrivals 191 r = [FromScoping (ex_search_scoping "s1");
                     FromResearch (ex_research ex_three_hits None);
                     FromLocalDiscovery (ex_poi_reply 0)] /\
   field_of "pois" <$> raw_search_results_of (fst (ex_chat ex_request r))
     = [Some (VList [VDict (POI.dict ex_poi)]); Some (VList []); Some (VList [])]) /\
  (* the research reply carries an image for a hit that has an image_url *)
  (let r := ex_search_run (ex_research [ex_hit_with_image] (Some [ex_image])) [] in
   arrivals 191 r = [FromScoping (ex_search_scoping "s1");
                     FromResearch (ex_research [ex_hit_with_image] (Some [ex_image]))] /\
   ex_hit_with_image !! "image_url" = Some (VStr "https://listings.example/old.jpg") /\
   field_of "image_url" <$> raw_search_results_of (fst (ex_chat ex_request r))
     = [Some (VStr "https://images.example/new.jpg")]) /\
  (* the first hit has a latitude of its own and no longitude *)
  (let r := ex_search_run (ex_research [ex_hit_with_latitude] None) [] in
   arrivals 191 r = [FromScoping (ex_search_scoping "s1");
                     FromResearch (ex_research [ex_hit_with_latitude] None)] /\
   ChatResponse.status (fst (ex_chat ex_request r)) = "error") /\
  (* an image entry of the research reply has no index: the lookup raises *)
  (let research_msg := ex_research ex_three_hits (Some [ex_image_without_index]) in
   let r := ex_search_run research_msg [] in
   arrivals 191 r = [FromScoping (ex_search_scoping "s1"); FromResearch research_msg] /\
   fst (ex_chat ex_request r) = error_response (example_str_exn (KeyError "index"))).
Proof. vm_compute. repeat split; reflexivity. Qed.

Lemma round_trip_only_if_witness :
  py_in "__" "s1" = false /\ ends_with "_" "s1" = false.
Proof. apply (composite_token_round_trip_only_if "s1" 3). vm_compute. reflexivity. Defined.

Lemma fresh_answer_witness :
  let r := ex_run [[]; [FromScoping ex_general_scoping];
                   [FromGeneral (ex_answer "Oakland schools are rated 6 of 10")]] in
  fst (ex_chat ex_request r)
  = conversation_response ∅ "Oakland schools are rated 6 of 10".
Proof.
  intros r.
  apply (fresh_general_answer_returned example_str_field example_str_exn
           ex_request r (snd (await_scoping example_str_field ex_request r))
           ex_general_scoping "Oakland schools are rated 6 of 10");
    try (vm_compute; reflexivity).
  - no_such_arrival.
  - right. exists (ex_answer "Oakland schools are rated 6 of 10").
    split; [|reflexivity]. vm_compute. apply elem_of_cons. by left.
Defined.

Lemma unfinished_scoping_witness :
  let r := ex_run [[]; [FromScoping ex_followup_scoping]] in
  ex_chat ex_request r
  = (conversation_response ∅ "What is your budget?",
     snd (await_scoping example_str_field ex_request r)).
Proof.
  intros r.
  apply (unfinished_scoping_is_answered_at_once example_str_field example_str_exn
           ex_request r (snd (await_scoping example_str_field ex_request r))
           ex_followup_scoping);
    try (vm_compute; reflexivity).
  by left.
Defined.

Lemma general_timeout_witness :
  let r := ex_run [[]; [FromScoping ex_general_scoping]] in
  ex_chat ex_request r
  = (conversation_response ∅ "I'll look that up for you.",
     sleepn example_str_field 60 (snd (await_scoping example_str_field ex_request r))) /\
  ChatResponse.status (fst (ex_chat ex_request r)) = "success".
Proof.
  intros r.
  apply (general_timeout_falls_back example_str_field example_str_exn
           ex_request r (snd (await_scoping example_str_field ex_request r))
           ex_general_scoping);
    try (vm_compute; reflexivity).
  - by left.
  - no_such_arrival.
Defined.

Lemma research_without_hit_list_witness :
  let r := ex_search_run ex_research_without_hits [] in
  let r1 := snd (await_scoping example_str_field ex_request r) in
  ex_chat ex_request r
  = (error_response "'NoneType' object is not subscriptable",
     await_research example_str_field "s1" r1) /\
  reaction example_str_field (FromResearch ex_research_without_hits) = [].
Proof.
  intros r r1.
  apply (research_without_hit_list_is_an_error example_str_field example_str_exn
           ex_request r r1 (ex_search_scoping "s1") ex_requirements
           ex_research_without_hits);
    vm_compute; reflexivity.
Defined.

Lemma empty_hit_list_witness :
  let r := ex_search_run (ex_research [] None) [] in
  let r1 := snd (await_scoping example_str_field ex_request r) in
  ex_chat ex_request r
  = (search_response ex_requirements (ex_research [] None) VNone [],
     await_research example_str_field "s1" r1) /\
  reaction example_str_field (FromResearch (ex_research [] None)) = [].
Proof.
  intros r r1.
  apply (empty_hit_list_succeeds example_str_field example_str_exn
           ex_request r r1 (ex_search_scoping "s1") ex_requirements (ex_research [] None));
    vm_compute; reflexivity.
Defined.

Lemma merged_hit_fields_witness :
  exists cands,
    ResearchResponse.raw_search_results (ex_research ex_three_hits (Some [ex_image]))
      = Some cands /\
    length ex_merged_hits = Nat.min (length cands) 5.
Proof.
  destruct (merged_hit_fields (ex_research ex_three_hits (Some [ex_image]))
              ex_session_one_geocoded ex_merged_hits ex_top)
    as (cands & Hraw & Hlen & _); [vm_compute; reflexivity|].
  exists cands. split; assumption.
Defined.

Lemma top_coordinates_witness :
  ex_top = VDict (list_to_map
             [("latitude", VFloat 37.75%float);
              ("longitude", VFloat (-122.25)%float);
              ("address", VStr "12 Oak St, Oakland, California");
              ("image_url", VStr "https://images.example/new.jpg")]).
Proof.
  pose proof (top_coordinates_follow_first_hit
                (ex_research ex_three_hits (Some [ex_image])) ex_session_one_geocoded
                ex_merged_hits ex_top (ex_hit "12 Oak St")
                [ex_hit "7 Pine Ave"; ex_hit "301 Lake Dr"]) as H.
  assert (H1 : merge (ex_research ex_three_hits (Some [ex_image])) ex_session_one_geocoded
               = inr (ex_merged_hits, ex_top)) by (vm_compute; reflexivity).
  destruct (H H1 eq_refl) as (image_url & Himage & Htop).
  vm_compute in Himage. injection Himage as <-.
  vm_compute in Htop. vm_compute. exact Htop.
Defined.


Lemma replies_touch_one_session_witness :
  let batch := [FromScoping (ex_search_scoping "s2");
                FromResearch (ex_research ex_three_hits None);
                FromMapbox (ex_geocoded 0)] in
  session (fst (deliver example_str_field batch ex_store_after_research)) "s3"
  = session ex_store_after_research "s3".
Proof.
  intros batch. apply (replies_touch_one_session example_str_field "s3").
  intros m Hm. subst batch.
  repeat (apply elem_of_cons in Hm as [->|Hm]; [by vm_compute|]).
  by apply elem_of_nil in Hm.
Defined.

Lemma geocoding_round_trip_witness :
  let request := {| MapboxRequest.address := "301 Lake Dr";
                    MapboxRequest.session_id := composite_id "s1" 2 |} in
  let reply := handle_geocode_request request
                 (GeocodeFound 37.75%float (-122.5)%float "301 Lake Dr, Oakland") in
  let sessions' := fst (handle_mapbox reply ex_store_after_research) in
  find_geocoded 2 (get_geocoded_results (session sessions' "s1"))
  = Some {| GeocodedResult.index := 2;
            GeocodedResult.latitude := 37.75%float;
            GeocodedResult.longitude := (-122.5)%float;
            GeocodedResult.address := "301 Lake Dr, Oakland" |} /\
  get_geocoding_count (session sessions' "s1")
  = get_geocoding_count (session ex_store_after_research "s1") + 1.
Proof.
  intros request reply sessions'.
  destruct (geocoding_round_trip "s1" 2 "301 Lake Dr" 37.75%float (-122.5)%float
              "301 Lake Dr, Oakland" ex_store_after_research)
    as (Hfind & Hcount & _); try (vm_compute; reflexivity).
  split; assumption.
Defined.

Lemma separator_in_token_witness :
  let request := {| MapboxRequest.address := "12 Oak St";
                    MapboxRequest.session_id := composite_id "a__b" 0 |} in
  let result := GeocodeFound 37.75%float (-122.25)%float "12 Oak St, Oakland, California" in
  parse_session_id (composite_id "a__b" 0) = Malformed /\
  handle_mapbox (handle_geocode_request request result) ex_store_after_research
  = (ex_store_after_research, []).
Proof.
  intros request result.
  apply (separator_in_token_drops_replies "a__b" 0 request result ex_store_after_research).
  - left. reflexivity.
  - reflexivity.
Defined.

Lemma failed_geocoding_witness :
  exists reply,
    ex_geocode_worker (Some "pk.test") ex_geocoding_refusal ex_geocode_request = Some reply /\
    MapboxResponse.error reply = Some "Mapbox API error 401: Not Authorized" /\
    snd (handle_mapbox reply ex_store_after_research) = [].
Proof.
  destruct (failed_geocoding_is_never_recorded example_str_raised example_str_item
              example_str_field example_float_field (Some "pk.test") ex_geocoding_refusal
              ex_geocode_request "Mapbox API error 401: Not Authorized"
              ex_store_after_research)
    as (reply & Hreply & _ & _ & Herror & _ & _ & _ & Hsent & _);
    [vm_compute; reflexivity|].
  exists reply. split; [exact Hreply|]. split; assumption.
Defined.

Lemma coordinates_are_read_witness :
  ex_geocode_worker (Some "pk.test") ex_geocoding_answer ex_geocode_request
  = Some (ex_geocoded 0).
Proof.
  apply (coordinates_are_read_as_lng_lat example_str_raised example_str_item
           example_str_field example_float_field (Some "pk.test") ex_geocode_request
           (inr "") ex_geocoding_json ex_feature ex_feature_geometry ex_feature_properties
           [] [] (-122.25)%float 37.75%float "12 Oak St, Oakland, California");
    try (vm_compute; reflexivity); try done.
  left. vm_compute. reflexivity.
Defined.

Lemma coordinates_only_from_a_200_witness :
  truthy_str (Some "pk.test") = true /\
  exists text data features feature geometry coords,
    ex_geocoding_answer = MapboxAgent.Answered 200 text (inr (VDict data)) /\
    data !! "features" = Some features /\ truthy features = true /\
    MapboxAgent.getitem_nat example_str_item features 0 = inr feature /\
    getitem_str feature "geometry" = inr geometry /\
    getitem_str geometry "coordinates" = inr coords /\
    MapboxAgent.getitem_nat example_str_item coords 1 = inr (VFloat 37.75%float) /\
    MapboxAgent.getitem_nat example_str_item coords 0 = inr (VFloat (-122.25)%float).
Proof.
  apply (coordinates_only_from_a_200 example_str_raised example_str_item
           (Some "pk.test") ex_geocoding_answer "12 Oak St"
           (VFloat 37.75%float) (VFloat (-122.25)%float)
           (VStr "12 Oak St, Oakland, California")).
  vm_compute. reflexivity.
Defined.

Lemma user_turn_witness :
  fst (ex_scoping_worker ex_llm_complete ex_scoping_request ∅) !! "s1"
  = Some [{| ScopingAgent.role := "user";
             ScopingAgent.content := VStr "2 bedrooms in Oakland under 900k" |};
          {| ScopingAgent.role := "assistant";
             ScopingAgent.content := VStr "Searching Oakland for you." |}].
Proof.
  assert (Hne : ex_llm_output <> ∅).
  { intros Heq. pose proof (f_equal (fun m => m !! "is_complete") Heq) as Hk.
    vm_compute in Hk. discriminate Hk. }
  pose proof (proj1 (proj2 (user_turn_is_always_recorded example_str_field
                              example_bool_field example_optional_str_field
                              example_user_requirements
                              ex_llm_complete ex_scoping_request ∅))
                (VDict (<["content" := VStr "{...}"]> {[ "success" := VBool true ]}))
                (VBool true) (VStr "{...}") ex_llm_output
                eq_refl ltac:(vm_compute; reflexivity) eq_refl
                ltac:(vm_compute; reflexivity) eq_refl Hne) as H.
  vm_compute in H. vm_compute. exact H.
Defined.

Lemma scoping_failure_witness :
  exists agent_message,
    (agent_message = "I'm having trouble processing your request. Could you try again?" \/
     agent_message
     = "I'm here to help you find a home in the Bay Area. What are you looking for?") /\
    ex_scoping_worker ex_llm_failure ex_scoping_request ∅
    = (ScopingAgent.record_turn "s1"
         {| ScopingAgent.role := "user";
            ScopingAgent.content := VStr "2 bedrooms in Oakland under 900k" |} ∅,
       Some (ScopingAgent.canned agent_message "s1")) /\
    (forall sessions,
       snd (handle_scoping (ScopingAgent.canned agent_message "s1") sessions) = []) /\
    fallback_response (ScopingAgent.canned agent_message "s1")
    = conversation_response ∅ agent_message.
Proof.
  apply (scoping_failure_starts_nothing example_str_field example_bool_field
           example_optional_str_field example_user_requirements
           ex_llm_failure ex_scoping_request ∅
           (VDict (<["content" := VStr "rate limit"]> {[ "success" := VBool false ]}))
           (VBool false) (VStr "rate limit"));
    try (vm_compute; reflexivity).
  by left.
Defined.

Lemma scoping_reply_witness :
  ScopingResponse.session_id ex_scoping_reply = "s1" /\
  forall sessions q,
    ToResearch q ∈ snd (handle_scoping ex_scoping_reply sessions) ->
    ResearchRequest.session_id q = "s1".
Proof.
  destruct (scoping_reply_contract example_str_field example_bool_field
              example_optional_str_field example_user_requirements
              ex_llm_complete ex_scoping_request ∅ ex_scoping_reply)
    as (Hsid & _ & Hsent & _); [vm_compute; reflexivity|].
  split; [exact Hsid|]. intros sessions q Hq. exact (proj1 (Hsent sessions q Hq)).
Defined.

Lemma mapbox_entry_witness :
  let legacy := fst (handle_mapbox ex_legacy_reply ∅) in
  let inbox := [[]; [FromScoping ex_followup_scoping]] in
  fst (ex_chat ex_request {| sessions := legacy; outbox := []; inbox := inbox |})
  = fst (ex_chat ex_request (ex_run inbox)).
Proof.
  intros legacy inbox.
  apply (proj2 (mapbox_entry_is_never_read example_str_field example_str_exn)).
  split; [reflexivity|]. split; [reflexivity|].
  apply (proj1 (proj2 (proj1 (mapbox_entry_is_never_read example_str_field
                                example_str_exn) ex_legacy_reply ∅ eq_refl))).
Defined.

Lemma poi_reply_witness :
  let sessions' := fst (handle_local_discovery (ex_poi_reply 1) ex_store_after_research) in
  snd (handle_local_discovery (ex_poi_reply 1) ex_store_after_research) = [] /\
  get_poi_count (session sessions' "s1")
  = get_poi_count (session ex_store_after_research "s1") + 1 /\
  forall geocoded_results result_images result,
    match enhance geocoded_results result_images
            (get_poi_results (session sessions' "s1")) 1 result with
    | inr e => e !! "pois" = Some (VList [VDict (POI.dict ex_poi)])
    | inl _ => image_lookup_raises 1 result_images
    end.
Proof.
  intros sessions'.
  apply (poi_reply_reaches_merge (ex_poi_reply 1) ex_store_after_research 1);
    vm_compute; reflexivity.
Defined.
